(** * Solver selection, tuning and preload coordination of MIOpen

    A shallow embedding of
    - [src/solver/cat/forward_cat.cpp] (the [CatForward] solver),
    - [src/solver/conv_hip_implicit_gemm_grouped_fwd_xdlops.cpp] (the grouped
      forward xdlops solver and its performance configuration),
    - [src/include/miopen/db_preload.hpp] (the preload coordination state),
    together with the properties the specification states about them. *)

From Stdlib Require Import ZArith QArith String List Bool Lia.
From stdpp Require Import base option list gmap strings.
From Equations Require Import Equations.

Local Open Scope string_scope.
Local Open Scope Z_scope.

(** ** Outcomes of a call

    A C++ call either returns, leaves by an exception, stops the process at a
    failed [assert], or has no defined behaviour (an out-of-range subscript,
    a signed overflow).  The exceptions are those of the library
    ([MIOPEN_THROW]), of the standard containers, and the two errors of the
    search in the specification's taxonomy. *)

Inductive miopenStatus_t : Set :=
| miopenStatusSuccess
| miopenStatusBadParm
| miopenStatusUnknownError.

Inductive Exception : Set :=
| miopen_Exception (status : miopenStatus_t) (message : string)
| std_out_of_range
| NoCandidates
| NoValidConfiguration.

Inductive Outcome (A : Type) : Type :=
| Returns (a : A)
| Throws (e : Exception)
| AssertFails
| Undefined.

Arguments Returns {A} a.
Arguments Throws {A} e.
Arguments AssertFails {A}.
Arguments Undefined {A}.

Definition Outcome_bind {A B : Type} (f : A -> Outcome B) (m : Outcome A) : Outcome B :=
  match m with
  | Returns a => f a
  | Throws e => Throws e
  | AssertFails => AssertFails
  | Undefined => Undefined
  end.

Definition Outcome_map {A B : Type} (f : A -> B) (m : Outcome A) : Outcome B :=
  match m with
  | Returns a => Returns (f a)
  | Throws e => Throws e
  | AssertFails => AssertFails
  | Undefined => Undefined
  end.

#[global] Instance Outcome_mbind : MBind Outcome := @Outcome_bind.
#[global] Instance Outcome_mret : MRet Outcome := @Returns.

(** [MIOPEN_THROW(status, message)] *)
Definition MIOPEN_THROW {A : Type} (status : miopenStatus_t) (message : string) : Outcome A :=
  Throws (miopen_Exception status message).

Definition throws {A : Type} (m : Outcome A) : bool :=
  match m with
  | Throws _ => true
  | _ => false
  end.

(** ** Integers of the source

    [int] values are integers in [INT_MIN .. INT_MAX]; where the source
    compares an [int] with a [size_t], or uses it as a vector subscript,
    the [int] is converted to [size_t] first.  Counters that run over a
    vector, and [index], which follows [valid_kernels], are incremented in
    [Z]: they stay below the size of the vector. *)

Definition INT_MAX : Z := 2147483647.

Definition size_t_of_int (i : Z) : Z :=
  if i <? 0 then 2 ^ 64 + i else i.

(** [v[i]] for a [std::vector]: no bounds check, undefined out of range. *)
Definition subscript {A : Type} (v : list A) (i : Z) : Outcome A :=
  match v !! Z.to_nat (size_t_of_int i) with
  | Some x => Returns x
  | None => Undefined
  end.

(** [v.at(i)]: bounds-checked, throws [std::out_of_range]. *)
Definition at_ {A : Type} (v : list A) (i : Z) : Outcome A :=
  match v !! Z.to_nat (size_t_of_int i) with
  | Some x => Returns x
  | None => Throws std_out_of_range
  end.

(** [int < size_t] *)
Definition int_lt_size (i : Z) (n : nat) : bool :=
  size_t_of_int i <? Z.of_nat n.

(** ** The cat solver: [src/solver/cat/forward_cat.cpp] *)

Module cat.

(** What [CatForward] reads from a [miopen::cat::ProblemDescription]
    (declared in cat/problem_description.hpp): the tensor count, the
    results of the four structural predicates and the element count of
    the output descriptor. *)
Record ProblemDescription : Type := {
  GetXCount : Z;
  IsSameType : bool;
  IsRightDim : bool;
  IsRightLength : bool;
  IsAllPacked : bool;
  GetYDesc_GetElementSize : Z
}.

Definition LOCAL_SIZE : Z := 256.
Definition MAX_TENSOR_X_COUNT : Z := 8.
Definition MIN_OUTPUT_TENSOR_SIZE : Z := 1000000.

Definition IsUnderXCountLimit (problem : ProblemDescription) : Outcome bool :=
  if MAX_TENSOR_X_COUNT <? GetXCount problem
  then MIOPEN_THROW miopenStatusBadParm "CatForward: Exceeded the number of tensors."
  else Returns true.

Definition IsImprovementOverROCm (problem : ProblemDescription) : bool :=
  if GetYDesc_GetElementSize problem <? MIN_OUTPUT_TENSOR_SIZE
  then false
  else true.

(** [CatForward::IsApplicable]; the execution context is not read. *)
Definition IsApplicable {ExecutionContext : Type} (context : ExecutionContext)
    (problem : ProblemDescription) : Outcome bool :=
  under ← IsUnderXCountLimit problem;
  if negb under then Returns false
  else if negb (IsSameType problem) then Returns false
  else if negb (IsRightDim problem) then Returns false
  else if negb (IsRightLength problem) then Returns false
  else if negb (IsAllPacked problem) then Returns false
  else if negb (IsImprovementOverROCm problem) then Returns false
  else Returns true.

(** The loop [while(fusion_size < xCount) fusion_size *= 2;] on [int]s:
    doubling past [INT_MAX] is a signed overflow, and from a value that is
    not positive the loop never reaches [xCount] without one.  The solver
    enters it at 2. *)
Equations? fusion_loop (fusion_size xCount : Z) : Outcome Z
  by wf (Z.to_nat (INT_MAX + 1 - fusion_size)) lt :=
  fusion_loop fusion_size xCount with Z_lt_dec fusion_size xCount => {
    | right _ := Returns fusion_size;
    | left _ with Z_le_dec fusion_size 0 => {
        | left _ := Undefined;
        | right _ with Z_lt_dec INT_MAX (fusion_size * 2) => {
            | left _ := Undefined;
            | right _ := fusion_loop (fusion_size * 2) xCount } } }.
Proof. unfold INT_MAX in *. lia. Qed.

(** The part of [KernelInfo] that names the kernel. *)
Record KernelInfo : Type := {
  kernel_file : string;
  kernel_name : string
}.

(** [switch(fusion_size)]: the kernel name stays empty in the default
    case. *)
Definition kernel_name_of (fusion_size : Z) : string :=
  if fusion_size =? 2 then "Cat2FwdPacked"
  else if fusion_size =? 4 then "Cat4FwdPacked"
  else if fusion_size =? 8 then "Cat8FwdPacked"
  else EmptyString.

End cat.


(** ** The grouped forward xdlops solver:
       [src/solver/conv_hip_implicit_gemm_grouped_fwd_xdlops.cpp] *)

Inductive miopenDataType_t : Set :=
| miopenHalf
| miopenFloat
| miopenInt32
| miopenInt8
| miopenInt8x4
| miopenBFloat16
| miopenDouble.

#[global] Instance miopenDataType_eq_dec : EqDecision miopenDataType_t.
Proof. solve_decision. Defined.

Module conv.

Inductive Direction : Set := Forward | BackwardData | BackwardWeights.

Definition IsForward (d : Direction) : bool :=
  match d with Forward => true | _ => false end.

(** What the solver reads from a convolution [ProblemDescription]
    (declared in problem_description.hpp), directly or through
    [ProblemInterpreter]; each field carries the name of its getter. *)
Record ProblemDescription : Type := {
  GetInDataType : miopenDataType_t;
  GetWeightsDataType : miopenDataType_t;
  GetOutDataType : miopenDataType_t;
  direction : Direction;
  Is2d : bool;
  IsLayoutNHWC : bool;
  GetGroupCountG : Z;
  GetBatchN : Z;
  GetOutputChannelK : Z;
  GetInputChannelC : Z;
  GetInputHeightHi : Z;
  GetInputWidthWi : Z;
  GetOutputHeightHo : Z;
  GetOutputWidthWo : Z;
  GetFilterHeightY : Z;
  GetFilterWidthX : Z;
  GetAdjustedConvolutionStrideH : Z;
  GetAdjustedConvolutionStrideW : Z;
  GetAdjustedConvolutionDilationH : Z;
  GetAdjustedConvolutionDilationW : Z;
  GetInputLeftPadH : Z;
  GetInputLeftPadW : Z;
  GetAdjustedInputRightPadH : Z;
  GetAdjustedInputRightPadW : Z
}.

(** [ck::index_t] is a 32-bit [int]: the value an [int] holds for [v], its
    low 32 bits read as two's complement.  Values in [INT_MIN .. INT_MAX]
    are kept. *)
Definition index_t_of (v : Z) : Z :=
  let r := v mod 2 ^ 32 in
  if r <? 2 ^ 31 then r else r - 2 ^ 32.

(** [std::multiplies<>{}] on two [ck::index_t]: the product is taken in
    [int].  A product outside [INT_MIN .. INT_MAX] is a signed overflow;
    the compiled library keeps its low 32 bits, and so does the model. *)
Definition index_t_mul (a b : Z) : Z := index_t_of (a * b).

(** The running products of [std::partial_sum]: [acc] is the value written
    last. *)
Fixpoint partial_sum_from (acc : Z) (l : list Z) : list Z :=
  match l with
  | [] => []
  | x :: rest => index_t_mul acc x :: partial_sum_from (index_t_mul acc x) rest
  end.

(** [std::partial_sum(first, last, out, std::multiplies<>{})]: the first
    element is copied, every further one is the product of the one written
    before and the next input. *)
Definition partial_sum_multiplies (l : list Z) : list Z :=
  match l with
  | [] => []
  | x :: rest => x :: partial_sum_from x rest
  end.

(** The strides array after
    [std::partial_sum(rbegin(lens), std::prev(rend(lens)),
                      std::next(rbegin(strides)), std::multiplies<>{})]
    on [strides = {0, 0, 0, 0, 1}]: read backwards, the lengths without
    the first one are multiplied up and written backwards from the last
    but one position. *)
Definition packed_strides (lens : list Z) : list Z :=
  rev (1 :: partial_sum_multiplies (removelast (rev lens))).

(** [std::rotate(rbegin(a), std::next(rbegin(a)), std::next(rbegin(a), 3))]:
    a left rotation by one of the last three elements read backwards. *)
Definition rotate_last3 (a : list Z) : list Z :=
  match rev a with
  | x0 :: x1 :: x2 :: rest => rev (x1 :: x2 :: x0 :: rest)
  | _ => a
  end.

Record CKArgsGFwd : Type := {
  G : Z;
  N : Z;
  K : Z;
  C : Z;
  input : list Z;
  in_strides : list Z;
  output : list Z;
  out_strides : list Z;
  weight : list Z;
  wei_strides : list Z;
  strides : list Z;
  dilation : list Z;
  lPadding : list Z;
  rPadding : list Z
}.

(** The constructor [CKArgsGFwd(const ProblemDescription&)]. *)
Definition make_CKArgsGFwd (problem : ProblemDescription) : CKArgsGFwd :=
  let G := GetGroupCountG problem in
  let N := GetBatchN problem in
  let K := GetOutputChannelK problem in
  let C := GetInputChannelC problem in
  let input := [G; N; GetInputHeightHi problem; GetInputWidthWi problem; C] in
  let output := [G; N; GetOutputHeightHo problem; GetOutputWidthWo problem; K] in
  let weight := [G; K; GetFilterHeightY problem; GetFilterWidthX problem; C] in
  {| G := G; N := N; K := K; C := C;
     input := rotate_last3 input;
     in_strides := rotate_last3 (packed_strides input);
     output := rotate_last3 output;
     out_strides := rotate_last3 (packed_strides output);
     weight := rotate_last3 weight;
     wei_strides := rotate_last3 (packed_strides weight);
     strides := [GetAdjustedConvolutionStrideH problem;
                 GetAdjustedConvolutionStrideW problem];
     dilation := [GetAdjustedConvolutionDilationH problem;
                  GetAdjustedConvolutionDilationW problem];
     lPadding := [GetInputLeftPadH problem; GetInputLeftPadW problem];
     rPadding := [GetAdjustedInputRightPadH problem;
                  GetAdjustedInputRightPadW problem] |}.

(** The template argument [DataType] of the solver's helpers. *)
Inductive DataType : Set := ck_half_t | ck_float.

(** One instance of the backing library
    ([DeviceGroupedConvFwdMultipleD], composable kernel): its type string,
    its support query on the arguments [MakeArgumentPointer] packs, and
    the elapsed time its invoker reports for them.  Elapsed times are
    [float]s in the source; the solver only stores and compares them, and
    they are rationals here.  The time is what a run on the device took:
    an installation fixes it for each instance, and a run that takes
    another time is a run in another installation. *)
Record DeviceOp : Type := {
  GetTypeString : string;
  IsSupportedArgument : CKArgsGFwd -> bool;
  Run : CKArgsGFwd -> Q
}.

(** What surrounds the solver: the build configuration
    ([MIOPEN_BACKEND_HIP && MIOPEN_USE_COMPOSABLEKERNEL], [NDEBUG]), the
    two debug environment variables [IsApplicable] consults, and the
    instance factory [DeviceOpGFwdPtrs<DataType>::GetInstances()]. *)
Record Installation : Type := {
  MIOPEN_USE_COMPOSABLEKERNEL : bool;
  NDEBUG : bool;
  IsDisabled_MIOPEN_DEBUG_GROUP_CONV_IMPLICIT_GEMM_HIP_FWD_XDLOPS : bool;
  IsEnabled_MIOPEN_DEBUG_CONVOLUTION_DETERMINISTIC : bool;
  GetInstances : DataType -> list DeviceOp
}.

(** [assert(cond)]: checked unless [NDEBUG] is defined. *)
Definition assert_ (E : Installation) (cond : bool) : Outcome unit :=
  if NDEBUG E then Returns tt
  else if cond then Returns tt
  else AssertFails.

Definition empty {A : Type} (v : list A) : bool :=
  match v with [] => true | _ => false end.

(** The loop
    [for(; i < conv_ptrs.size(); i++) if(conv_ptrs[i]->GetTypeString() == id) break;]
    leaves in [i] the position of the first instance named [id], or
    [conv_ptrs.size()]. *)
Fixpoint find_kernel (conv_ptrs : list DeviceOp) (id : string) (i : Z) : Z :=
  match conv_ptrs with
  | [] => i
  | p :: rest =>
      if String.eqb (GetTypeString p) id then i
      else find_kernel rest id (i + 1)
  end.

End conv.

Module PerformanceConfigHipImplicitGemmGroupFwdXdlops.
Import conv.

(** The data members of the class (declared in solver.hpp): the position
    [int index], the identifier [std::string kernel_id] and the list
    [std::vector<std::string> valid_kernels]. *)
Record PerfConfig : Type := {
  index : Z;
  kernel_id : string;
  valid_kernels : list string
}.

(** A default-constructed configuration.  The constructors are declared in
    solver.hpp, not among the sources: position 0, an empty identifier and,
    as for every new vector, no kernels.  Only the empty [valid_kernels]
    matters below: [Init] overwrites the other two. *)
Definition default_constructed : PerfConfig :=
  {| index := 0; kernel_id := EmptyString; valid_kernels := [] |}.

Section WithInstallation.
Variable E : Installation.

(** The loop of [Init]: every instance that supports the arguments has
    its type string pushed back onto [valid_kernels]. *)
Fixpoint Init_loop (conv_ptrs : list DeviceOp) (args : CKArgsGFwd)
    (valid_kernels : list string) : list string :=
  match conv_ptrs with
  | [] => valid_kernels
  | p :: rest =>
      Init_loop rest args
        (if IsSupportedArgument p args
         then (valid_kernels ++ [GetTypeString p])%list
         else valid_kernels)
  end.

(** [Init<DataType>(problem)] *)
Definition Init (T : DataType) (problem : ProblemDescription) (this : PerfConfig)
    : Outcome PerfConfig :=
  let args := make_CKArgsGFwd problem in
  let conv_ptrs := GetInstances E T in
  _ ← assert_ E (negb (empty conv_ptrs));
  let valid_kernels' := Init_loop conv_ptrs args (valid_kernels this) in
  _ ← assert_ E (negb (empty valid_kernels'));
  id ← subscript valid_kernels' 0;
  Returns {| index := 0; kernel_id := id; valid_kernels := valid_kernels' |}.

(** [CheckIsSupportCKArgs<DataType>(problem)]; the position found among
    the instances is compared with [valid_kernels.size()], as in the
    source. *)
Definition CheckIsSupportCKArgs (T : DataType) (problem : ProblemDescription)
    (this : PerfConfig) : Outcome bool :=
  let args := make_CKArgsGFwd problem in
  let conv_ptrs := GetInstances E T in
  let i := find_kernel conv_ptrs (kernel_id this) 0 in
  if i =? Z.of_nat (length (valid_kernels this)) then Returns false
  else
    p ← subscript conv_ptrs i;
    Returns (IsSupportedArgument p args).

(** [HeuristicInit(problem)] *)
Definition HeuristicInit (problem : ProblemDescription) (this : PerfConfig)
    : Outcome PerfConfig :=
  if negb (MIOPEN_USE_COMPOSABLEKERNEL E) then Returns this
  else
    match GetInDataType problem with
    | miopenHalf => Init ck_half_t problem this
    | miopenFloat => Init ck_float problem this
    | miopenInt8 | miopenInt32 | miopenInt8x4 | miopenBFloat16 | miopenDouble =>
        Returns this
    end.

(** [SetNextValue(problem)]: the returned flag and the configuration
    after the call. *)
Definition SetNextValue (problem : ProblemDescription) (this : PerfConfig)
    : Outcome (bool * PerfConfig) :=
  if empty (valid_kernels this) then
    this' ← HeuristicInit problem this;
    _ ← assert_ E (negb (empty (valid_kernels this')));
    Returns (true, this')
  else if int_lt_size (index this + 1) (length (valid_kernels this)) then
    let index' := index this + 1 in
    id ← subscript (valid_kernels this) index';
    Returns (true, {| index := index'; kernel_id := id;
                      valid_kernels := valid_kernels this |})
  else Returns (false, this).

(** [IsValidValue()] *)
Definition IsValidValue (this : PerfConfig) : bool :=
  int_lt_size (index this) (length (valid_kernels this)).

(** [IsValid(problem)] *)
Definition IsValid (problem : ProblemDescription) (this : PerfConfig) : Outcome bool :=
  if negb (MIOPEN_USE_COMPOSABLEKERNEL E) then Returns false
  else
    match GetInDataType problem with
    | miopenHalf => CheckIsSupportCKArgs ck_half_t problem this
    | miopenFloat => CheckIsSupportCKArgs ck_float problem this
    | miopenInt8 | miopenInt32 | miopenInt8x4 | miopenBFloat16 | miopenDouble =>
        Returns false
    end.

(** Calling [SetNextValue] again and again, at most [calls] times: the
    identifiers the calls that returned true left in [kernel_id], in
    order, once a call has returned false; [None] when none of the
    [calls] calls did. *)
Fixpoint enumerate (calls : nat) (problem : ProblemDescription) (this : PerfConfig)
    : Outcome (option (list string)) :=
  match calls with
  | O => Returns None
  | S calls' =>
      '(more, this') ← SetNextValue problem this;
      if more : bool then
        rest ← enumerate calls' problem this';
        Returns (option_map (cons (kernel_id this')) rest)
      else Returns (Some [])
  end.

End WithInstallation.

(** [operator==] *)
Definition eq (this other : PerfConfig) : bool :=
  String.eqb (kernel_id this) (kernel_id other).

End PerformanceConfigHipImplicitGemmGroupFwdXdlops.

(** ** Queries a solver makes, and calls that record them

    The device-specific and library-specific queries of the applicability
    check are recorded in the order they are made, next to the outcome. *)

Inductive Query : Set :=
| QueryDeviceName
| QueryInstances (T : conv.DataType)
| QueryIsSupportedArgument (type_string : string).

Definition Traced (A : Type) : Type := (list Query * Outcome A)%type.

Definition Traced_ret {A : Type} (a : A) : Traced A := ([], Returns a).

Definition Traced_bind {A B : Type} (f : A -> Traced B) (m : Traced A) : Traced B :=
  match m with
  | (qs, Returns a) => let '(qs', r) := f a in ((qs ++ qs')%list, r)
  | (qs, Throws e) => (qs, Throws e)
  | (qs, AssertFails) => (qs, AssertFails)
  | (qs, Undefined) => (qs, Undefined)
  end.

#[global] Instance Traced_mbind : MBind Traced := @Traced_bind.
#[global] Instance Traced_mret : MRet Traced := @Traced_ret.

(** The answer [a] to the query [q]. *)
Definition query {A : Type} (q : Query) (a : A) : Traced A := ([q], Returns a).

(** A call that makes no query. *)
Definition quiet {A : Type} (m : Outcome A) : Traced A := ([], m).

Definition queries {A : Type} (m : Traced A) : list Query := fst m.
Definition outcome {A : Type} (m : Traced A) : Outcome A := snd m.

(** Modelled from the spec: the "device/stream handle" of section 6, on
    which a run "reports elapsed time"; handle.hpp is not among the
    sources.  The handle carries the device name, the profiling switch
    ([IsProfilingEnabled], [EnableProfiling]) and the kernel time
    ([GetKernelTime]) that [ResetKernelTime] clears and [AccumKernelTime]
    adds to. *)
Record Handle : Type := {
  GetDeviceName : string;
  IsProfilingEnabled : bool;
  GetKernelTime : Q
}.

(** Modelled from the spec: [EnableProfiling(enable)] of the handle. *)
Definition EnableProfiling (enable : bool) (handle : Handle) : Handle :=
  {| GetDeviceName := GetDeviceName handle;
     IsProfilingEnabled := enable;
     GetKernelTime := GetKernelTime handle |}.

(** Modelled from the spec: [ResetKernelTime()] of the handle. *)
Definition ResetKernelTime (handle : Handle) : Handle :=
  {| GetDeviceName := GetDeviceName handle;
     IsProfilingEnabled := IsProfilingEnabled handle;
     GetKernelTime := 0%Q |}.

(** Modelled from the spec: [AccumKernelTime(elapsed_time)] of the handle. *)
Definition AccumKernelTime (elapsed_time : Q) (handle : Handle) : Handle :=
  {| GetDeviceName := GetDeviceName handle;
     IsProfilingEnabled := IsProfilingEnabled handle;
     GetKernelTime := (GetKernelTime handle + elapsed_time)%Q |}.

(** What the solver reads from a [ConvolutionContext]: its stream. *)
Record ConvolutionContext : Type := {
  GetStream : Handle
}.

Module ConvHipImplicitGemmGroupFwdXdlops.
Import conv.
Import PerformanceConfigHipImplicitGemmGroupFwdXdlops.

Section WithInstallation.
Variable E : Installation.

(** The loop of [CheckCKApplicability]: true at the first instance that
    supports the arguments. *)
Fixpoint CheckCKApplicability_loop (conv_ptrs : list DeviceOp) (args : CKArgsGFwd)
    : Traced bool :=
  match conv_ptrs with
  | [] => mret false
  | p :: rest =>
      supported ← query (QueryIsSupportedArgument (GetTypeString p))
                        (IsSupportedArgument p args);
      if supported : bool then mret true
      else CheckCKApplicability_loop rest args
  end.

(** [CheckCKApplicability<DataType>(problem)] *)
Definition CheckCKApplicability (T : DataType) (problem : ProblemDescription)
    : Traced bool :=
  conv_ptrs ← query (QueryInstances T) (GetInstances E T);
  _ ← quiet (assert_ E (negb (empty conv_ptrs)));
  let args := make_CKArgsGFwd problem in
  if negb (forallb (fun x => x =? 1) (strides args)) then mret false
  else CheckCKApplicability_loop conv_ptrs args.

(** [RunCKSolution<DataType>(handle, primitive_parameters, problem, config)]:
    the handle after the run.  The tensors behind
    [primitive_parameters] and the lines written to [std::cout] are
    left out. *)
Definition RunCKSolution (T : DataType) (handle : Handle)
    (problem : ProblemDescription) (config : PerfConfig) : Outcome Handle :=
  let args := make_CKArgsGFwd problem in
  let conv_ptrs := GetInstances E T in
  let i := find_kernel conv_ptrs (kernel_id config) 0 in
  _ ← assert_ E (negb (i =? Z.of_nat (length conv_ptrs)));
  conv_ptr ← at_ conv_ptrs i;
  let enable_profiling := IsProfilingEnabled handle in
  let elapsed_time := Run conv_ptr args in
  if enable_profiling
  then Returns (AccumKernelTime elapsed_time (ResetKernelTime handle))
  else Returns handle.

(** [GetDefaultPerformanceConfig(problem)] *)
Definition GetDefaultPerformanceConfig (problem : ProblemDescription)
    : Outcome PerfConfig :=
  HeuristicInit E problem default_constructed.

(** [IsValidPerformanceConfig(problem, config)] *)
Definition IsValidPerformanceConfig (problem : ProblemDescription)
    (config : PerfConfig) : Outcome bool :=
  IsValid E problem config.

(** [IsApplicable(ctx, problem)] *)
Definition IsApplicable (ctx : ConvolutionContext) (problem : ProblemDescription)
    : Traced bool :=
  if negb (MIOPEN_USE_COMPOSABLEKERNEL E) then mret false
  else if IsDisabled_MIOPEN_DEBUG_GROUP_CONV_IMPLICIT_GEMM_HIP_FWD_XDLOPS E
  then mret false
  else if IsEnabled_MIOPEN_DEBUG_CONVOLUTION_DETERMINISTIC E then mret false
  else if bool_decide (GetInDataType problem ≠ GetWeightsDataType problem)
          || bool_decide (GetWeightsDataType problem ≠ GetOutDataType problem)
          || bool_decide (GetInDataType problem ≠ GetOutDataType problem)
  then mret false
  else if negb (IsForward (direction problem)) then mret false
  else if negb (Is2d problem) then mret false
  else if negb (IsLayoutNHWC problem) then mret false
  else
    arch ← query QueryDeviceName (GetDeviceName (GetStream ctx));
    if negb (String.eqb arch "gfx908" || String.eqb arch "gfx90a") then mret false
    else
      match GetInDataType problem with
      | miopenHalf => CheckCKApplicability ck_half_t problem
      | miopenFloat => CheckCKApplicability ck_float problem
      | miopenInt8 | miopenInt32 | miopenInt8x4 | miopenBFloat16 | miopenDouble =>
          mret false
      end.

(** The invoker [GetSolution(ctx, problem, config)] builds: what it does
    to the handle it is run on; [None] where the solution is empty. *)
Definition GetSolution (ctx : ConvolutionContext) (problem : ProblemDescription)
    (config : PerfConfig) : option (Handle -> Outcome Handle) :=
  if negb (MIOPEN_USE_COMPOSABLEKERNEL E) then None
  else
    Some (fun handle =>
      match GetInDataType problem with
      | miopenHalf => RunCKSolution ck_half_t handle problem config
      | miopenFloat => RunCKSolution ck_float handle problem config
      | miopenInt8 | miopenInt32 | miopenInt8x4 | miopenBFloat16 | miopenDouble =>
          Returns handle
      end).

(** *** The search

    [Search(ctx, problem, invoke_ctx)] hands over to [GenericSearch]
    (generic_search.hpp), which is modelled below from section 4.4 of
    the specification on top of the solver's own [SetNextValue],
    [IsValidPerformanceConfig] and [GetSolution]. *)

(** Modelled from the spec: the [SearchState] of section 3, "current
    candidate, an exhausted flag, and the best-so-far candidate with its
    measured cost". *)
Record SearchState : Type := {
  current : PerfConfig;
  exhausted : bool;
  best : option (PerfConfig * Q)
}.

(** Modelled from the spec: "strict less-than" on elapsed times. *)
Definition elapsed_lt (t best_time : Q) : bool :=
  match (t ?= best_time)%Q with
  | Lt => true
  | _ => false
  end.

(** Modelled from the spec: "compare to best-so-far using strict
    less-than (ties keep the earlier-found candidate)". *)
Definition improve (best : option (PerfConfig * Q)) (candidate : PerfConfig)
    (t : Q) : option (PerfConfig * Q) :=
  match best with
  | None => Some (candidate, t)
  | Some (winner, best_time) =>
      if elapsed_lt t best_time then Some (candidate, t)
      else Some (winner, best_time)
  end.

(** Modelled from the spec: a trial, "build and execute the plan,
    measure elapsed device time".  The plan is the invoker of
    [GetSolution]; the elapsed time is read back from the handle, where
    [RunCKSolution] leaves it while profiling is enabled.  A solution
    without invoker cannot be executed and yields no measurement. *)
Definition trial (ctx : ConvolutionContext) (problem : ProblemDescription)
    (candidate : PerfConfig) (handle : Handle) : Outcome (option Q * Handle) :=
  match GetSolution ctx problem candidate with
  | None => Returns (None, handle)
  | Some invoker =>
      handle' ← invoker (EnableProfiling true handle);
      Returns (Some (GetKernelTime handle'), handle')
  end.

(** Modelled from the spec: the work on one candidate in state
    [Iterating]: "skip immediately if IsValidConfiguration is false",
    otherwise run the trial and compare; then "request the next
    candidate via a deterministic advance operation (SetNextValue)",
    which leads to [Exhausted] when it signals no further candidate. *)
Definition visit (ctx : ConvolutionContext) (problem : ProblemDescription)
    (st : SearchState) (handle : Handle) : Outcome (SearchState * Handle) :=
  valid ← IsValidPerformanceConfig problem (current st);
  '(best', handle') ←
    (if valid : bool then
       '(measured, handle') ← trial ctx problem (current st) handle;
       match measured with
       | Some t => Returns (improve (best st) (current st) t, handle')
       | None => Returns (best st, handle')
       end
     else Returns (best st, handle));
  '(more, next) ← SetNextValue E problem (current st);
  Returns ({| current := next; exhausted := negb more; best := best' |}, handle').

(** Modelled from the spec: the walk "Iterating, ..., Exhausted", at most
    [visits] candidates from [st] on; [None] when the walk is not exhausted
    by then. *)
Fixpoint iterate (visits : nat) (ctx : ConvolutionContext)
    (problem : ProblemDescription) (st : SearchState) (handle : Handle)
    : Outcome (option (SearchState * Handle)) :=
  if exhausted st then Returns (Some (st, handle))
  else
    match visits with
    | O => Returns None
    | S visits' =>
        '(st', handle') ← visit ctx problem st handle;
        iterate visits' ctx problem st' handle'
    end.

(** Modelled from the spec: the search of section 4.4.  [Init] seeds the
    first candidate with [GetDefaultPerformanceConfig] and fails with
    [NoCandidates] when there is none; the walk visits one candidate per
    entry of [valid_kernels]; [Exhausted] returns the best candidate, or
    fails with [NoValidConfiguration].  The result carries the handle the
    trials leave behind. *)
Definition Search (ctx : ConvolutionContext) (problem : ProblemDescription)
    : Outcome (PerfConfig * Handle) :=
  first ← GetDefaultPerformanceConfig problem;
  if empty (valid_kernels first) then Throws NoCandidates
  else
    walk ← iterate (length (valid_kernels first)) ctx problem
             {| current := first; exhausted := false; best := None |}
             (GetStream ctx);
    match walk with
    | None => Undefined
    | Some (st, handle) =>
        match best st with
        | Some (winner, _) => Returns (winner, handle)
        | None => Throws NoValidConfiguration
        end
    end.

End WithInstallation.

End ConvHipImplicitGemmGroupFwdXdlops.

(** ** Preload coordination: [src/include/miopen/db_preload.hpp]

    The header declares the state and the entry points; their bodies
    (db_preload.cpp) are modelled from section 4.2 of the specification.
    Calls are taken one after the other, so the mutex has no counterpart. *)

Module db_preload.

(** The two stores: records by key. *)
Record RamDb : Type := { cache : gmap string string }.
Record ReadonlyRamDb : Type := { readonly_cache : gmap string string }.

(** [std::variant<std::unique_ptr<RamDb>, std::unique_ptr<ReadonlyRamDb>>] *)
Inductive PreloadedDb : Type :=
| Preloaded_RamDb (db : RamDb)
| Preloaded_ReadonlyRamDb (db : ReadonlyRamDb).

(** A [std::future<PreloadedDb>] is what the background load will hand
    over, or the failure it ends with. *)
Definition future : Type := Outcome PreloadedDb.

(** [std::function<PreloadedDb(const fs::path&)>] *)
Definition preloader : Type := string -> future.

(** [struct DbPreloadStates]: the futures by path and the one-shot flag,
    which starts out false. *)
Record DbPreloadStates : Type := {
  futures : gmap string future;
  started_loading : bool
}.

Definition constructed : DbPreloadStates :=
  {| futures := ∅; started_loading := false |}.

(** Modelled from the spec: [StartPreloadingDb(path, preloader, states)],
    whose body is not among the sources: "if no load for path is in
    flight or completed, begins one asynchronously and records its
    handle; if one already exists, this call is a no-op". *)
Definition StartPreloadingDb (path : string) (load : preloader)
    (states : DbPreloadStates) : DbPreloadStates :=
  match futures states !! path with
  | Some _ => states
  | None => {| futures := <[path := load path]> (futures states);
               started_loading := started_loading states |}
  end.

(** Modelled from the spec: the preload action, a [std::function<void()>]
    that "calls StartPreloading for each known table": the tables it
    starts. *)
Definition preload_action : Type := list (string * preloader).

(** Modelled from the spec: running the preload action. *)
Definition invoke (preload : preload_action) (states : DbPreloadStates)
    : DbPreloadStates :=
  foldl (fun s table => StartPreloadingDb (fst table) (snd table) s) states preload.

(** Modelled from the spec: [TryStartPreloadingDbs(preload, states)],
    whose body is not among the sources: it "runs preloadAction at most
    once per process, guarded by the one-shot started flag".  The flag is
    exchanged for true; the action runs when the flag was false.  The
    result tells whether the action was invoked. *)
Definition TryStartPreloadingDbs (preload : preload_action)
    (states : DbPreloadStates) : bool * DbPreloadStates :=
  if started_loading states then (false, states)
  else (true, invoke preload {| futures := futures states;
                                started_loading := true |}).

(** Modelled from the spec: [GetPreloadedRamDb] and
    [GetPreloadedReadonlyRamDb], whose bodies are not among the sources:
    the caller joins the load of [path] and takes its result, "the store
    is removed from the shared map once claimed"; [None] when no load was
    started for [path], and the caller loads by itself. *)
Definition GetPreloadedDb (path : string) (states : DbPreloadStates)
    : option future * DbPreloadStates :=
  (futures states !! path,
   {| futures := delete path (futures states);
      started_loading := started_loading states |}).

(** The calls a client can make on one [DbPreloadStates], after the
    entry points the header declares. *)
Inductive call : Type :=
| call_TryStartPreloadingDbs (preload : preload_action)
| call_StartPreloadingDb (path : string) (load : preloader)
| call_GetPreloadedDb (path : string).

(** One call: the number of times a preload action was invoked by it, and
    the state it leaves. *)
Definition perform (c : call) (states : DbPreloadStates) : nat * DbPreloadStates :=
  match c with
  | call_TryStartPreloadingDbs preload =>
      let '(invoked, states') := TryStartPreloadingDbs preload states in
      ((if invoked : bool then 1 else 0)%nat, states')
  | call_StartPreloadingDb path load => (0%nat, StartPreloadingDb path load states)
  | call_GetPreloadedDb path => (0%nat, snd (GetPreloadedDb path states))
  end.

(** A sequence of calls: the total number of invocations, and the final
    state. *)
Fixpoint perform_all (calls : list call) (states : DbPreloadStates)
    : nat * DbPreloadStates :=
  match calls with
  | [] => (0%nat, states)
  | c :: rest =>
      let '(n, states') := perform c states in
      let '(m, states'') := perform_all rest states' in
      ((n + m)%nat, states'')
  end.

End db_preload.

(** The generic structural checks of [IsApplicable]: the three data types
    agree, the conv.direction is forward, the problem is 2-d and its layout is
    NHWC. *)
Definition structural_checks (problem : conv.ProblemDescription) : bool :=
  negb (bool_decide (conv.GetInDataType problem ≠ conv.GetWeightsDataType problem)
        || bool_decide (conv.GetWeightsDataType problem ≠ conv.GetOutDataType problem)
        || bool_decide (conv.GetInDataType problem ≠ conv.GetOutDataType problem))
  && conv.IsForward (conv.direction problem) && conv.Is2d problem && conv.IsLayoutNHWC problem.

(** ** The launch geometry of the cat solver:
       [src/solver/cat/forward_cat.cpp] *)

Module CatForward.

(** [static_cast<int>] of a [size_t]: the low 32 bits, read as a
    two's-complement [int]. *)
Definition static_cast_int (v : Z) : Z :=
  let r := v mod 2 ^ 32 in
  if r <? 2 ^ 31 then r else r - 2 ^ 32.

(** [inline size_t AlignUp(size_t num, size_t align)]: the sum and the
    product wrap modulo [2 ^ 64]; dividing by an [align] of 0 is undefined. *)
Definition AlignUp (num align : Z) : Outcome Z :=
  if align =? 0 then Undefined
  else Returns (((num + align - 1) mod 2 ^ 64 / align * align) mod 2 ^ 64).

(** What [GetSolution] reads of the tensor descriptors (declared in
    cat/problem_description.hpp and tensor.hpp): the dimension to
    concatenate along, lengths, strides and type of the output, and the
    lengths of input [i], [problem.GetXDesc(i).GetLengths()]. *)
Record TensorShapes : Type := {
  GetDim : Z;
  GetYDesc_GetType : miopenDataType_t;
  GetYDesc_GetLengths : list Z;
  GetYDesc_GetStrides : list Z;
  GetXDesc_GetLengths : Z -> list Z
}.

(** The loop
    [for(int i = 0; i < xCount; i++) x_dim_size_max = std::max(x_dim_size_max, xdims[dim]);]
    with [n] rounds to go from [i] on. *)
Fixpoint x_dim_size_max_loop (n : nat) (i : Z) (shapes : TensorShapes)
    (x_dim_size_max : Z) : Outcome Z :=
  match n with
  | O => Returns x_dim_size_max
  | S n' =>
      x ← subscript (GetXDesc_GetLengths shapes i) (GetDim shapes);
      x_dim_size_max_loop n' (i + 1) shapes (Z.max x_dim_size_max x)
  end.

(** [std::accumulate(ydims.begin(), ydims.begin() + dim, 1ULL,
                     std::multiplies<size_t>())]: the range must lie within
    the vector. *)
Definition outer_size_of (ydims : list Z) (dim : Z) : Outcome Z :=
  if (dim <? 0) || (Z.of_nat (length ydims) <? dim) then Undefined
  else Returns (fold_left (fun acc len => (acc * len) mod 2 ^ 64)
                  (take (Z.to_nat dim) ydims) 1).

(** The work sizes of the kernel, local ([l_wk]) and global ([g_wk]). *)
Record WorkSizes : Type := {
  l_wk : list Z;
  g_wk : list Z
}.

(** The arithmetic of [GetSolution] between the two loops and the build
    parameters: from the largest input length along [dim], the output
    stride along [dim], the product of the leading output lengths and the
    number of compute units to the work sizes. *)
Definition work_sizes (x_dim_size_max stride outer_size numCu : Z) : Outcome WorkSizes :=
  let product := (x_dim_size_max * stride) mod 2 ^ 64 in
  let xlocalsize := size_t_of_int (Z.min (static_cast_int product) cat.LOCAL_SIZE) in
  if xlocalsize =? 0 then Undefined
  else
    let ylocalsize :=
      size_t_of_int (Z.max (static_cast_int (cat.LOCAL_SIZE / xlocalsize)) 1) in
    let zlocalsize := 1 in
    ygridsize ← AlignUp outer_size ylocalsize;
    if ygridsize / ylocalsize =? 0 then Undefined
    else
      let xgridsize :=
        (size_t_of_int
           (Z.max (static_cast_int ((numCu * 8) mod 2 ^ 64 / (ygridsize / ylocalsize))) 1)
         * xlocalsize) mod 2 ^ 64 in
      let zgridsize := 1 in
      aligned ← AlignUp product xlocalsize;
      let xgridsize := Z.min xgridsize aligned in
      Returns {| l_wk := [xlocalsize; ylocalsize; zlocalsize];
                 g_wk := [xgridsize; ygridsize; zgridsize] |}.

(** The [KernelBuildParameters] of [GetSolution]: one define per floating
    type, set to 1 for the type of the output. *)
Definition build_params (dtype : miopenDataType_t) : list (string * Z) :=
  [("MIOPEN_USE_FP16", if bool_decide (dtype = miopenHalf) then 1 else 0);
   ("MIOPEN_USE_FP32", if bool_decide (dtype = miopenFloat) then 1 else 0);
   ("MIOPEN_USE_FP64", if bool_decide (dtype = miopenDouble) then 1 else 0);
   ("MIOPEN_USE_BFP16", if bool_decide (dtype = miopenBFloat16) then 1 else 0)].

(** The [KernelInfo] that [GetSolution] pushes onto
    [result.construction_params]. *)
Record KernelInfo : Type := {
  comp_options : list (string * Z);
  work : WorkSizes;
  kernel : cat.KernelInfo
}.

(** The statements of [GetSolution] in front of the build parameters: the
    stride of the output along [dim], the loop over the inputs, the outer
    size and the work sizes, with the number of compute units
    [context.GetStream().GetMaxComputeUnits()] for the context.  Each of
    them can leave defined behaviour: a subscript out of range, a division
    by zero. *)
Definition launch_geometry (GetMaxComputeUnits : Z) (problem : cat.ProblemDescription)
    (shapes : TensorShapes) : Outcome WorkSizes :=
  let ydims := GetYDesc_GetLengths shapes in
  let dim := GetDim shapes in
  stride ← subscript (GetYDesc_GetStrides shapes) dim;
  let xCount := cat.GetXCount problem in
  x_dim_size_max ← x_dim_size_max_loop (Z.to_nat xCount) 0 shapes 0;
  let numCu := GetMaxComputeUnits in
  outer_size ← outer_size_of ydims dim;
  work_sizes x_dim_size_max stride outer_size numCu.

(** [CatForward::GetSolution(context, problem)]: the kernel to build, with
    its build parameters, work sizes, file and name.  The launch geometry
    comes first, then the build parameters, then the doubling loop and the
    [switch] that names the kernel. *)
Definition GetSolution (GetMaxComputeUnits : Z) (problem : cat.ProblemDescription)
    (shapes : TensorShapes) : Outcome KernelInfo :=
  let dtype := GetYDesc_GetType shapes in
  let xCount := cat.GetXCount problem in
  sizes ← launch_geometry GetMaxComputeUnits problem shapes;
  fusion_size ← cat.fusion_loop 2 xCount;
  Returns {| comp_options := build_params dtype;
             work := sizes;
             kernel := {| cat.kernel_file := "MIOpenCat.cpp";
                          cat.kernel_name := cat.kernel_name_of fusion_size |} |}.

End CatForward.

(** ** Sample inputs *)

Module samples.
Import conv.
Import PerformanceConfigHipImplicitGemmGroupFwdXdlops.

(** Nine packed tensors of one type, concatenated into two million
    elements. *)
Definition nine_tensors : cat.ProblemDescription :=
  {| cat.GetXCount := 9;
     cat.IsSameType := true;
     cat.IsRightDim := true;
     cat.IsRightLength := true;
     cat.IsAllPacked := true;
     cat.GetYDesc_GetElementSize := 2000000 |}.

Definition three_tensors : cat.ProblemDescription :=
  {| cat.GetXCount := 3;
     cat.IsSameType := true;
     cat.IsRightDim := true;
     cat.IsRightLength := true;
     cat.IsAllPacked := true;
     cat.GetYDesc_GetElementSize := 2000000 |}.

(** A forward 2-d NHWC convolution, 3x3 filter, unit strides, on tensors of
    type [dt]. *)
Definition conv3x3 (dt : miopenDataType_t) : ProblemDescription :=
  {| GetInDataType := dt;
     GetWeightsDataType := dt;
     GetOutDataType := dt;
     direction := Forward;
     Is2d := true;
     IsLayoutNHWC := true;
     GetGroupCountG := 2;
     GetBatchN := 4;
     GetOutputChannelK := 16;
     GetInputChannelC := 8;
     GetInputHeightHi := 28;
     GetInputWidthWi := 28;
     GetOutputHeightHo := 28;
     GetOutputWidthWo := 28;
     GetFilterHeightY := 3;
     GetFilterWidthX := 3;
     GetAdjustedConvolutionStrideH := 1;
     GetAdjustedConvolutionStrideW := 1;
     GetAdjustedConvolutionDilationH := 1;
     GetAdjustedConvolutionDilationW := 1;
     GetInputLeftPadH := 1;
     GetInputLeftPadW := 1;
     GetAdjustedInputRightPadH := 1;
     GetAdjustedInputRightPadW := 1 |}.

(** The same convolution with its input typed differently from its
    weights. *)
Definition mixed_types : ProblemDescription :=
  {| GetInDataType := miopenHalf;
     GetWeightsDataType := miopenFloat;
     GetOutDataType := miopenFloat;
     direction := Forward;
     Is2d := true;
     IsLayoutNHWC := true;
     GetGroupCountG := 2;
     GetBatchN := 4;
     GetOutputChannelK := 16;
     GetInputChannelC := 8;
     GetInputHeightHi := 28;
     GetInputWidthWi := 28;
     GetOutputHeightHo := 28;
     GetOutputWidthWo := 28;
     GetFilterHeightY := 3;
     GetFilterWidthX := 3;
     GetAdjustedConvolutionStrideH := 1;
     GetAdjustedConvolutionStrideW := 1;
     GetAdjustedConvolutionDilationH := 1;
     GetAdjustedConvolutionDilationW := 1;
     GetInputLeftPadH := 1;
     GetInputLeftPadW := 1;
     GetAdjustedInputRightPadH := 1;
     GetAdjustedInputRightPadW := 1 |}.

(** Three instances: one that wants at least 64 input channels, and two
    that take any argument. *)
Definition three_instances (T : DataType) : list DeviceOp :=
  [ {| GetTypeString := "DeviceGroupedConvFwdMultipleD_Xdl_CShuffle<256, 256, 128, 32>";
       IsSupportedArgument := fun args => 64 <=? C args;
       Run := fun _ => (3 # 10)%Q |};
    {| GetTypeString := "DeviceGroupedConvFwdMultipleD_Xdl_CShuffle<128, 128, 64, 32>";
       IsSupportedArgument := fun _ => true;
       Run := fun _ => (2 # 10)%Q |};
    {| GetTypeString := "DeviceGroupedConvFwdMultipleD_Xdl_CShuffle<64, 64, 32, 32>";
       IsSupportedArgument := fun _ => true;
       Run := fun _ => (2 # 10)%Q |} ].

(** One instance, which wants at least 64 input channels. *)
Definition one_instance (T : DataType) : list DeviceOp :=
  [ {| GetTypeString := "DeviceGroupedConvFwdMultipleD_Xdl_CShuffle<256, 256, 128, 32>";
       IsSupportedArgument := fun args => 64 <=? C args;
       Run := fun _ => (3 # 10)%Q |} ].

Definition installation (ndebug : bool) (instances : DataType -> list DeviceOp)
    : Installation :=
  {| MIOPEN_USE_COMPOSABLEKERNEL := true;
     NDEBUG := ndebug;
     IsDisabled_MIOPEN_DEBUG_GROUP_CONV_IMPLICIT_GEMM_HIP_FWD_XDLOPS := false;
     IsEnabled_MIOPEN_DEBUG_CONVOLUTION_DETERMINISTIC := false;
     GetInstances := instances |}.

Definition gfx90a : ConvolutionContext :=
  {| GetStream := {| GetDeviceName := "gfx90a";
                     IsProfilingEnabled := false;
                     GetKernelTime := 0%Q |} |}.

End samples.

(** ** Products and offsets, to state what lengths and strides mean *)

(** The number of elements of a tensor of lengths [lens]. *)
Definition product (lens : list Z) : Z := fold_right Z.mul 1 lens.

(** The offset of the element at [index] in a tensor of strides
    [strides]. *)
Definition element_offset (index strides : list Z) : Z :=
  fold_right Z.add 0 (zip_with Z.mul index strides).

(** Lengths whose packed strides fit [ck::index_t]: every length is an
    [int] of at least 1, and the lengths behind the first one multiply to
    at most [INT_MAX]. *)
Definition strides_fit (lens : list Z) : Prop :=
  Forall (fun len => 1 <= len <= INT_MAX) lens /\ product (tail lens) <= INT_MAX.

(** ** The candidates of a search and what is measured for them *)

(** The configuration that is current at position [i] of the enumeration
    [SetNextValue] runs through from [first] on: it stands on entry [i] of
    [valid_kernels], which is [id]. *)
Definition candidate (first : PerformanceConfigHipImplicitGemmGroupFwdXdlops.PerfConfig)
    (i : nat) (id : string) : PerformanceConfigHipImplicitGemmGroupFwdXdlops.PerfConfig :=
  {| PerformanceConfigHipImplicitGemmGroupFwdXdlops.index := Z.of_nat i;
     PerformanceConfigHipImplicitGemmGroupFwdXdlops.kernel_id := id;
     PerformanceConfigHipImplicitGemmGroupFwdXdlops.valid_kernels :=
       PerformanceConfigHipImplicitGemmGroupFwdXdlops.valid_kernels first |}.

(** The search measures [t] for [config]: the configuration is valid, and
    its trial returns the elapsed time [t], on whatever handle it runs. *)
Definition measures (E : conv.Installation) (ctx : ConvolutionContext)
    (problem : conv.ProblemDescription)
    (config : PerformanceConfigHipImplicitGemmGroupFwdXdlops.PerfConfig) (t : Q) : Prop :=
  PerformanceConfigHipImplicitGemmGroupFwdXdlops.IsValid E problem config = Returns true
  /\ forall handle : Handle,
       Outcome_map fst (ConvHipImplicitGemmGroupFwdXdlops.trial E ctx problem config handle)
       = Returns (Some t).

(** What the best-so-far of a search is after the first [n] candidates:
    nothing, when none of them is valid; otherwise a valid candidate among
    them with the time measured for it, which no valid candidate among them
    beats and every valid candidate in front of it exceeds. *)
Definition first_fastest (E : conv.Installation) (ctx : ConvolutionContext)
    (problem : conv.ProblemDescription)
    (first : PerformanceConfigHipImplicitGemmGroupFwdXdlops.PerfConfig) (n : nat)
    (best : option (PerformanceConfigHipImplicitGemmGroupFwdXdlops.PerfConfig * Q))
    : Prop :=
  match best with
  | None =>
      forall (i : nat) (id : string),
        (i < n)%nat ->
        PerformanceConfigHipImplicitGemmGroupFwdXdlops.valid_kernels first !! i = Some id ->
        PerformanceConfigHipImplicitGemmGroupFwdXdlops.IsValid E problem
          (candidate first i id) = Returns false
  | Some (winner, t) =>
      exists (j : nat) (id : string),
        (j < n)%nat
        /\ PerformanceConfigHipImplicitGemmGroupFwdXdlops.valid_kernels first !! j = Some id
        /\ winner = candidate first j id
        /\ measures E ctx problem winner t
        /\ forall (i : nat) (id' : string) (t' : Q),
             (i < n)%nat ->
             PerformanceConfigHipImplicitGemmGroupFwdXdlops.valid_kernels first !! i
             = Some id' ->
             measures E ctx problem (candidate first i id') t' ->
             (t <= t')%Q /\ ((i < j)%nat -> (t < t')%Q)
  end.

(** Two instances agree in what a search reads of them: the type string,
    the answer to the support query on the arguments of [problem], and the
    elapsed time reported for them. *)
Definition agree_on (problem : conv.ProblemDescription) (p p' : conv.DeviceOp) : Prop :=
  conv.GetTypeString p = conv.GetTypeString p'
  /\ conv.IsSupportedArgument p (conv.make_CKArgsGFwd problem)
     = conv.IsSupportedArgument p' (conv.make_CKArgsGFwd problem)
  /\ conv.Run p (conv.make_CKArgsGFwd problem) = conv.Run p' (conv.make_CKArgsGFwd problem).

(** Two installations that offer a search the same candidates in the same
    order: the same build, and, instance by instance, the same type strings
    and the same answers to the support query on the arguments of
    [problem]. *)
Definition same_candidates (E E' : conv.Installation) (problem : conv.ProblemDescription)
    : Prop :=
  conv.MIOPEN_USE_COMPOSABLEKERNEL E = conv.MIOPEN_USE_COMPOSABLEKERNEL E'
  /\ conv.NDEBUG E = conv.NDEBUG E'
  /\ forall T : conv.DataType,
       Forall2 (fun p p' =>
                  conv.GetTypeString p = conv.GetTypeString p'
                  /\ conv.IsSupportedArgument p (conv.make_CKArgsGFwd problem)
                     = conv.IsSupportedArgument p' (conv.make_CKArgsGFwd problem))
         (conv.GetInstances E T) (conv.GetInstances E' T).

(** The instances of the two installations report the same elapsed time
    for the arguments of [problem].  The elapsed time is what one run on
    the device took: nothing in the solver makes two runs take the same
    time. *)
Definition same_elapsed_times (E E' : conv.Installation)
    (problem : conv.ProblemDescription) : Prop :=
  forall T : conv.DataType,
    Forall2 (fun p p' =>
               conv.Run p (conv.make_CKArgsGFwd problem)
               = conv.Run p' (conv.make_CKArgsGFwd problem))
      (conv.GetInstances E T) (conv.GetInstances E' T).

(** ** More sample inputs *)

Module more_samples.

(** Three tensors of lengths 4x2x5, 4x3x5 and 4x4x5 concatenated along
    dimension 1 into a packed 4x9x5 tensor. *)
Definition shapes : CatForward.TensorShapes :=
  {| CatForward.GetDim := 1;
     CatForward.GetYDesc_GetType := miopenFloat;
     CatForward.GetYDesc_GetLengths := [4; 9; 5];
     CatForward.GetYDesc_GetStrides := [45; 5; 1];
     CatForward.GetXDesc_GetLengths :=
       fun i => if i =? 0 then [4; 2; 5] else if i =? 1 then [4; 3; 5] else [4; 4; 5] |}.

Definition lengths_along_dim (i : Z) : Z :=
  if i =? 0 then 2 else if i =? 1 then 3 else 4.

Definition no_tensors : cat.ProblemDescription :=
  {| cat.GetXCount := 0;
     cat.IsSameType := true;
     cat.IsRightDim := true;
     cat.IsRightLength := true;
     cat.IsAllPacked := true;
     cat.GetYDesc_GetElementSize := 2000000 |}.

(** A handle with profiling enabled and a kernel time left by an earlier
    run. *)
Definition profiling_handle : Handle :=
  {| GetDeviceName := "gfx90a"; IsProfilingEnabled := true; GetKernelTime := (7 # 10)%Q |}.

(** The configuration [Init] leaves for the sample convolution and the three
    sample instances. *)
Definition first_config : PerformanceConfigHipImplicitGemmGroupFwdXdlops.PerfConfig :=
  {| PerformanceConfigHipImplicitGemmGroupFwdXdlops.index := 0;
     PerformanceConfigHipImplicitGemmGroupFwdXdlops.kernel_id :=
       "DeviceGroupedConvFwdMultipleD_Xdl_CShuffle<128, 128, 64, 32>";
     PerformanceConfigHipImplicitGemmGroupFwdXdlops.valid_kernels :=
       ["DeviceGroupedConvFwdMultipleD_Xdl_CShuffle<128, 128, 64, 32>";
        "DeviceGroupedConvFwdMultipleD_Xdl_CShuffle<64, 64, 32, 32>"] |}.

(** The configuration after one more step of [SetNextValue]. *)
Definition second_config : PerformanceConfigHipImplicitGemmGroupFwdXdlops.PerfConfig :=
  {| PerformanceConfigHipImplicitGemmGroupFwdXdlops.index := 1;
     PerformanceConfigHipImplicitGemmGroupFwdXdlops.kernel_id :=
       "DeviceGroupedConvFwdMultipleD_Xdl_CShuffle<64, 64, 32, 32>";
     PerformanceConfigHipImplicitGemmGroupFwdXdlops.valid_kernels :=
       ["DeviceGroupedConvFwdMultipleD_Xdl_CShuffle<128, 128, 64, 32>";
        "DeviceGroupedConvFwdMultipleD_Xdl_CShuffle<64, 64, 32, 32>"] |}.

(** A configuration as read back from a record: a kernel identifier and
    nothing else. *)
Definition stored_config (id : string)
    : PerformanceConfigHipImplicitGemmGroupFwdXdlops.PerfConfig :=
  {| PerformanceConfigHipImplicitGemmGroupFwdXdlops.index := 0;
     PerformanceConfigHipImplicitGemmGroupFwdXdlops.kernel_id := id;
     PerformanceConfigHipImplicitGemmGroupFwdXdlops.valid_kernels := [] |}.

(** A device the solver has no kernels for. *)
Definition gfx1030 : ConvolutionContext :=
  {| GetStream := {| GetDeviceName := "gfx1030";
                     IsProfilingEnabled := false;
                     GetKernelTime := 0%Q |} |}.

(** The sample convolution with a stride of 2 along the height. *)
Definition strided : conv.ProblemDescription :=
  {| conv.GetInDataType := miopenHalf;
     conv.GetWeightsDataType := miopenHalf;
     conv.GetOutDataType := miopenHalf;
     conv.direction := conv.Forward;
     conv.Is2d := true;
     conv.IsLayoutNHWC := true;
     conv.GetGroupCountG := 2;
     conv.GetBatchN := 4;
     conv.GetOutputChannelK := 16;
     conv.GetInputChannelC := 8;
     conv.GetInputHeightHi := 28;
     conv.GetInputWidthWi := 28;
     conv.GetOutputHeightHo := 14;
     conv.GetOutputWidthWo := 28;
     conv.GetFilterHeightY := 3;
     conv.GetFilterWidthX := 3;
     conv.GetAdjustedConvolutionStrideH := 2;
     conv.GetAdjustedConvolutionStrideW := 1;
     conv.GetAdjustedConvolutionDilationH := 1;
     conv.GetAdjustedConvolutionDilationW := 1;
     conv.GetInputLeftPadH := 1;
     conv.GetInputLeftPadW := 1;
     conv.GetAdjustedInputRightPadH := 1;
     conv.GetAdjustedInputRightPadW := 1 |}.

(** Two packed tensors of [2 ^ 32] elements each, concatenated into one of
    [2 ^ 33]. *)
Definition two_tensors : cat.ProblemDescription :=
  {| cat.GetXCount := 2;
     cat.IsSameType := true;
     cat.IsRightDim := true;
     cat.IsRightLength := true;
     cat.IsAllPacked := true;
     cat.GetYDesc_GetElementSize := 2 ^ 33 |}.

Definition long_shapes : CatForward.TensorShapes :=
  {| CatForward.GetDim := 0;
     CatForward.GetYDesc_GetType := miopenHalf;
     CatForward.GetYDesc_GetLengths := [2 ^ 33];
     CatForward.GetYDesc_GetStrides := [1];
     CatForward.GetXDesc_GetLengths := fun _ => [2 ^ 32] |}.

(** The work sizes of the three sample tensors on a device of 120 compute
    units. *)
Definition sample_work_sizes : CatForward.WorkSizes :=
  {| CatForward.l_wk := [20; 12; 1]; CatForward.g_wk := [20; 12; 1] |}.

(** Three instances for which the applicability check, the enumeration and
    the validity check agree: two that take any argument and report the
    elapsed times [t1] and [t2], and one that wants at least 64 input
    channels. *)
Definition timed_instances (t1 t2 : Q) (T : conv.DataType) : list conv.DeviceOp :=
  [ {| conv.GetTypeString := "DeviceGroupedConvFwdMultipleD_Xdl_CShuffle<128, 128, 64, 32>";
       conv.IsSupportedArgument := fun _ => true;
       conv.Run := fun _ => t1 |};
    {| conv.GetTypeString := "DeviceGroupedConvFwdMultipleD_Xdl_CShuffle<64, 64, 32, 32>";
       conv.IsSupportedArgument := fun _ => true;
       conv.Run := fun _ => t2 |};
    {| conv.GetTypeString := "DeviceGroupedConvFwdMultipleD_Xdl_CShuffle<256, 256, 128, 32>";
       conv.IsSupportedArgument := fun args => 64 <=? conv.C args;
       conv.Run := fun _ => (1 # 10)%Q |} ].

(** The configuration that stands on entry [i], named [id], of the two
    kernels enumerated from the timed instances. *)
Definition timed_config (i : Z) (id : string)
    : PerformanceConfigHipImplicitGemmGroupFwdXdlops.PerfConfig :=
  {| PerformanceConfigHipImplicitGemmGroupFwdXdlops.index := i;
     PerformanceConfigHipImplicitGemmGroupFwdXdlops.kernel_id := id;
     PerformanceConfigHipImplicitGemmGroupFwdXdlops.valid_kernels :=
       ["DeviceGroupedConvFwdMultipleD_Xdl_CShuffle<128, 128, 64, 32>";
        "DeviceGroupedConvFwdMultipleD_Xdl_CShuffle<64, 64, 32, 32>"] |}.

(** A convolution over a batch of 256 images of 224 by 224 pixels and 256
    channels: more than [INT_MAX] input elements. *)
Definition large_batch : list Z := [1; 256; 224; 224; 256].

End more_samples.

(** * Properties *)

(** One step of a sequence of calls whose first outcome is known. *)
Ltac run_bind := cbn [mbind Outcome_mbind Outcome_bind].

(** ** The cat solver *)

Lemma fusion_loop_unfold (fusion_size xCount : Z) :
  cat.fusion_loop fusion_size xCount =
  if fusion_size <? xCount then
    if fusion_size <=? 0 then Undefined
    else if INT_MAX <? fusion_size * 2 then Undefined
    else cat.fusion_loop (fusion_size * 2) xCount
  else Returns fusion_size.
Proof.
  rewrite cat.fusion_loop_equation_1.
  destruct (Z_lt_dec fusion_size xCount) as [Hlt | Hge]; simpl.
  - rewrite (proj2 (Z.ltb_lt _ _) Hlt).
    destruct (Z_le_dec fusion_size 0) as [Hle | Hgt]; simpl.
    + now rewrite (proj2 (Z.leb_le _ _) Hle).
    + rewrite (proj2 (Z.leb_gt _ _)) by lia.
      destruct (Z_lt_dec INT_MAX (fusion_size * 2)) as [Hov | Hok]; simpl.
      * now rewrite (proj2 (Z.ltb_lt _ _) Hov).
      * now rewrite (proj2 (Z.ltb_ge _ _)) by lia.
  - now rewrite (proj2 (Z.ltb_ge _ _)) by lia.
Qed.

(** A power of two above [2 ^ j] is at least [2 ^ (j + 1)]. *)
Lemma next_power_of_two (j k m : Z) :
  0 <= j -> m = 2 ^ k -> 2 ^ j < m -> 2 ^ (j + 1) <= m.
Proof.
  intros Hj -> Hlt.
  assert (Hk : j < k).
  { destruct (Z_lt_dec j k) as [|Hge]; [assumption|].
    exfalso. assert (2 ^ k <= 2 ^ j) by (destruct (Z_lt_dec k 0);
      [rewrite Z.pow_neg_r by lia; apply Z.pow_nonneg; lia
      | apply Z.pow_le_mono_r; lia]).
    lia. }
  apply Z.pow_le_mono_r; lia.
Qed.

(** C1, as amended: for every execution context and every cat problem,
    [CatForward::IsApplicable] returns without throwing exactly when the
    tensor count is at most [MAX_TENSOR_X_COUNT]: its result is then true if
    all the remaining checks pass and false as soon as one of them fails.
    Above the limit it throws [miopenStatusBadParm]. *)
Theorem cat_IsApplicable_outcome {ExecutionContext : Type} (context : ExecutionContext)
    (problem : cat.ProblemDescription) :
  cat.IsApplicable context problem =
  if cat.MAX_TENSOR_X_COUNT <? cat.GetXCount problem
  then Throws (miopen_Exception miopenStatusBadParm
                 "CatForward: Exceeded the number of tensors.")
  else Returns (cat.IsSameType problem && cat.IsRightDim problem
                && cat.IsRightLength problem && cat.IsAllPacked problem
                && cat.IsImprovementOverROCm problem).
Proof.
  unfold cat.IsApplicable, cat.IsUnderXCountLimit, MIOPEN_THROW.
  destruct (cat.MAX_TENSOR_X_COUNT <? cat.GetXCount problem); [reflexivity|].
  simpl.
  destruct (cat.IsSameType problem), (cat.IsRightDim problem),
    (cat.IsRightLength problem), (cat.IsAllPacked problem),
    (cat.IsImprovementOverROCm problem); reflexivity.
Qed.

(** C1, as stated, fails: on a problem of nine tensors the applicability
    check leaves by an exception instead of returning false. *)
Lemma cat_IsApplicable_throws_on_nine_tensors :
  cat.IsApplicable tt samples.nine_tensors =
    Throws (miopen_Exception miopenStatusBadParm
              "CatForward: Exceeded the number of tensors.")
  /\ cat.IsApplicable tt samples.nine_tensors <> Returns false
  /\ throws (cat.IsApplicable tt samples.nine_tensors) = true.
Proof. repeat split. discriminate. Qed.

(** C8, as amended: for a tensor count between 1 and 8, the doubling loop of
    [CatForward::GetSolution] stops at the least power of two that is at
    least the tensor count and at least 2, and on every problem for which
    the launch geometry computed in front of it is defined, [GetSolution]
    returns, with those work sizes, the kernel named after that fusion
    width: Cat2FwdPacked up to 2 tensors, Cat4FwdPacked for 3 and 4,
    Cat8FwdPacked for 5 to 8. *)
Theorem cat_GetSolution_kernel_name (GetMaxComputeUnits : Z)
    (problem : cat.ProblemDescription) (shapes : CatForward.TensorShapes)
    (sizes : CatForward.WorkSizes) :
  1 <= cat.GetXCount problem <= 8 ->
  CatForward.launch_geometry GetMaxComputeUnits problem shapes = Returns sizes ->
  exists fusion_size : Z,
    cat.fusion_loop 2 (cat.GetXCount problem) = Returns fusion_size
    /\ (exists k : Z, fusion_size = 2 ^ k)
    /\ cat.GetXCount problem <= fusion_size
    /\ 2 <= fusion_size
    /\ (forall m k : Z, m = 2 ^ k -> cat.GetXCount problem <= m -> 2 <= m ->
        fusion_size <= m)
    /\ CatForward.GetSolution GetMaxComputeUnits problem shapes =
       Returns {| CatForward.comp_options :=
                    CatForward.build_params (CatForward.GetYDesc_GetType shapes);
                  CatForward.work := sizes;
                  CatForward.kernel :=
                    {| cat.kernel_file := "MIOpenCat.cpp";
                       cat.kernel_name :=
                         if cat.GetXCount problem <=? 2 then "Cat2FwdPacked"
                         else if cat.GetXCount problem <=? 4 then "Cat4FwdPacked"
                         else "Cat8FwdPacked" |} |}.
Proof.
  intros Hrange Hgeometry. unfold CatForward.GetSolution.
  rewrite Hgeometry. run_bind.
  set (xCount := cat.GetXCount problem) in *.
  assert (Hcases : xCount <= 2 \/ (3 <= xCount <= 4) \/ 5 <= xCount) by lia.
  destruct Hcases as [H2 | [H4 | H8]].
  - exists 2.
    assert (Hloop : cat.fusion_loop 2 xCount = Returns 2).
    { rewrite fusion_loop_unfold. now rewrite (proj2 (Z.ltb_ge _ _)) by lia. }
    rewrite Hloop, (proj2 (Z.leb_le _ _)) by lia.
    repeat split; try lia; try reflexivity.
    exists 1. reflexivity.
  - exists 4.
    assert (Hloop : cat.fusion_loop 2 xCount = Returns 4).
    { rewrite fusion_loop_unfold, (proj2 (Z.ltb_lt _ _)) by lia. simpl.
      rewrite fusion_loop_unfold. now rewrite (proj2 (Z.ltb_ge _ _)) by lia. }
    rewrite Hloop, (proj2 (Z.leb_gt _ _)), (proj2 (Z.leb_le _ _)) by lia.
    repeat split; try lia; try reflexivity.
    + exists 2. reflexivity.
    + intros m k Hm Hx _. apply (next_power_of_two 1 k m); [lia | assumption |].
      change (2 ^ 1) with 2. lia.
  - exists 8.
    assert (Hloop : cat.fusion_loop 2 xCount = Returns 8).
    { rewrite fusion_loop_unfold, (proj2 (Z.ltb_lt _ _)) by lia. simpl.
      rewrite fusion_loop_unfold, (proj2 (Z.ltb_lt _ _)) by lia. simpl.
      rewrite fusion_loop_unfold. now rewrite (proj2 (Z.ltb_ge _ _)) by lia. }
    rewrite Hloop, !(proj2 (Z.leb_gt _ _)) by lia.
    repeat split; try lia; try reflexivity.
    + exists 3. reflexivity.
    + intros m k Hm Hx _. apply (next_power_of_two 2 k m); [lia | assumption |].
      change (2 ^ 2) with 4. lia.
Qed.

Lemma cat_GetSolution_kernel_name_three_tensors :
  exists fusion_size : Z,
    cat.fusion_loop 2 3 = Returns fusion_size
    /\ (exists k : Z, fusion_size = 2 ^ k)
    /\ 3 <= fusion_size
    /\ 2 <= fusion_size
    /\ (forall m k : Z, m = 2 ^ k -> 3 <= m -> 2 <= m -> fusion_size <= m)
    /\ CatForward.GetSolution 120 samples.three_tensors more_samples.shapes =
       Returns {| CatForward.comp_options :=
                    [("MIOPEN_USE_FP16", 0); ("MIOPEN_USE_FP32", 1);
                     ("MIOPEN_USE_FP64", 0); ("MIOPEN_USE_BFP16", 0)];
                  CatForward.work := more_samples.sample_work_sizes;
                  CatForward.kernel :=
                    {| cat.kernel_file := "MIOpenCat.cpp";
                       cat.kernel_name := "Cat4FwdPacked" |} |}.
Proof.
  apply (cat_GetSolution_kernel_name 120 samples.three_tensors more_samples.shapes
           more_samples.sample_work_sizes).
  - simpl. lia.
  - reflexivity.
Defined.

(** C8, as stated, fails on two tensors of [2 ^ 32] elements each, a problem
    the applicability check accepts: the largest input length times the
    stride is 0 as an [int], [GetSolution] divides [LOCAL_SIZE] by it in
    front of the [switch], and no kernel is named. *)
Lemma cat_GetSolution_undefined_on_two_tensors :
  1 <= cat.GetXCount more_samples.two_tensors <= 8
  /\ cat.IsApplicable tt more_samples.two_tensors = Returns true
  /\ CatForward.GetSolution 120 more_samples.two_tensors more_samples.long_shapes
     = Undefined
  /\ forall kernel : CatForward.KernelInfo,
       CatForward.GetSolution 120 more_samples.two_tensors more_samples.long_shapes
       <> Returns kernel.
Proof.
  assert (Hundefined :
    CatForward.GetSolution 120 more_samples.two_tensors more_samples.long_shapes
    = Undefined) by reflexivity.
  split; [simpl; lia|].
  split; [reflexivity|].
  split; [exact Hundefined|].
  intros kernel. rewrite Hundefined. discriminate.
Qed.

(** ** Preload coordination *)

Import db_preload.

Lemma StartPreloadingDb_started_loading (path : string) (load : preloader)
    (states : DbPreloadStates) :
  started_loading (StartPreloadingDb path load states) = started_loading states.
Proof.
  unfold StartPreloadingDb. destruct (futures states !! path); reflexivity.
Qed.

Lemma invoke_started_loading (preload : preload_action) (states : DbPreloadStates) :
  started_loading (invoke preload states) = started_loading states.
Proof.
  unfold invoke. revert states.
  induction preload as [|table preload IH]; intros states; simpl; [reflexivity|].
  rewrite IH. apply StartPreloadingDb_started_loading.
Qed.

(** One call invokes a preload action at most once, and only when the flag
    was false; it never clears the flag, and leaves it set when it invoked
    an action. *)
Lemma perform_one_shot (c : call) (states : DbPreloadStates) :
  (fst (perform c states) <= if started_loading states then 0 else 1)%nat
  /\ Bool.le (started_loading states) (started_loading (snd (perform c states)))
  /\ (fst (perform c states) = 0%nat \/ started_loading (snd (perform c states)) = true).
Proof.
  destruct c as [preload | path load | path]; simpl.
  - unfold TryStartPreloadingDbs.
    destruct (started_loading states) eqn:Hstarted; simpl.
    + rewrite Hstarted. auto.
    + rewrite invoke_started_loading. simpl. auto.
  - rewrite StartPreloadingDb_started_loading.
    destruct (started_loading states); simpl; auto.
  - destruct (started_loading states); simpl; auto.
Qed.

(** A preload action really runs on a newly constructed state. *)
Example TryStartPreloadingDbs_first_call (preload : preload_action) :
  fst (TryStartPreloadingDbs preload constructed) = true.
Proof. reflexivity. Qed.

(** C6: over every sequence of calls on one [DbPreloadStates], calls to
    [TryStartPreloadingDbs] among them, a preload action is invoked at most
    once, and not at all when the flag was already set; and the flag
    [started_loading], once true, is true after every further call. *)
Theorem TryStartPreloadingDbs_at_most_once (calls : list call) (states : DbPreloadStates) :
  (fst (perform_all calls states) <= if started_loading states then 0 else 1)%nat
  /\ Bool.le (started_loading states) (started_loading (snd (perform_all calls states))).
Proof.
  revert states.
  induction calls as [|c calls IH]; intros states; simpl.
  - destruct (started_loading states); simpl; auto with arith.
  - destruct (perform_one_shot c states) as (Hn & Hle & Hset).
    destruct (perform c states) as [n states'] eqn:Hc. simpl in Hn, Hle, Hset.
    destruct (IH states') as (Hm & Hle').
    destruct (perform_all calls states') as [m states''] eqn:Hrest.
    simpl in Hm, Hle' |- *.
    split.
    + destruct (started_loading states) eqn:Hstarted; simpl in Hle.
      * rewrite Hle in Hm. lia.
      * destruct Hset as [-> | Hset]; [|rewrite Hset in Hm; lia].
        destruct (started_loading states'); lia.
    + destruct (started_loading states); simpl in *; [|exact I].
      rewrite Hle in Hle'. exact Hle'.
Qed.

Import conv.
Import PerformanceConfigHipImplicitGemmGroupFwdXdlops.

(** ** The applicability check of the grouped forward xdlops solver *)

Import ConvHipImplicitGemmGroupFwdXdlops.

Lemma outcome_bind {A B : Type} (m : Traced A) (f : A -> Traced B) :
  outcome (m ≫= f) = outcome m ≫= (fun a => outcome (f a)).
Proof.
  destruct m as [qs [a | e | |]]; try reflexivity.
  unfold mbind, Traced_mbind, Traced_bind, outcome. simpl.
  destruct (f a); reflexivity.
Qed.

Lemma queries_bind {A B : Type} (m : Traced A) (f : A -> Traced B) :
  queries (m ≫= f) =
  match outcome m with
  | Returns a => (queries m ++ queries (f a))%list
  | _ => queries m
  end.
Proof.
  destruct m as [qs [a | e | |]]; try reflexivity.
  unfold mbind, Traced_mbind, Traced_bind, queries, outcome. simpl.
  destruct (f a); reflexivity.
Qed.

(** The loop answers whether some instance supports the arguments. *)
Lemma CheckCKApplicability_loop_outcome (conv_ptrs : list DeviceOp) (args : CKArgsGFwd) :
  outcome (CheckCKApplicability_loop conv_ptrs args) =
  Returns (existsb (fun p => IsSupportedArgument p args) conv_ptrs).
Proof.
  induction conv_ptrs as [|p rest IH]; [reflexivity|].
  cbn [CheckCKApplicability_loop]. rewrite outcome_bind. simpl.
  destruct (IsSupportedArgument p args); simpl; [reflexivity | exact IH].
Qed.

Lemma CheckCKApplicability_outcome (E : Installation) (T : DataType)
    (problem : ProblemDescription) :
  outcome (CheckCKApplicability E T problem) =
  (_ ← assert_ E (negb (empty (GetInstances E T)));
   if GetAdjustedConvolutionStrideH problem =? 1
   then if GetAdjustedConvolutionStrideW problem =? 1
        then Returns (existsb (fun p => IsSupportedArgument p (make_CKArgsGFwd problem))
                        (GetInstances E T))
        else Returns false
   else Returns false).
Proof.
  unfold CheckCKApplicability. rewrite outcome_bind. simpl.
  destruct (assert_ E (negb (empty (GetInstances E T)))) as [[] | e | |];
    try reflexivity.
  simpl.
  destruct (GetAdjustedConvolutionStrideH problem =? 1),
    (GetAdjustedConvolutionStrideW problem =? 1); simpl; try reflexivity.
  rewrite <- CheckCKApplicability_loop_outcome.
  destruct (CheckCKApplicability_loop _ _); reflexivity.
Qed.

(** [CheckCKApplicability] does not return true for a problem with a stride
    other than 1: it returns false, unless the assertion on the instance
    list stops it first. *)
Lemma CheckCKApplicability_rejects_strides (E : Installation) (T : DataType)
    (problem : ProblemDescription) :
  GetAdjustedConvolutionStrideH problem <> 1
  \/ GetAdjustedConvolutionStrideW problem <> 1 ->
  outcome (CheckCKApplicability E T problem) <> Returns true
  /\ (NDEBUG E = true \/ GetInstances E T <> [] ->
      outcome (CheckCKApplicability E T problem) = Returns false).
Proof.
  intros Hstride. rewrite CheckCKApplicability_outcome.
  assert (Hbody :
    (if GetAdjustedConvolutionStrideH problem =? 1
     then if GetAdjustedConvolutionStrideW problem =? 1
          then Returns (existsb (fun p => IsSupportedArgument p (make_CKArgsGFwd problem))
                          (GetInstances E T))
          else Returns false
     else Returns false) = Returns false).
  { destruct (Z.eqb_spec (GetAdjustedConvolutionStrideH problem) 1) as [Hh|];
      [|reflexivity].
    destruct (Z.eqb_spec (GetAdjustedConvolutionStrideW problem) 1) as [Hw|];
      [|reflexivity].
    exfalso. destruct Hstride; contradiction. }
  rewrite Hbody. unfold assert_. split.
  - destruct (NDEBUG E); simpl; [discriminate|].
    destruct (negb (empty (GetInstances E T))); simpl; discriminate.
  - intros [Hnd | Hne].
    + rewrite Hnd. reflexivity.
    + destruct (NDEBUG E); [reflexivity|].
      destruct (GetInstances E T); [contradiction | reflexivity].
Qed.

Lemma CheckCKApplicability_true (E : Installation) (T : DataType)
    (problem : ProblemDescription) :
  outcome (CheckCKApplicability E T problem) = Returns true ->
  GetAdjustedConvolutionStrideH problem = 1
  /\ GetAdjustedConvolutionStrideW problem = 1
  /\ existsb (fun p => IsSupportedArgument p (make_CKArgsGFwd problem))
       (GetInstances E T) = true.
Proof.
  intros Htrue.
  destruct (Z.eq_dec (GetAdjustedConvolutionStrideH problem) 1) as [Hh | Hh];
    [|destruct (CheckCKApplicability_rejects_strides E T problem) as [Hno _];
      [left; exact Hh | contradiction]].
  destruct (Z.eq_dec (GetAdjustedConvolutionStrideW problem) 1) as [Hw | Hw];
    [|destruct (CheckCKApplicability_rejects_strides E T problem) as [Hno _];
      [right; exact Hw | contradiction]].
  rewrite CheckCKApplicability_outcome, Hh, Hw in Htrue. simpl in Htrue.
  repeat split; try assumption.
  destruct (assert_ E (negb (empty (GetInstances E T)))) as [[] | e | |];
    simpl in Htrue; try discriminate.
  now injection Htrue.
Qed.

(** What [IsApplicable] does once the build and the two environment
    variables let it through. *)
Lemma IsApplicable_unfold (E : Installation) (ctx : ConvolutionContext)
    (problem : ProblemDescription) :
  IsApplicable E ctx problem =
  if negb (MIOPEN_USE_COMPOSABLEKERNEL E)
     || IsDisabled_MIOPEN_DEBUG_GROUP_CONV_IMPLICIT_GEMM_HIP_FWD_XDLOPS E
     || IsEnabled_MIOPEN_DEBUG_CONVOLUTION_DETERMINISTIC E
     || negb (structural_checks problem)
  then mret false
  else
    arch ← query QueryDeviceName (GetDeviceName (GetStream ctx));
    if negb (String.eqb arch "gfx908" || String.eqb arch "gfx90a") then mret false
    else
      match GetInDataType problem with
      | miopenHalf => CheckCKApplicability E ck_half_t problem
      | miopenFloat => CheckCKApplicability E ck_float problem
      | _ => mret false
      end.
Proof.
  unfold IsApplicable, structural_checks.
  destruct (MIOPEN_USE_COMPOSABLEKERNEL E),
    (IsDisabled_MIOPEN_DEBUG_GROUP_CONV_IMPLICIT_GEMM_HIP_FWD_XDLOPS E),
    (IsEnabled_MIOPEN_DEBUG_CONVOLUTION_DETERMINISTIC E); simpl; try reflexivity.
  destruct (bool_decide (GetInDataType problem ≠ GetWeightsDataType problem)
            || bool_decide (GetWeightsDataType problem ≠ GetOutDataType problem)
            || bool_decide (GetInDataType problem ≠ GetOutDataType problem));
    simpl; [reflexivity|].
  destruct (IsForward (direction problem)), (Is2d problem), (IsLayoutNHWC problem);
    reflexivity.
Qed.

(** C5: whenever a generic structural check of [IsApplicable] fails (the
    data types of input, weights and output are not all equal, the direction
    is not forward, the problem is not 2-d, or the layout is not NHWC), the
    result is false and no query was made: neither the device name was read
    for the architecture allow-list, nor the backing library asked for its
    instances or their support. *)
Theorem IsApplicable_structural_checks_first (E : Installation)
    (ctx : ConvolutionContext) (problem : ProblemDescription) :
  GetInDataType problem ≠ GetWeightsDataType problem
  \/ GetWeightsDataType problem ≠ GetOutDataType problem
  \/ GetInDataType problem ≠ GetOutDataType problem
  \/ IsForward (direction problem) = false
  \/ Is2d problem = false
  \/ IsLayoutNHWC problem = false ->
  outcome (IsApplicable E ctx problem) = Returns false
  /\ queries (IsApplicable E ctx problem) = [].
Proof.
  intros Hfails. rewrite IsApplicable_unfold.
  assert (Hchecks : structural_checks problem = false).
  { unfold structural_checks.
    destruct Hfails as [H | [H | [H | [H | [H | H]]]]].
    - rewrite (bool_decide_eq_true_2 _ H). reflexivity.
    - rewrite (bool_decide_eq_true_2 _ H), orb_true_r. reflexivity.
    - rewrite (bool_decide_eq_true_2 _ H), orb_true_r. reflexivity.
    - rewrite H, andb_false_r. reflexivity.
    - rewrite H, andb_false_r. reflexivity.
    - rewrite H, andb_false_r. reflexivity. }
  rewrite Hchecks. simpl. rewrite !orb_true_r. split; reflexivity.
Qed.

Lemma IsApplicable_structural_checks_first_mixed_types :
  outcome (IsApplicable (samples.installation false samples.three_instances)
             samples.gfx90a samples.mixed_types) = Returns false
  /\ queries (IsApplicable (samples.installation false samples.three_instances)
                samples.gfx90a samples.mixed_types) = [].
Proof.
  apply IsApplicable_structural_checks_first. left. simpl. discriminate.
Defined.

(** The queries are recorded: on a problem that passes the structural
    checks the device name is read first, then the library is asked. *)
Example IsApplicable_queries_sample :
  IsApplicable (samples.installation false samples.three_instances)
    samples.gfx90a (samples.conv3x3 miopenHalf)
  = ([QueryDeviceName; QueryInstances ck_half_t;
      QueryIsSupportedArgument
        "DeviceGroupedConvFwdMultipleD_Xdl_CShuffle<256, 256, 128, 32>";
      QueryIsSupportedArgument
        "DeviceGroupedConvFwdMultipleD_Xdl_CShuffle<128, 128, 64, 32>"],
     Returns true).
Proof. reflexivity. Qed.

(** C9: [IsApplicable] returns true only if the device architecture is
    gfx908 or gfx90a, the input data type is half or float, the data types of
    input, weights and output are all equal, and both adjusted convolution
    strides are 1 ([CheckCKApplicability] does not accept any other
    stride). *)
Theorem IsApplicable_true_only_if (E : Installation) (ctx : ConvolutionContext)
    (problem : ProblemDescription) :
  outcome (IsApplicable E ctx problem) = Returns true ->
  (GetDeviceName (GetStream ctx) = "gfx908" \/ GetDeviceName (GetStream ctx) = "gfx90a")
  /\ (GetInDataType problem = miopenHalf \/ GetInDataType problem = miopenFloat)
  /\ GetInDataType problem = GetWeightsDataType problem
  /\ GetWeightsDataType problem = GetOutDataType problem
  /\ GetAdjustedConvolutionStrideH problem = 1
  /\ GetAdjustedConvolutionStrideW problem = 1.
Proof.
  rewrite IsApplicable_unfold.
  destruct (negb (MIOPEN_USE_COMPOSABLEKERNEL E)
            || IsDisabled_MIOPEN_DEBUG_GROUP_CONV_IMPLICIT_GEMM_HIP_FWD_XDLOPS E
            || IsEnabled_MIOPEN_DEBUG_CONVOLUTION_DETERMINISTIC E);
    cbn [orb negb]; [discriminate|].
  destruct (structural_checks problem) eqn:Hchecks; cbn [orb negb]; [|discriminate].
  rewrite outcome_bind. cbn [query outcome snd mbind Outcome_mbind Outcome_bind].
  destruct (String.eqb (GetDeviceName (GetStream ctx)) "gfx908"
            || String.eqb (GetDeviceName (GetStream ctx)) "gfx90a") eqn:Harch;
    cbn [orb negb]; [|discriminate].
  intros Htrue.
  assert (Htypes : GetInDataType problem = GetWeightsDataType problem
                   /\ GetWeightsDataType problem = GetOutDataType problem).
  { unfold structural_checks in Hchecks.
    repeat (apply andb_prop in Hchecks; destruct Hchecks as [Hchecks _]).
    apply negb_true_iff in Hchecks.
    apply orb_false_elim in Hchecks. destruct Hchecks as [Hchecks _].
    apply orb_false_elim in Hchecks. destruct Hchecks as [H1 H2].
    apply bool_decide_eq_false in H1, H2.
    split; [destruct (decide (GetInDataType problem = GetWeightsDataType problem))
           | destruct (decide (GetWeightsDataType problem = GetOutDataType problem))];
      try assumption; contradiction. }
  assert (Hdev : GetDeviceName (GetStream ctx) = "gfx908"
                 \/ GetDeviceName (GetStream ctx) = "gfx90a").
  { apply orb_prop in Harch. destruct Harch as [H | H];
      apply String.eqb_eq in H; auto. }
  destruct (GetInDataType problem) eqn:Hin; simpl in Htrue; try discriminate.
  - apply CheckCKApplicability_true in Htrue. destruct Htrue as (Hh & Hw & _).
    destruct Htypes. repeat split; auto.
  - apply CheckCKApplicability_true in Htrue. destruct Htrue as (Hh & Hw & _).
    destruct Htypes. repeat split; auto.
Qed.

Lemma IsApplicable_true_only_if_sample :
  (GetDeviceName (GetStream samples.gfx90a) = "gfx908"
   \/ GetDeviceName (GetStream samples.gfx90a) = "gfx90a")
  /\ (GetInDataType (samples.conv3x3 miopenHalf) = miopenHalf
      \/ GetInDataType (samples.conv3x3 miopenHalf) = miopenFloat)
  /\ GetInDataType (samples.conv3x3 miopenHalf)
     = GetWeightsDataType (samples.conv3x3 miopenHalf)
  /\ GetWeightsDataType (samples.conv3x3 miopenHalf)
     = GetOutDataType (samples.conv3x3 miopenHalf)
  /\ GetAdjustedConvolutionStrideH (samples.conv3x3 miopenHalf) = 1
  /\ GetAdjustedConvolutionStrideW (samples.conv3x3 miopenHalf) = 1.
Proof.
  apply (IsApplicable_true_only_if
           (samples.installation false samples.three_instances)).
  reflexivity.
Defined.

(** ** Enumerating the configurations *)

Lemma empty_nil {A : Type} (v : list A) : empty v = true <-> v = [].
Proof. destruct v; simpl; split; congruence. Qed.

Lemma empty_false {A : Type} (v : list A) : empty v = false <-> v <> [].
Proof. destruct v; simpl; split; congruence. Qed.

(** An assertion that holds lets the call go on, in either build. *)
Lemma assert_holds (E : Installation) : assert_ E true = Returns tt.
Proof. unfold assert_. destruct (NDEBUG E); reflexivity. Qed.

(** An [int] that is not negative keeps its value as a [size_t]. *)
Lemma size_t_of_int_nonneg (i : Z) : 0 <= i -> size_t_of_int i = i.
Proof.
  intros Hi. unfold size_t_of_int. now rewrite (proj2 (Z.ltb_ge i 0)) by lia.
Qed.

Lemma subscript_lookup {A : Type} (v : list A) (i : nat) (x : A) :
  subscript v (Z.of_nat i) = Returns x <-> v !! i = Some x.
Proof.
  unfold subscript. rewrite size_t_of_int_nonneg by lia. rewrite Nat2Z.id.
  destruct (v !! i); split; congruence.
Qed.

(** The loop of [Init] appends the type strings of the supporting
    instances, in the order of the instance list. *)
Lemma Init_loop_filter (conv_ptrs : list DeviceOp) (args : CKArgsGFwd)
    (valid_kernels : list string) :
  Init_loop conv_ptrs args valid_kernels =
  (valid_kernels
   ++ map GetTypeString (List.filter (fun p => IsSupportedArgument p args) conv_ptrs))%list.
Proof.
  revert valid_kernels.
  induction conv_ptrs as [|p rest IH]; intros valid_kernels; simpl.
  - now rewrite app_nil_r.
  - rewrite IH. destruct (IsSupportedArgument p args); simpl; [|reflexivity].
    now rewrite <- app_assoc.
Qed.

(** When [Init] returns, the configuration stands on the first entry of a
    non-empty [valid_kernels]. *)
Lemma Init_returns (E : Installation) (T : DataType) (problem : ProblemDescription)
    (this this' : PerfConfig) :
  Init E T problem this = Returns this' ->
  valid_kernels this' =
    Init_loop (GetInstances E T) (make_CKArgsGFwd problem) (valid_kernels this)
  /\ index this' = 0
  /\ valid_kernels this' !! 0%nat = Some (kernel_id this').
Proof.
  unfold Init.
  destruct (assert_ E (negb (empty (GetInstances E T)))) as [[] | | |];
    simpl; try discriminate.
  destruct (assert_ E (negb (empty (Init_loop (GetInstances E T)
              (make_CKArgsGFwd problem) (valid_kernels this))))) as [[] | | |];
    simpl; try discriminate.
  destruct (subscript _ 0) as [id | | |] eqn:Hid; simpl; try discriminate.
  intros [= <-]. simpl. repeat split.
  now apply (subscript_lookup _ 0%nat).
Qed.

(** [HeuristicInit] either runs [Init] or leaves the configuration as it
    is. *)
Lemma HeuristicInit_cases (E : Installation) (problem : ProblemDescription)
    (this : PerfConfig) :
  HeuristicInit E problem this = Returns this
  \/ exists T : DataType, HeuristicInit E problem this = Init E T problem this.
Proof.
  unfold HeuristicInit.
  destruct (MIOPEN_USE_COMPOSABLEKERNEL E); simpl; [|now left].
  destruct (GetInDataType problem); eauto.
Qed.

(** From an empty list, a returning [HeuristicInit] that leaves
    [valid_kernels] non-empty has selected its first entry. *)
Lemma HeuristicInit_selects_first (E : Installation) (problem : ProblemDescription)
    (this this' : PerfConfig) :
  valid_kernels this = [] ->
  HeuristicInit E problem this = Returns this' ->
  valid_kernels this' <> [] ->
  index this' = 0 /\ valid_kernels this' !! 0%nat = Some (kernel_id this').
Proof.
  intros Hempty Hinit Hne.
  destruct (HeuristicInit_cases E problem this) as [Hsame | [T HT]].
  - rewrite Hsame in Hinit. injection Hinit as <-. contradiction.
  - rewrite HT in Hinit. apply Init_returns in Hinit. tauto.
Qed.

(** C10, as amended: after every call to [SetNextValue] that returns true,
    in a build with assertions, or whenever [valid_kernels] is not empty
    after the call, the configuration satisfies [IsValidValue()]: its index
    is below the size of [valid_kernels] and [kernel_id] is
    [valid_kernels[index]].  The configuration before the call is arbitrary,
    so every later call that returns true preserves this. *)
Theorem SetNextValue_true_is_valid (E : Installation) (problem : ProblemDescription)
    (this this' : PerfConfig) :
  SetNextValue E problem this = Returns (true, this') ->
  NDEBUG E = false \/ valid_kernels this' <> [] ->
  IsValidValue this' = true
  /\ subscript (valid_kernels this') (index this') = Returns (kernel_id this').
Proof.
  unfold SetNextValue, IsValidValue.
  destruct (empty (valid_kernels this)) eqn:Hempty.
  - apply empty_nil in Hempty.
    destruct (HeuristicInit E problem this) as [init | | |] eqn:Hinit;
      simpl; try discriminate.
    intros Hcall Hbuild.
    assert (Hne : valid_kernels init <> []).
    { destruct Hbuild as [Hdebug | Hne].
      - unfold assert_ in Hcall. rewrite Hdebug in Hcall.
        destruct (empty (valid_kernels init)) eqn:He; simpl in Hcall;
          [discriminate|]. now apply empty_false.
      - destruct (assert_ E _) as [[] | | |]; simpl in Hcall; try discriminate.
        now injection Hcall as ->. }
    destruct (assert_ E _) as [[] | | |]; simpl in Hcall; try discriminate.
    injection Hcall as <-.
    destruct (HeuristicInit_selects_first E problem this init Hempty Hinit Hne)
      as [Hindex Hfirst].
    rewrite Hindex. split.
    + unfold int_lt_size. simpl. destruct (valid_kernels init); [contradiction|].
      simpl. reflexivity.
    + now apply (subscript_lookup _ 0%nat).
  - destruct (int_lt_size (index this + 1) (length (valid_kernels this))) eqn:Hlt;
      [|discriminate].
    destruct (subscript (valid_kernels this) (index this + 1)) as [id | | |] eqn:Hid;
      simpl; try discriminate.
    intros [= <-] _. simpl. split; assumption.
Qed.

Lemma SetNextValue_true_is_valid_sample :
  IsValidValue
    {| index := 0;
       kernel_id := "DeviceGroupedConvFwdMultipleD_Xdl_CShuffle<128, 128, 64, 32>";
       valid_kernels :=
         ["DeviceGroupedConvFwdMultipleD_Xdl_CShuffle<128, 128, 64, 32>";
          "DeviceGroupedConvFwdMultipleD_Xdl_CShuffle<64, 64, 32, 32>"] |} = true
  /\ subscript
       ["DeviceGroupedConvFwdMultipleD_Xdl_CShuffle<128, 128, 64, 32>";
        "DeviceGroupedConvFwdMultipleD_Xdl_CShuffle<64, 64, 32, 32>"] 0
     = Returns "DeviceGroupedConvFwdMultipleD_Xdl_CShuffle<128, 128, 64, 32>".
Proof.
  apply (SetNextValue_true_is_valid
           (samples.installation false samples.three_instances)
           (samples.conv3x3 miopenHalf) default_constructed).
  - reflexivity.
  - left. reflexivity.
Defined.

(** C10, as stated, fails where assertions are compiled out: on a problem
    of a data type [HeuristicInit] has no case for, [SetNextValue] returns
    true and leaves a configuration that [IsValidValue()] rejects. *)
Lemma SetNextValue_true_without_candidates :
  SetNextValue (samples.installation true samples.three_instances)
    (samples.conv3x3 miopenInt8) default_constructed
  = Returns (true, default_constructed)
  /\ IsValidValue default_constructed = false.
Proof. split; reflexivity. Qed.

Lemma enumerate_S (E : Installation) (problem : ProblemDescription) (calls : nat)
    (this : PerfConfig) :
  enumerate E (S calls) problem this =
  ('(more, this') ← SetNextValue E problem this;
   if more : bool then
     rest ← enumerate E calls problem this';
     Returns (option_map (cons (kernel_id this')) rest)
   else Returns (Some [])).
Proof. reflexivity. Qed.

(** From position [i] of a list with [i + n + 1] entries, [n] calls return
    true and visit the entries after [i], and the next call returns
    false. *)
Lemma enumerate_rest (E : Installation) (problem : ProblemDescription) (n : nat) :
  forall (i : nat) (this : PerfConfig),
    index this = Z.of_nat i ->
    (i + n + 1 = length (valid_kernels this))%nat ->
    enumerate E (S n) problem this = Returns (Some (drop (S i) (valid_kernels this))).
Proof.
  induction n as [|n IH]; intros i this Hindex Hlen.
  - simpl. unfold SetNextValue.
    destruct (valid_kernels this) as [|k vk] eqn:Hvk; [simpl in Hlen; lia|].
    cbn [empty]. rewrite Hindex.
    assert (Hlast : int_lt_size (Z.of_nat i + 1) (length (k :: vk)) = false).
    { unfold int_lt_size. rewrite size_t_of_int_nonneg by lia.
      apply Z.ltb_ge. lia. }
    rewrite Hlast. simpl. rewrite drop_ge by (simpl in *; lia). reflexivity.
  - rewrite enumerate_S. unfold SetNextValue.
    destruct (valid_kernels this) as [|k vk] eqn:Hvk; [simpl in Hlen; lia|].
    cbn [empty]. rewrite Hindex.
    assert (Hmore : int_lt_size (Z.of_nat i + 1) (length (k :: vk)) = true).
    { unfold int_lt_size. rewrite size_t_of_int_nonneg by lia.
      apply Z.ltb_lt. lia. }
    rewrite Hmore.
    destruct (lookup_lt_is_Some_2 (k :: vk) (S i)) as [id Hid]; [lia|].
    replace (Z.of_nat i + 1) with (Z.of_nat (S i)) by lia.
    rewrite (proj2 (subscript_lookup (k :: vk) (S i) id) Hid).
    run_bind.
    set (next := {| index := Z.of_nat (S i); kernel_id := id;
                    valid_kernels := k :: vk |}).
    rewrite (IH (S i) next) by (subst next; simpl in *; lia || reflexivity).
    subst next. simpl valid_kernels. simpl kernel_id.
    cbn [mbind Outcome_mbind Outcome_bind option_map].
    rewrite (drop_S (k :: vk) id (S i) Hid). reflexivity.
Qed.

(** C2, as amended: for every problem on which heuristic initialization of
    a default-constructed configuration returns with a non-empty
    [valid_kernels], the calls to [SetNextValue] from the default-constructed
    configuration leave in [kernel_id] every entry of [valid_kernels], in
    order and once each, and the call after the last entry returns false:
    one call more than there are entries. *)
Theorem SetNextValue_enumerates_valid_kernels (E : Installation)
    (problem : ProblemDescription) (first : PerfConfig) :
  HeuristicInit E problem default_constructed = Returns first ->
  valid_kernels first <> [] ->
  enumerate E (S (length (valid_kernels first))) problem default_constructed
  = Returns (Some (valid_kernels first)).
Proof.
  intros Hinit Hne.
  destruct (HeuristicInit_selects_first E problem default_constructed first
              eq_refl Hinit Hne) as [Hindex Hfirst].
  rewrite enumerate_S. unfold SetNextValue.
  cbn [valid_kernels default_constructed empty].
  rewrite Hinit. run_bind.
  rewrite (proj2 (empty_false _) Hne). cbn [negb]. rewrite assert_holds.
  run_bind.
  destruct (valid_kernels first) as [|k vk] eqn:Hvk; [contradiction|].
  cbn [length].
  rewrite (enumerate_rest E problem (length vk) 0 first)
    by (rewrite ?Hvk; simpl; lia || assumption).
  rewrite Hvk. simpl. injection Hfirst as ->. reflexivity.
Qed.

Lemma SetNextValue_enumerates_valid_kernels_sample :
  enumerate (samples.installation false samples.three_instances) 3
    (samples.conv3x3 miopenHalf) default_constructed
  = Returns (Some ["DeviceGroupedConvFwdMultipleD_Xdl_CShuffle<128, 128, 64, 32>";
                   "DeviceGroupedConvFwdMultipleD_Xdl_CShuffle<64, 64, 32, 32>"]).
Proof.
  apply (SetNextValue_enumerates_valid_kernels
           (samples.installation false samples.three_instances)
           (samples.conv3x3 miopenHalf)
           {| index := 0;
              kernel_id := "DeviceGroupedConvFwdMultipleD_Xdl_CShuffle<128, 128, 64, 32>";
              valid_kernels :=
                ["DeviceGroupedConvFwdMultipleD_Xdl_CShuffle<128, 128, 64, 32>";
                 "DeviceGroupedConvFwdMultipleD_Xdl_CShuffle<64, 64, 32, 32>"] |}).
  - reflexivity.
  - discriminate.
Defined.

(** C2, as stated, fails on a problem of type int8: [HeuristicInit] has no
    case for it and [valid_kernels] stays empty.  Where assertions are
    compiled out every call to [SetNextValue] returns true, so no number of
    calls reaches "no more"; with assertions the first call stops at the
    failed [assert]. *)
Lemma SetNextValue_never_exhausted_on_int8 :
  (forall calls : nat,
     enumerate (samples.installation true samples.three_instances) calls
       (samples.conv3x3 miopenInt8) default_constructed = Returns None)
  /\ (forall calls : nat,
        enumerate (samples.installation false samples.three_instances) (S calls)
          (samples.conv3x3 miopenInt8) default_constructed = AssertFails)
  /\ ~ (exists (calls : nat) (ids : list string),
          enumerate (samples.installation true samples.three_instances) calls
            (samples.conv3x3 miopenInt8) default_constructed = Returns (Some ids)).
Proof.
  assert (Hnone : forall calls : nat,
     enumerate (samples.installation true samples.three_instances) calls
       (samples.conv3x3 miopenInt8) default_constructed = Returns None).
  { induction calls as [|calls IH]; [reflexivity|].
    rewrite enumerate_S.
    change (SetNextValue (samples.installation true samples.three_instances)
              (samples.conv3x3 miopenInt8) default_constructed)
      with (Returns (true, default_constructed)).
    run_bind. rewrite IH. reflexivity. }
  split; [exact Hnone|]. split.
  - intros calls. reflexivity.
  - intros (calls & ids & Hsome). rewrite Hnone in Hsome. discriminate.
Qed.

(** ** The first candidate of the search *)

Lemma existsb_filter_nonempty {A : Type} (f : A -> bool) (l : list A) :
  existsb f l = true -> List.filter f l <> [].
Proof.
  induction l as [|a l IH]; simpl; [discriminate|].
  destruct (f a); simpl; [discriminate | exact IH].
Qed.

(** Where some instance supports the arguments, [Init] returns from the
    default-constructed configuration with a first candidate selected. *)
Lemma Init_of_supported (E : Installation) (T : DataType) (problem : ProblemDescription) :
  existsb (fun p => IsSupportedArgument p (make_CKArgsGFwd problem)) (GetInstances E T)
    = true ->
  exists first : PerfConfig,
    Init E T problem default_constructed = Returns first
    /\ valid_kernels first <> []
    /\ index first = 0
    /\ valid_kernels first !! 0%nat = Some (kernel_id first).
Proof.
  intros Hsupported.
  assert (Hptrs : empty (GetInstances E T) = false).
  { destruct (GetInstances E T); [discriminate | reflexivity]. }
  pose proof (existsb_filter_nonempty _ _ Hsupported) as Hfilter.
  unfold Init. rewrite Hptrs. cbn [negb]. rewrite assert_holds.
  cbn [mbind Outcome_mbind Outcome_bind valid_kernels default_constructed].
  rewrite Init_loop_filter. cbn [app].
  destruct (List.filter _ (GetInstances E T)) as [|p ps]; [contradiction|].
  cbn [map empty negb]. rewrite assert_holds. simpl.
  eexists. split; [reflexivity|]. simpl. repeat split. discriminate.
Qed.

(** C3, as amended: where heuristic initialization returns with an empty
    [valid_kernels] (a data type [HeuristicInit] has no case for, a build
    without the backing library), the search fails at once with
    [NoCandidates]; and for every problem [IsApplicable] accepts, heuristic
    initialization returns with a non-empty [valid_kernels] and its first
    entry selected, so that the search has a first candidate. *)
Theorem Search_first_candidate (E : Installation) (ctx : ConvolutionContext)
    (problem : ProblemDescription) :
  (forall first : PerfConfig,
     GetDefaultPerformanceConfig E problem = Returns first ->
     valid_kernels first = [] ->
     Search E ctx problem = Throws NoCandidates)
  /\ (outcome (IsApplicable E ctx problem) = Returns true ->
      exists first : PerfConfig,
        GetDefaultPerformanceConfig E problem = Returns first
        /\ valid_kernels first <> []
        /\ index first = 0
        /\ valid_kernels first !! 0%nat = Some (kernel_id first)).
Proof.
  split.
  - intros first Hfirst Hempty. unfold Search. rewrite Hfirst.
    run_bind. rewrite Hempty. reflexivity.
  - rewrite IsApplicable_unfold.
    unfold GetDefaultPerformanceConfig, HeuristicInit.
    destruct (MIOPEN_USE_COMPOSABLEKERNEL E); cbn [orb negb]; [|discriminate].
    destruct (IsDisabled_MIOPEN_DEBUG_GROUP_CONV_IMPLICIT_GEMM_HIP_FWD_XDLOPS E
              || IsEnabled_MIOPEN_DEBUG_CONVOLUTION_DETERMINISTIC E
              || negb (structural_checks problem)); [discriminate|].
    rewrite outcome_bind. cbn [query outcome snd mbind Outcome_mbind Outcome_bind].
    destruct (negb _); [discriminate|].
    destruct (GetInDataType problem); try discriminate;
      intros Htrue; apply CheckCKApplicability_true in Htrue;
      destruct Htrue as (_ & _ & Hsupported);
      now apply Init_of_supported.
Qed.

Lemma Search_first_candidate_sample :
  Search (samples.installation false samples.three_instances) samples.gfx90a
    (samples.conv3x3 miopenInt8) = Throws NoCandidates
  /\ exists first : PerfConfig,
       GetDefaultPerformanceConfig (samples.installation false samples.three_instances)
         (samples.conv3x3 miopenHalf) = Returns first
       /\ valid_kernels first <> []
       /\ index first = 0
       /\ valid_kernels first !! 0%nat = Some (kernel_id first).
Proof.
  split.
  - apply (proj1 (Search_first_candidate
                    (samples.installation false samples.three_instances)
                    samples.gfx90a (samples.conv3x3 miopenInt8))
             default_constructed); reflexivity.
  - apply (proj2 (Search_first_candidate
                    (samples.installation false samples.three_instances)
                    samples.gfx90a (samples.conv3x3 miopenHalf))).
    reflexivity.
Defined.

(** C3, as stated, fails on a problem of type half that the one instance of
    the library does not support: no entry would be pushed onto
    [valid_kernels], and the search does not fail with [NoCandidates]: with
    assertions it stops at the failed [assert] of [Init], and without them
    [Init] reads the first element of the empty list. *)
Lemma Search_without_supporting_instance :
  Init_loop (samples.one_instance ck_half_t)
    (make_CKArgsGFwd (samples.conv3x3 miopenHalf)) [] = []
  /\ Search (samples.installation false samples.one_instance) samples.gfx90a
       (samples.conv3x3 miopenHalf) = AssertFails
  /\ Search (samples.installation true samples.one_instance) samples.gfx90a
       (samples.conv3x3 miopenHalf) = Undefined
  /\ Search (samples.installation false samples.one_instance) samples.gfx90a
       (samples.conv3x3 miopenHalf) <> Throws NoCandidates
  /\ Search (samples.installation true samples.one_instance) samples.gfx90a
       (samples.conv3x3 miopenHalf) <> Throws NoCandidates.
Proof. repeat split; discriminate. Qed.

(** ** The handle a search starts on *)

(** A candidate is only valid in a build with the backing library and for a
    problem of type half or float. *)
Lemma IsValid_true_data_type (E : Installation) (problem : ProblemDescription)
    (config : PerfConfig) :
  IsValid E problem config = Returns true ->
  MIOPEN_USE_COMPOSABLEKERNEL E = true
  /\ (GetInDataType problem = miopenHalf \/ GetInDataType problem = miopenFloat).
Proof.
  unfold IsValid.
  destruct (MIOPEN_USE_COMPOSABLEKERNEL E); simpl; [|discriminate].
  destruct (GetInDataType problem); try discriminate; auto.
Qed.

(** With profiling enabled, the kernel time [RunCKSolution] leaves in the
    handle is the elapsed time of the run, whatever the handle held. *)
Lemma RunCKSolution_kernel_time (E : Installation) (T : DataType)
    (problem : ProblemDescription) (config : PerfConfig) (handle handle' : Handle) :
  Outcome_map GetKernelTime
    (RunCKSolution E T (EnableProfiling true handle) problem config)
  = Outcome_map GetKernelTime
      (RunCKSolution E T (EnableProfiling true handle') problem config).
Proof.
  unfold RunCKSolution.
  destruct (assert_ E _) as [[] | | |]; simpl; try reflexivity.
  destruct (at_ _ _) as [conv_ptr | | |]; simpl; reflexivity.
Qed.

(** The time a trial of a valid candidate measures does not depend on the
    state of the handle before the trial. *)
Lemma trial_measurement (E : Installation) (ctx : ConvolutionContext)
    (problem : ProblemDescription) (candidate : PerfConfig) (handle handle' : Handle) :
  IsValid E problem candidate = Returns true ->
  Outcome_map fst (trial E ctx problem candidate handle)
  = Outcome_map fst (trial E ctx problem candidate handle').
Proof.
  intros Hvalid.
  destruct (IsValid_true_data_type E problem candidate Hvalid) as [Hck Htype].
  unfold trial, GetSolution. rewrite Hck. cbn [negb].
  assert (Hrun : forall T : DataType,
    Outcome_map fst
      (hh ← RunCKSolution E T (EnableProfiling true handle) problem candidate;
       Returns (Some (GetKernelTime hh), hh))
    = Outcome_map fst
        (hh ← RunCKSolution E T (EnableProfiling true handle') problem candidate;
         Returns (Some (GetKernelTime hh), hh))).
  { intros T.
    pose proof (RunCKSolution_kernel_time E T problem candidate handle handle') as Htime.
    destruct (RunCKSolution E T (EnableProfiling true handle) problem candidate),
      (RunCKSolution E T (EnableProfiling true handle') problem candidate);
      simpl in *; congruence. }
  destruct Htype as [-> | ->]; apply Hrun.
Qed.

(** The state a visit leaves does not depend on the handle it started
    with. *)
Lemma visit_state (E : Installation) (ctx : ConvolutionContext)
    (problem : ProblemDescription) (st : SearchState) (handle handle' : Handle) :
  Outcome_map fst (visit E ctx problem st handle)
  = Outcome_map fst (visit E ctx problem st handle').
Proof.
  unfold visit, IsValidPerformanceConfig.
  destruct (IsValid E problem (current st)) as [[|] | | |] eqn:Hvalid;
    run_bind; try reflexivity.
  - pose proof (trial_measurement E ctx problem (current st) handle handle' Hvalid)
      as Htrial.
    destruct (trial E ctx problem (current st) handle) as [[m1 h1] | | |],
      (trial E ctx problem (current st) handle') as [[m2 h2] | | |];
      simpl in Htrial; try discriminate; try (injection Htrial as ->);
      run_bind; try (subst; reflexivity).
    destruct m2; run_bind;
      destruct (SetNextValue E problem (current st)) as [[more next] | | |];
      reflexivity.
  - destruct (SetNextValue E problem (current st)) as [[more next] | | |];
      reflexivity.
Qed.

Lemma iterate_state (E : Installation) (ctx : ConvolutionContext)
    (problem : ProblemDescription) (visits : nat) :
  forall (st : SearchState) (handle handle' : Handle),
    Outcome_map (option_map fst) (iterate E visits ctx problem st handle)
    = Outcome_map (option_map fst) (iterate E visits ctx problem st handle').
Proof.
  induction visits as [|visits IH]; intros st handle handle'; simpl.
  - destruct (exhausted st); reflexivity.
  - destruct (exhausted st); [reflexivity|].
    pose proof (visit_state E ctx problem st handle handle') as Hvisit.
    destruct (visit E ctx problem st handle) as [[st1 h1] | | |],
      (visit E ctx problem st handle') as [[st2 h2] | | |];
      simpl in Hvisit; try discriminate; try (injection Hvisit as ->);
      run_bind; try (subst; reflexivity).
    apply IH.
Qed.

(** The winner of a search, or the way it fails, does not depend on the
    state of the stream handle it is started on. *)
Lemma Search_handle_independent (E : Installation) (ctx ctx' : ConvolutionContext)
    (problem : ProblemDescription) :
  Outcome_map fst (Search E ctx problem) = Outcome_map fst (Search E ctx' problem).
Proof.
  unfold Search.
  destruct (GetDefaultPerformanceConfig E problem) as [first | | |];
    run_bind; try reflexivity.
  destruct (empty (valid_kernels first)); [reflexivity|].
  pose proof (iterate_state E ctx problem (length (valid_kernels first))
                {| current := first; exhausted := false; best := None |}
                (GetStream ctx) (GetStream ctx')) as Hwalk.
  assert (Hctx : forall visits st handle,
            iterate E visits ctx problem st handle
            = iterate E visits ctx' problem st handle).
  { induction visits as [|visits IH]; intros st handle; [reflexivity|].
    simpl. destruct (exhausted st); [reflexivity|].
    assert (Hvisit : visit E ctx problem st handle = visit E ctx' problem st handle)
      by reflexivity.
    rewrite Hvisit. destruct (visit E ctx' problem st handle) as [[st1 h1] | | |];
      run_bind; try reflexivity. apply IH. }
  rewrite <- Hctx.
  destruct (iterate E _ ctx problem _ (GetStream ctx)) as [[[st1 h1] |] | | |],
    (iterate E _ ctx problem _ (GetStream ctx')) as [[[st2 h2] |] | | |];
    simpl in Hwalk; try discriminate; try (injection Hwalk as ->);
    run_bind; try (subst; reflexivity).
  destruct (best st2) as [[winner t] |]; reflexivity.
Qed.

(** What a visit leaves as current candidate is what [SetNextValue] made of
    the one before, and the walk is exhausted when it returned false. *)
Lemma visit_advances (E : Installation) (ctx : ConvolutionContext)
    (problem : ProblemDescription) (st st' : SearchState) (handle handle' : Handle) :
  visit E ctx problem st handle = Returns (st', handle') ->
  exists more : bool,
    SetNextValue E problem (current st) = Returns (more, current st')
    /\ exhausted st' = negb more.
Proof.
  unfold visit.
  destruct (IsValidPerformanceConfig E problem (current st)) as [[|] | | |];
    run_bind; try discriminate.
  - destruct (trial E ctx problem (current st) handle) as [[[t|] h1] | | |];
      run_bind; try discriminate;
      destruct (SetNextValue E problem (current st)) as [[more next] | | |];
      run_bind; try discriminate;
      intros [= <- _]; exists more; split; reflexivity.
  - destruct (SetNextValue E problem (current st)) as [[more next] | | |];
      run_bind; try discriminate;
      intros [= <- _]; exists more; split; reflexivity.
Qed.

(** A walk that stands on entry [i] of [i + n + 1] entries is exhausted
    within [n + 1] visits, unless it stops abnormally before. *)
Lemma iterate_exhausts (E : Installation) (ctx : ConvolutionContext)
    (problem : ProblemDescription) (n : nat) :
  forall (i : nat) (st : SearchState) (handle : Handle),
    index (current st) = Z.of_nat i ->
    (i + n + 1 = length (valid_kernels (current st)))%nat ->
    iterate E (S n) ctx problem st handle <> Returns None.
Proof.
  induction n as [|n IH]; intros i st handle Hindex Hlen;
    cbn [iterate]; (destruct (exhausted st); [discriminate|]);
    destruct (visit E ctx problem st handle) as [[st' handle'] | | |] eqn:Hvisit;
    run_bind; try discriminate;
    destruct (visit_advances E ctx problem st st' handle handle' Hvisit)
      as (more & Hnext & Hexhausted);
    unfold SetNextValue in Hnext;
    (destruct (valid_kernels (current st)) as [|k vk] eqn:Hvk;
       [simpl in Hlen; lia|]);
    cbn [empty] in Hnext; rewrite Hindex in Hnext.
  - assert (Hlast : int_lt_size (Z.of_nat i + 1) (length (k :: vk)) = false).
    { unfold int_lt_size. rewrite size_t_of_int_nonneg by lia.
      apply Z.ltb_ge. simpl in *. lia. }
    rewrite Hlast in Hnext. injection Hnext as <- _.
    rewrite Hexhausted. discriminate.
  - assert (Hmore : int_lt_size (Z.of_nat i + 1) (length (k :: vk)) = true).
    { unfold int_lt_size. rewrite size_t_of_int_nonneg by lia.
      apply Z.ltb_lt. simpl in *. lia. }
    rewrite Hmore in Hnext.
    destruct (subscript (k :: vk) (Z.of_nat i + 1)) as [id | | |];
      cbn [mbind Outcome_mbind Outcome_bind] in Hnext; try discriminate.
    injection Hnext as <- Hcurrent.
    apply (IH (S i)); rewrite <- Hcurrent; simpl in *; lia.
Qed.

(** The walk of [Search] visits one candidate per entry of [valid_kernels]
    and is exhausted then. *)
Lemma Search_walk_exhausts (E : Installation) (ctx : ConvolutionContext)
    (problem : ProblemDescription) (first : PerfConfig) :
  GetDefaultPerformanceConfig E problem = Returns first ->
  valid_kernels first <> [] ->
  iterate E (length (valid_kernels first)) ctx problem
    {| current := first; exhausted := false; best := None |} (GetStream ctx)
  <> Returns None.
Proof.
  intros Hfirst Hne.
  destruct (HeuristicInit_selects_first E problem default_constructed first
              eq_refl Hfirst Hne) as [Hindex _].
  destruct (valid_kernels first) as [|k vk] eqn:Hvk; [contradiction|].
  cbn [length].
  apply (iterate_exhausts E ctx problem (length vk) 0); simpl.
  - exact Hindex.
  - rewrite Hvk. simpl. lia.
Qed.

(** * Further properties of the cat solver *)

(** Rounding [num] up to a multiple of [align]. *)
Lemma round_up_bounds (num align : Z) :
  0 <= num -> 0 < align ->
  num <= (num + align - 1) / align * align < num + align
  /\ 0 <= (num + align - 1) / align.
Proof.
  intros Hnum Halign.
  pose proof (Z.mul_div_le (num + align - 1) align Halign).
  pose proof (Z.mul_succ_div_gt (num + align - 1) align Halign).
  split; [lia|]. apply Z.div_pos; lia.
Qed.

(** [AlignUp] without wrap-around. *)
Lemma AlignUp_fits (num align : Z) :
  0 <= num -> 0 < align -> num + align - 1 < 2 ^ 64 ->
  CatForward.AlignUp num align = Returns ((num + align - 1) / align * align).
Proof.
  intros Hnum Halign Hfits.
  destruct (round_up_bounds num align Hnum Halign) as [Hr Hq].
  unfold CatForward.AlignUp.
  rewrite (proj2 (Z.eqb_neq align 0)) by lia.
  rewrite (Z.mod_small (num + align - 1)) by lia.
  now rewrite Z.mod_small by lia.
Qed.

(** [AlignUp] returns the least multiple of [align] that is not below [num],
    as long as [num + align - 1] fits a [size_t]. *)
Theorem AlignUp_least_multiple (num align : Z) :
  0 <= num -> 0 < align -> num + align - 1 < 2 ^ 64 ->
  exists r : Z,
    CatForward.AlignUp num align = Returns r
    /\ (align | r)
    /\ num <= r < num + align
    /\ (forall m : Z, (align | m) -> num <= m -> r <= m).
Proof.
  intros Hnum Halign Hfits.
  destruct (round_up_bounds num align Hnum Halign) as [Hr Hq].
  exists ((num + align - 1) / align * align).
  split; [now apply AlignUp_fits|].
  split; [now exists ((num + align - 1) / align)|].
  split; [exact Hr|].
  intros m [k ->] Hm.
  assert ((num + align - 1) / align <= k) by nia.
  nia.
Qed.

Lemma AlignUp_least_multiple_sample :
  exists r : Z,
    CatForward.AlignUp 1000 256 = Returns r
    /\ (256 | r)
    /\ 1000 <= r < 1000 + 256
    /\ (forall m : Z, (256 | m) -> 1000 <= m -> r <= m).
Proof.
  apply AlignUp_least_multiple; lia.
Defined.

(** A [size_t] below [2 ^ 31] keeps its value as an [int]. *)
Lemma static_cast_int_small (v : Z) :
  0 <= v < 2 ^ 31 -> CatForward.static_cast_int v = v.
Proof.
  intros Hv. unfold CatForward.static_cast_int.
  rewrite Z.mod_small by lia. now rewrite (proj2 (Z.ltb_lt v (2 ^ 31))) by lia.
Qed.

(** An [int] made from a [size_t] is never above [INT_MAX]. *)
Lemma static_cast_int_range (v : Z) :
  - 2 ^ 31 <= CatForward.static_cast_int v < 2 ^ 31.
Proof.
  unfold CatForward.static_cast_int.
  pose proof (Z.mod_pos_bound v (2 ^ 32) ltac:(lia)) as Hr.
  destruct (Z.ltb_spec (v mod 2 ^ 32) (2 ^ 31)); lia.
Qed.

(** Where the largest input length along the concatenated dimension times
    the output stride is at least 1 and fits an [int], the leading output
    lengths multiply to at least 1 and at most [2 ^ 64 - 256], and eight
    times the compute units fit a [size_t], [GetSolution] finds work sizes:
    a work group of at most [LOCAL_SIZE] = 256 threads, at least one in each
    direction, and a grid that is a whole number of work groups in x and in
    y, of at least one group in x and of at least [outer_size] rows in y. *)
Theorem work_sizes_consistent (x_dim_size_max stride outer_size numCu : Z) :
  1 <= x_dim_size_max * stride < 2 ^ 31 ->
  1 <= outer_size <= 2 ^ 64 - 256 ->
  0 <= numCu * 8 < 2 ^ 64 ->
  exists xlocalsize ylocalsize xgridsize ygridsize : Z,
    CatForward.work_sizes x_dim_size_max stride outer_size numCu
    = Returns {| CatForward.l_wk := [xlocalsize; ylocalsize; 1];
                 CatForward.g_wk := [xgridsize; ygridsize; 1] |}
    /\ 1 <= xlocalsize <= 256
    /\ 1 <= ylocalsize
    /\ xlocalsize * ylocalsize <= 256
    /\ (xlocalsize | xgridsize)
    /\ (ylocalsize | ygridsize)
    /\ xlocalsize <= xgridsize
    /\ outer_size <= ygridsize.
Proof.
  intros Hproduct Houter HnumCu.
  set (product := x_dim_size_max * stride) in *.
  set (xl := Z.min product 256).
  set (yl := 256 / xl).
  assert (Hxl : 1 <= xl <= 256) by (subst xl; lia).
  assert (Hyl : 1 <= yl <= 256).
  { subst yl. split.
    - apply Z.div_le_lower_bound; lia.
    - apply Z.div_le_upper_bound; lia. }
  assert (Hwg : xl * yl <= 256) by (subst yl; apply Z.mul_div_le; lia).
  set (yg := (outer_size + yl - 1) / yl * yl).
  set (aligned := (product + xl - 1) / xl * xl).
  assert (Hyg : CatForward.AlignUp outer_size yl = Returns yg)
    by (apply AlignUp_fits; lia).
  assert (Hal : CatForward.AlignUp product xl = Returns aligned)
    by (apply AlignUp_fits; lia).
  assert (Hydiv : (yl | yg)) by (now exists ((outer_size + yl - 1) / yl)).
  assert (Hadiv : (xl | aligned)) by (now exists ((product + xl - 1) / xl)).
  destruct (round_up_bounds outer_size yl) as [Hybound _]; try lia. fold yg in Hybound.
  destruct (round_up_bounds product xl) as [Habound _]; try lia. fold aligned in Habound.
  assert (Hrows : 1 <= yg / yl).
  { destruct Hydiv as [k ->]. rewrite Z.div_mul by lia. nia. }
  set (groups := Z.max (CatForward.static_cast_int ((numCu * 8) mod 2 ^ 64 / (yg / yl))) 1).
  assert (Hgroups : 1 <= groups < 2 ^ 31).
  { subst groups. pose proof (static_cast_int_range ((numCu * 8) mod 2 ^ 64 / (yg / yl))).
    lia. }
  exists xl, yl, (Z.min (groups * xl) aligned), yg.
  unfold CatForward.work_sizes, cat.LOCAL_SIZE. fold product.
  rewrite (Z.mod_small product) by lia.
  rewrite (static_cast_int_small product) by lia. fold xl.
  rewrite (size_t_of_int_nonneg xl) by lia.
  rewrite (proj2 (Z.eqb_neq xl 0)) by lia. fold yl.
  rewrite (static_cast_int_small yl) by lia.
  rewrite (Z.max_l yl 1) by lia.
  rewrite (size_t_of_int_nonneg yl) by lia.
  rewrite Hyg. run_bind.
  rewrite (proj2 (Z.eqb_neq (yg / yl) 0)) by lia.
  fold groups. rewrite (size_t_of_int_nonneg groups) by lia.
  rewrite (Z.mod_small (groups * xl)) by nia.
  rewrite Hal. run_bind.
  repeat split; try lia.
  - destruct Hadiv as [k ->].
    destruct (Z.min_spec (groups * xl) (k * xl)) as [[_ ->] | [_ ->]];
      [exists groups | exists k]; reflexivity.
  - exact Hydiv.
  - apply Z.min_glb; [nia | lia].
Qed.

Lemma work_sizes_consistent_sample :
  exists xlocalsize ylocalsize xgridsize ygridsize : Z,
    CatForward.work_sizes 40 3 5000 120
    = Returns {| CatForward.l_wk := [xlocalsize; ylocalsize; 1];
                 CatForward.g_wk := [xgridsize; ygridsize; 1] |}
    /\ 1 <= xlocalsize <= 256
    /\ 1 <= ylocalsize
    /\ xlocalsize * ylocalsize <= 256
    /\ (xlocalsize | xgridsize)
    /\ (ylocalsize | ygridsize)
    /\ xlocalsize <= xgridsize
    /\ 5000 <= ygridsize.
Proof.
  apply work_sizes_consistent; lia.
Defined.

(** Where the largest input length along the concatenated dimension times
    the output stride is 0, or any other multiple of [2 ^ 32], the local
    size in x is 0 and [GetSolution] divides [LOCAL_SIZE] by it. *)
Theorem work_sizes_division_by_zero (x_dim_size_max stride outer_size numCu : Z) :
  (x_dim_size_max * stride) mod 2 ^ 32 = 0 ->
  CatForward.work_sizes x_dim_size_max stride outer_size numCu = Undefined.
Proof.
  intros Hzero. unfold CatForward.work_sizes, CatForward.static_cast_int.
  rewrite Z.mod_mod_divide by (exists (2 ^ 32); reflexivity).
  rewrite Hzero. reflexivity.
Qed.

Lemma work_sizes_division_by_zero_sample :
  CatForward.work_sizes 0 1 5000 120 = Undefined.
Proof.
  apply work_sizes_division_by_zero. reflexivity.
Defined.

(** The loop over the inputs, from input [i0] on with [acc] as the largest
    length so far. *)
Lemma x_dim_size_max_loop_from (shapes : CatForward.TensorShapes) (len : Z -> Z)
    (n : nat) :
  forall (i0 acc : Z),
    (forall i : Z, i0 <= i < i0 + Z.of_nat n ->
       subscript (CatForward.GetXDesc_GetLengths shapes i) (CatForward.GetDim shapes)
       = Returns (len i)) ->
    exists m : Z,
      CatForward.x_dim_size_max_loop n i0 shapes acc = Returns m
      /\ acc <= m
      /\ (forall i : Z, i0 <= i < i0 + Z.of_nat n -> len i <= m)
      /\ (m = acc \/ exists i : Z, i0 <= i < i0 + Z.of_nat n /\ m = len i).
Proof.
  induction n as [|n IH]; intros i0 acc Hlen.
  - exists acc. simpl. repeat split; lia.
  - cbn [CatForward.x_dim_size_max_loop].
    rewrite (Hlen i0) by lia. run_bind.
    destruct (IH (i0 + 1) (Z.max acc (len i0))) as (m & Hm & Hacc & Hall & Hsome).
    { intros i Hi. apply Hlen. lia. }
    exists m. repeat split; try assumption; try lia.
    + intros i Hi. destruct (Z.eq_dec i i0) as [-> | Hne]; [lia|].
      apply Hall. lia.
    + destruct Hsome as [Hsame | (i & Hi & Hm')].
      * destruct (Z.max_spec acc (len i0)) as [[_ Hmax] | [_ Hmax]];
          rewrite Hmax in Hsame; [right; exists i0; split; [lia | assumption]
                                 | now left].
      * right. exists i. split; [lia | assumption].
Qed.

(** Over inputs whose lengths all reach the concatenated dimension, the
    first loop of [GetSolution] finds the largest of the lengths of inputs
    0 to [xCount - 1] along that dimension, or 0 where none is positive or
    there is no input. *)
Theorem x_dim_size_max_is_largest (shapes : CatForward.TensorShapes) (len : Z -> Z)
    (xCount : Z) :
  (forall i : Z, 0 <= i < xCount ->
     subscript (CatForward.GetXDesc_GetLengths shapes i) (CatForward.GetDim shapes)
     = Returns (len i)) ->
  exists m : Z,
    CatForward.x_dim_size_max_loop (Z.to_nat xCount) 0 shapes 0 = Returns m
    /\ 0 <= m
    /\ (forall i : Z, 0 <= i < xCount -> len i <= m)
    /\ (m = 0 \/ exists i : Z, 0 <= i < xCount /\ m = len i).
Proof.
  intros Hlen.
  destruct (x_dim_size_max_loop_from shapes len (Z.to_nat xCount) 0 0)
    as (m & Hm & Hacc & Hall & Hsome).
  { intros i Hi. apply Hlen. lia. }
  exists m. repeat split; try assumption.
  - intros i Hi. apply Hall. lia.
  - destruct Hsome as [-> | (i & Hi & ->)]; [now left|].
    right. exists i. split; [lia | reflexivity].
Qed.

(** Without an input tensor, a tensor count of 0 or below, the largest
    length stays 0 and [GetSolution] has no defined behaviour: it divides
    by a local size of 0, if it gets that far. *)
Theorem GetSolution_without_inputs (GetMaxComputeUnits : Z)
    (problem : cat.ProblemDescription) (shapes : CatForward.TensorShapes) :
  cat.GetXCount problem <= 0 ->
  CatForward.GetSolution GetMaxComputeUnits problem shapes = Undefined.
Proof.
  intros Hnone. unfold CatForward.GetSolution, CatForward.launch_geometry.
  replace (Z.to_nat (cat.GetXCount problem)) with 0%nat by lia.
  unfold subscript. destruct (_ !! _); [|reflexivity]. run_bind.
  cbn [CatForward.x_dim_size_max_loop]. run_bind.
  unfold CatForward.outer_size_of. destruct (_ || _); [reflexivity|]. run_bind.
  unfold CatForward.work_sizes. rewrite Z.mul_0_l. reflexivity.
Qed.

(** From [2 ^ k], the doubling loop stops at the first power of two that
    is not below [xCount], and overflows where there is none up to
    [2 ^ 30]. *)
Lemma fusion_loop_from_power (n : nat) :
  forall (k xCount : Z),
    1 <= k -> k + Z.of_nat n = 30 ->
    (xCount <= 2 ^ 30 ->
     exists k' : Z,
       k <= k' <= 30
       /\ cat.fusion_loop (2 ^ k) xCount = Returns (2 ^ k')
       /\ xCount <= 2 ^ k'
       /\ (k' = k \/ 2 ^ (k' - 1) < xCount))
    /\ (2 ^ 30 < xCount -> cat.fusion_loop (2 ^ k) xCount = Undefined).
Proof.
  induction n as [|n IH]; intros k xCount Hk Hn.
  - assert (k = 30) by lia. subst k. split.
    + intros Hle. exists 30. rewrite fusion_loop_unfold.
      rewrite (proj2 (Z.ltb_ge (2 ^ 30) xCount)) by lia.
      repeat split; lia.
    + intros Hgt. rewrite fusion_loop_unfold.
      rewrite (proj2 (Z.ltb_lt (2 ^ 30) xCount)) by lia. reflexivity.
  - assert (Hpow : 2 <= 2 ^ k <= 2 ^ 29).
    { split; [change 2 with (2 ^ 1) at 1|]; apply Z.pow_le_mono_r; lia. }
    assert (Hnext : 2 ^ (k + 1) = 2 ^ k * 2) by (rewrite Z.pow_add_r by lia; reflexivity).
    destruct (IH (k + 1) xCount) as [IHle IHgt]; [lia | lia |].
    assert (Hstep : 2 ^ k < xCount ->
                    cat.fusion_loop (2 ^ k) xCount = cat.fusion_loop (2 ^ (k + 1)) xCount).
    { intros Hlt. rewrite (fusion_loop_unfold (2 ^ k)).
      rewrite (proj2 (Z.ltb_lt _ _) Hlt), (proj2 (Z.leb_gt _ _)) by lia.
      rewrite (proj2 (Z.ltb_ge INT_MAX (2 ^ k * 2))) by (unfold INT_MAX; lia).
      now rewrite Hnext. }
    split.
    + intros Hle. destruct (Z_lt_dec (2 ^ k) xCount) as [Hlt | Hge].
      * destruct (IHle Hle) as (k' & Hk' & Hloop & Hbound & Hleast).
        exists k'. rewrite (Hstep Hlt). repeat split; try assumption; try lia.
        right. destruct Hleast as [-> | Hleast]; [|assumption].
        now replace (k + 1 - 1) with k by lia.
      * exists k. rewrite fusion_loop_unfold.
        rewrite (proj2 (Z.ltb_ge (2 ^ k) xCount)) by lia.
        repeat split; lia.
    + intros Hgt. rewrite Hstep by lia. now apply IHgt.
Qed.

(** For every tensor count up to [2 ^ 30], the doubling loop of
    [GetSolution] returns the least power of two that is at least the
    tensor count and at least 2, between [2 ^ 1] and [2 ^ 30]; for a larger
    tensor count the doubling overflows [int]. *)
Theorem fusion_loop_least_power_of_two (xCount : Z) :
  (xCount <= 2 ^ 30 ->
   exists k : Z,
     1 <= k <= 30
     /\ cat.fusion_loop 2 xCount = Returns (2 ^ k)
     /\ xCount <= 2 ^ k
     /\ (k = 1 \/ 2 ^ (k - 1) < xCount))
  /\ (2 ^ 30 < xCount -> cat.fusion_loop 2 xCount = Undefined).
Proof.
  change 2 with (2 ^ 1) at 3 6.
  apply (fusion_loop_from_power 29 1 xCount); lia.
Qed.

Lemma fusion_loop_least_power_of_two_sample :
  (exists k : Z,
     1 <= k <= 30
     /\ cat.fusion_loop 2 100 = Returns (2 ^ k)
     /\ 100 <= 2 ^ k
     /\ (k = 1 \/ 2 ^ (k - 1) < 100))
  /\ cat.fusion_loop 2 (2 ^ 30 + 1) = Undefined.
Proof.
  split.
  - apply (proj1 (fusion_loop_least_power_of_two 100)). lia.
  - apply (proj2 (fusion_loop_least_power_of_two (2 ^ 30 + 1))). lia.
Defined.

(** The names of the three kernels are the names of the fusion widths 2, 4
    and 8, and of no other power of two. *)
Lemma kernel_name_of_power (k : Z) :
  1 <= k ->
  cat.kernel_name_of (2 ^ k)
  = if k =? 1 then "Cat2FwdPacked"
    else if k =? 2 then "Cat4FwdPacked"
    else if k =? 3 then "Cat8FwdPacked"
    else EmptyString.
Proof.
  intros Hk.
  destruct (Z.eqb_spec k 1) as [-> | H1]; [reflexivity|].
  destruct (Z.eqb_spec k 2) as [-> | H2]; [reflexivity|].
  destruct (Z.eqb_spec k 3) as [-> | H3]; [reflexivity|].
  assert (Hwide : 2 ^ 4 <= 2 ^ k) by (apply Z.pow_le_mono_r; lia).
  unfold cat.kernel_name_of.
  rewrite !(proj2 (Z.eqb_neq (2 ^ k) _)) by lia. reflexivity.
Qed.

(** Whenever [CatForward::IsApplicable] returns true and the launch
    geometry of the problem is defined, [GetSolution] returns a kernel with
    one of the three names: the tensor count is at most 8, so the switch
    never falls through to its default. *)
Theorem cat_applicable_names_kernel {ExecutionContext : Type} (context : ExecutionContext)
    (GetMaxComputeUnits : Z) (problem : cat.ProblemDescription)
    (shapes : CatForward.TensorShapes) (sizes : CatForward.WorkSizes) :
  cat.IsApplicable context problem = Returns true ->
  CatForward.launch_geometry GetMaxComputeUnits problem shapes = Returns sizes ->
  exists name : string,
    CatForward.GetSolution GetMaxComputeUnits problem shapes
    = Returns {| CatForward.comp_options :=
                   CatForward.build_params (CatForward.GetYDesc_GetType shapes);
                 CatForward.work := sizes;
                 CatForward.kernel :=
                   {| cat.kernel_file := "MIOpenCat.cpp"; cat.kernel_name := name |} |}
    /\ (name = "Cat2FwdPacked" \/ name = "Cat4FwdPacked" \/ name = "Cat8FwdPacked").
Proof.
  unfold cat.IsApplicable, cat.IsUnderXCountLimit, cat.MAX_TENSOR_X_COUNT.
  destruct (Z.ltb_spec 8 (cat.GetXCount problem)) as [|Hlimit]; [discriminate|].
  intros _ Hgeometry. unfold CatForward.GetSolution. rewrite Hgeometry. run_bind.
  destruct (proj1 (fusion_loop_from_power 29 1 (cat.GetXCount problem)
                     ltac:(lia) ltac:(lia)) ltac:(lia))
    as (k & Hk & Hloop & Hbound & Hleast).
  change (2 ^ 1) with 2 in Hloop. rewrite Hloop. run_bind.
  assert (Hk3 : k <= 3).
  { destruct Hleast as [-> | Hleast]; [lia|].
    destruct (Z_le_dec k 3); [assumption|]. exfalso.
    assert (2 ^ 3 <= 2 ^ (k - 1)) by (apply Z.pow_le_mono_r; lia). lia. }
  rewrite kernel_name_of_power by lia.
  assert (Hcases : k = 1 \/ k = 2 \/ k = 3) by lia.
  destruct Hcases as [-> | [-> | ->]]; eexists; (split; [reflexivity|]); auto.
Qed.

Lemma cat_applicable_names_kernel_sample :
  exists name : string,
    CatForward.GetSolution 120 samples.three_tensors more_samples.shapes
    = Returns {| CatForward.comp_options :=
                   CatForward.build_params
                     (CatForward.GetYDesc_GetType more_samples.shapes);
                 CatForward.work := more_samples.sample_work_sizes;
                 CatForward.kernel :=
                   {| cat.kernel_file := "MIOpenCat.cpp"; cat.kernel_name := name |} |}
    /\ (name = "Cat2FwdPacked" \/ name = "Cat4FwdPacked" \/ name = "Cat8FwdPacked").
Proof.
  apply (cat_applicable_names_kernel tt 120 samples.three_tensors more_samples.shapes
           more_samples.sample_work_sizes); reflexivity.
Defined.

(** For more than 8 tensors, up to [2 ^ 30], and a defined launch geometry,
    [GetSolution] returns a kernel without a name: the fusion width is 16
    or more, and the switch has no case for it. *)
Theorem cat_GetSolution_unnamed_above_eight (GetMaxComputeUnits : Z)
    (problem : cat.ProblemDescription) (shapes : CatForward.TensorShapes)
    (sizes : CatForward.WorkSizes) :
  8 < cat.GetXCount problem <= 2 ^ 30 ->
  CatForward.launch_geometry GetMaxComputeUnits problem shapes = Returns sizes ->
  CatForward.GetSolution GetMaxComputeUnits problem shapes
  = Returns {| CatForward.comp_options :=
                 CatForward.build_params (CatForward.GetYDesc_GetType shapes);
               CatForward.work := sizes;
               CatForward.kernel :=
                 {| cat.kernel_file := "MIOpenCat.cpp";
                    cat.kernel_name := EmptyString |} |}.
Proof.
  intros Hcount Hgeometry. unfold CatForward.GetSolution. rewrite Hgeometry. run_bind.
  destruct (proj1 (fusion_loop_from_power 29 1 (cat.GetXCount problem)
                     ltac:(lia) ltac:(lia)) ltac:(lia))
    as (k & Hk & Hloop & Hbound & Hleast).
  change (2 ^ 1) with 2 in Hloop. rewrite Hloop. run_bind.
  assert (Hk4 : 4 <= k).
  { destruct (Z_le_dec 4 k); [assumption|]. exfalso.
    assert (2 ^ k <= 2 ^ 3) by (apply Z.pow_le_mono_r; lia). lia. }
  rewrite kernel_name_of_power by lia.
  rewrite !(proj2 (Z.eqb_neq k _)) by lia. reflexivity.
Qed.

Lemma cat_GetSolution_unnamed_above_eight_sample :
  CatForward.GetSolution 120 samples.nine_tensors more_samples.shapes
  = Returns {| CatForward.comp_options :=
                 CatForward.build_params
                   (CatForward.GetYDesc_GetType more_samples.shapes);
               CatForward.work := more_samples.sample_work_sizes;
               CatForward.kernel :=
                 {| cat.kernel_file := "MIOpenCat.cpp";
                    cat.kernel_name := EmptyString |} |}.
Proof.
  apply cat_GetSolution_unnamed_above_eight.
  - simpl. lia.
  - reflexivity.
Defined.

Lemma x_dim_size_max_is_largest_sample :
  exists m : Z,
    CatForward.x_dim_size_max_loop (Z.to_nat 3) 0 more_samples.shapes 0 = Returns m
    /\ 0 <= m
    /\ (forall i : Z, 0 <= i < 3 -> more_samples.lengths_along_dim i <= m)
    /\ (m = 0 \/ exists i : Z, 0 <= i < 3 /\ m = more_samples.lengths_along_dim i).
Proof.
  apply (x_dim_size_max_is_largest more_samples.shapes more_samples.lengths_along_dim 3).
  intros i Hi. assert (Hcases : i = 0 \/ i = 1 \/ i = 2) by lia.
  destruct Hcases as [-> | [-> | ->]]; reflexivity.
Defined.

Lemma GetSolution_without_inputs_sample :
  CatForward.GetSolution 120 more_samples.no_tensors more_samples.shapes = Undefined.
Proof.
  apply GetSolution_without_inputs. simpl. lia.
Defined.

(** * Further properties of the grouped forward xdlops solver *)

(** ** The arguments handed to the backing library *)

Lemma product_app (l1 l2 : list Z) : product (l1 ++ l2) = product l1 * product l2.
Proof.
  induction l1 as [|x l1 IH]; simpl.
  - now destruct (product l2).
  - fold (product (l1 ++ l2)). fold (product l1). rewrite IH. ring.
Qed.

Lemma product_rev (l : list Z) : product (rev l) = product l.
Proof.
  induction l as [|x l IH]; [reflexivity|].
  simpl rev. rewrite product_app, IH. simpl. fold (product l). ring.
Qed.

(** An [int] keeps its value. *)
Lemma index_t_of_small (v : Z) : - 2 ^ 31 <= v < 2 ^ 31 -> index_t_of v = v.
Proof.
  intros Hv. unfold index_t_of.
  destruct (Z_lt_dec v 0) as [Hneg | Hpos].
  - assert (Hmod : v mod 2 ^ 32 = v + 2 ^ 32).
    { symmetry. apply (Z.mod_unique_pos v (2 ^ 32) (-1)); lia. }
    rewrite Hmod, (proj2 (Z.ltb_ge (v + 2 ^ 32) (2 ^ 31))) by lia. lia.
  - rewrite Z.mod_small by lia. now rewrite (proj2 (Z.ltb_lt v (2 ^ 31))) by lia.
Qed.

(** What an [int] holds depends on the low 32 bits only. *)
Lemma index_t_of_low_bits (v w : Z) :
  v mod 2 ^ 32 = w mod 2 ^ 32 -> index_t_of v = index_t_of w.
Proof. intros Hbits. unfold index_t_of. now rewrite Hbits. Qed.

Lemma index_t_of_mod (v : Z) : index_t_of v mod 2 ^ 32 = v mod 2 ^ 32.
Proof.
  unfold index_t_of.
  pose proof (Z.mod_pos_bound v (2 ^ 32) ltac:(lia)) as Hr.
  destruct (v mod 2 ^ 32 <? 2 ^ 31).
  - now rewrite Z.mod_mod by lia.
  - replace (v mod 2 ^ 32 - 2 ^ 32) with (v mod 2 ^ 32 + (-1) * 2 ^ 32) by lia.
    rewrite Z.mod_add by lia. now rewrite Z.mod_mod by lia.
Qed.

(** A product taken in [int] has the low bits of the product of what its
    first factor stands for. *)
Lemma index_t_mul_low_bits (acc P x : Z) :
  acc mod 2 ^ 32 = P mod 2 ^ 32 ->
  index_t_mul acc x mod 2 ^ 32 = (P * x) mod 2 ^ 32.
Proof.
  intros Hbits. unfold index_t_mul. rewrite index_t_of_mod.
  rewrite <- (Z.mul_mod_idemp_l acc), Hbits, Z.mul_mod_idemp_l by lia. reflexivity.
Qed.

(** The last running product, after one more input. *)
Lemma partial_sum_from_snoc (l : list Z) (y : Z) :
  forall acc P : Z,
    acc mod 2 ^ 32 = P mod 2 ^ 32 ->
    partial_sum_from acc (l ++ [y])
    = (partial_sum_from acc l ++ [index_t_of (P * product (l ++ [y]))])%list.
Proof.
  induction l as [|x l IH]; intros acc P Hbits.
  - cbn [app partial_sum_from product fold_right]. f_equal.
    apply index_t_of_low_bits. rewrite Z.mul_1_r.
    rewrite <- (Z.mul_mod_idemp_l acc), Hbits, Z.mul_mod_idemp_l by lia. reflexivity.
  - cbn [app partial_sum_from]. f_equal.
    rewrite (IH (index_t_mul acc x) (P * x)) by now apply index_t_mul_low_bits.
    do 3 f_equal. cbn [product fold_right]. fold (product (l ++ [y])). ring.
Qed.

Lemma partial_sum_multiplies_snoc (l : list Z) (y : Z) :
  Forall (fun len => - 2 ^ 31 <= len < 2 ^ 31) (l ++ [y]) ->
  partial_sum_multiplies (l ++ [y])
  = (partial_sum_multiplies l ++ [index_t_of (product (l ++ [y]))])%list.
Proof.
  intros Hints. destruct l as [|x l].
  - cbn [app partial_sum_multiplies product fold_right].
    rewrite Z.mul_1_r, index_t_of_small; [reflexivity|].
    now apply Forall_inv in Hints.
  - cbn [app partial_sum_multiplies]. f_equal.
    rewrite (partial_sum_from_snoc l y x x eq_refl).
    cbn [product fold_right]. reflexivity.
Qed.

(** The strides of a tensor with one more leading length: what an [int]
    holds for the number of elements behind it, then the strides of the
    rest. *)
Lemma packed_strides_cons (x y : Z) (rest : list Z) :
  Forall (fun len => - 2 ^ 31 <= len < 2 ^ 31) (y :: rest) ->
  packed_strides (x :: y :: rest)
  = index_t_of (product (y :: rest)) :: packed_strides (y :: rest).
Proof.
  intros Hints. unfold packed_strides.
  change (rev (x :: y :: rest)) with ((rev rest ++ [y]) ++ [x])%list.
  rewrite removelast_last.
  change (rev (y :: rest)) with (rev rest ++ [y])%list.
  rewrite removelast_last, partial_sum_multiplies_snoc.
  - change (1 :: (?a ++ [?z])%list) with ((1 :: a) ++ [z])%list.
    rewrite (rev_app_distr (1 :: _) [_]). cbn [rev app].
    f_equal. f_equal. rewrite product_app, product_rev. simpl. fold (product rest). ring.
  - change (rev rest ++ [y])%list with (rev (y :: rest)).
    now apply List.Forall_rev.
Qed.

(** For [int] lengths of any rank, entry [i] of the strides
    [std::partial_sum] writes is what an [int] holds for the product of the
    lengths behind position [i]; where that product is itself an [int], the
    entry is the product: the stride of a packed tensor, 1 for the last
    dimension. *)
Theorem packed_strides_are_suffix_products (lens : list Z) (i : nat) :
  Forall (fun len => - 2 ^ 31 <= len < 2 ^ 31) lens ->
  (i < length lens)%nat ->
  packed_strides lens !! i = Some (index_t_of (product (drop (S i) lens)))
  /\ (- 2 ^ 31 <= product (drop (S i) lens) < 2 ^ 31 ->
      packed_strides lens !! i = Some (product (drop (S i) lens))).
Proof.
  intros Hints Hi.
  assert (Hentry : packed_strides lens !! i
                   = Some (index_t_of (product (drop (S i) lens)))).
  { revert i Hi. induction lens as [|x lens IH]; intros i Hi; [simpl in Hi; lia|].
    apply Forall_inv_tail in Hints as Htail.
    destruct lens as [|y rest].
    - destruct i; [reflexivity | simpl in Hi; lia].
    - rewrite packed_strides_cons by exact Htail.
      destruct i as [|i]; [reflexivity|].
      simpl in Hi. cbn [lookup list_lookup drop]. apply (IH Htail i). simpl. lia. }
  split; [exact Hentry|].
  intros Hfits. now rewrite Hentry, index_t_of_small.
Qed.

Lemma packed_strides_are_suffix_products_sample :
  packed_strides [2; 4; 28; 28; 8] !! 1%nat = Some (index_t_of (product [28; 28; 8]))
  /\ (- 2 ^ 31 <= product [28; 28; 8] < 2 ^ 31 ->
      packed_strides [2; 4; 28; 28; 8] !! 1%nat = Some (product [28; 28; 8])).
Proof.
  apply (packed_strides_are_suffix_products [2; 4; 28; 28; 8] 1).
  - repeat constructor; lia.
  - simpl. lia.
Defined.

(** The stride of the batch dimension of a tensor of more than [INT_MAX]
    elements is not the number of elements of an image. *)
Example packed_strides_of_large_batch :
  product (tail more_samples.large_batch) = 3288334336
  /\ packed_strides more_samples.large_batch = [-1006632960; 12845056; 57344; 256; 1].
Proof. split; reflexivity. Qed.

(** The packed strides of five lengths that fit. *)
Lemma packed_strides_fit (a b c d e : Z) :
  strides_fit [a; b; c; d; e] ->
  packed_strides [a; b; c; d; e] = [b * c * d * e; c * d * e; d * e; e; 1].
Proof.
  intros [Hlens Hproduct].
  repeat match goal with
         | H : Forall _ (_ :: _) |- _ =>
             let Hhead := fresh "Hlen" in
             apply Forall_cons in H; destruct H as [Hhead H]
         end.
  cbn [tail product fold_right] in Hproduct. unfold INT_MAX in *.
  assert (Hde : 1 <= d * e <= 2147483647) by nia.
  assert (Hcde : 1 <= c * (d * e) <= 2147483647) by nia.
  assert (Hbcde : 1 <= b * (c * (d * e)) <= 2147483647) by nia.
  unfold packed_strides.
  cbn [rev app removelast partial_sum_multiplies partial_sum_from].
  unfold index_t_mul.
  rewrite (index_t_of_small (e * d)) by lia.
  rewrite (index_t_of_small (e * d * c)) by lia.
  rewrite (index_t_of_small (e * d * c * b)) by lia.
  f_equal; [ring|]. f_equal; [ring|]. f_equal. ring.
Qed.

(** For a problem whose three tensors have strides that fit
    [ck::index_t], the arguments [CKArgsGFwd] packs describe the tensors as
    the backing library indexes them, group, batch or filter, channel,
    height, width, while the elements stay where the packed layouts
    G-N-H-W-C of input and output and G-K-Y-X-C of the weights put them: the
    offset computed from the strides is the packed offset, with the channel
    as the fastest dimension. *)
Theorem CKArgsGFwd_layout (problem : ProblemDescription) (g n k c h w y x : Z) :
  let args := make_CKArgsGFwd problem in
  let G := GetGroupCountG problem in
  let N := GetBatchN problem in
  let K := GetOutputChannelK problem in
  let C := GetInputChannelC problem in
  strides_fit [G; N; GetInputHeightHi problem; GetInputWidthWi problem; C] ->
  strides_fit [G; K; GetFilterHeightY problem; GetFilterWidthX problem; C] ->
  strides_fit [G; N; GetOutputHeightHo problem; GetOutputWidthWo problem; K] ->
  input args = [G; N; C; GetInputHeightHi problem; GetInputWidthWi problem]
  /\ element_offset [g; n; c; h; w] (in_strides args)
     = (((g * N + n) * GetInputHeightHi problem + h) * GetInputWidthWi problem + w) * C + c
  /\ weight args = [G; K; C; GetFilterHeightY problem; GetFilterWidthX problem]
  /\ element_offset [g; k; c; y; x] (wei_strides args)
     = (((g * K + k) * GetFilterHeightY problem + y) * GetFilterWidthX problem + x) * C + c
  /\ output args = [G; N; K; GetOutputHeightHo problem; GetOutputWidthWo problem]
  /\ element_offset [g; n; k; h; w] (out_strides args)
     = (((g * N + n) * GetOutputHeightHo problem + h) * GetOutputWidthWo problem + w) * K + k.
Proof.
  intros args G N K C Hin Hwei Hout.
  subst args. unfold make_CKArgsGFwd.
  cbn [input in_strides weight wei_strides output out_strides].
  fold G N K C.
  rewrite (packed_strides_fit _ _ _ _ _ Hin), (packed_strides_fit _ _ _ _ _ Hwei),
    (packed_strides_fit _ _ _ _ _ Hout).
  unfold element_offset, rotate_last3.
  cbn -[Z.mul Z.add]. repeat split; ring.
Qed.

Lemma CKArgsGFwd_layout_sample :
  input (make_CKArgsGFwd (samples.conv3x3 miopenHalf)) = [2; 4; 8; 28; 28]
  /\ element_offset [1; 3; 5; 20; 10] (in_strides (make_CKArgsGFwd (samples.conv3x3 miopenHalf)))
     = (((1 * 4 + 3) * 28 + 20) * 28 + 10) * 8 + 5
  /\ weight (make_CKArgsGFwd (samples.conv3x3 miopenHalf)) = [2; 16; 8; 3; 3]
  /\ element_offset [1; 9; 5; 2; 1] (wei_strides (make_CKArgsGFwd (samples.conv3x3 miopenHalf)))
     = (((1 * 16 + 9) * 3 + 2) * 3 + 1) * 8 + 5
  /\ output (make_CKArgsGFwd (samples.conv3x3 miopenHalf)) = [2; 4; 16; 28; 28]
  /\ element_offset [1; 3; 9; 20; 10] (out_strides (make_CKArgsGFwd (samples.conv3x3 miopenHalf)))
     = (((1 * 4 + 3) * 28 + 20) * 28 + 10) * 16 + 9.
Proof.
  apply (CKArgsGFwd_layout (samples.conv3x3 miopenHalf) 1 3 9 5 20 10 2 1);
    (split; [repeat constructor; unfold INT_MAX; simpl; lia
            | unfold INT_MAX; simpl; lia]).
Defined.

Example CKArgsGFwd_of_sample_convolution :
  input (make_CKArgsGFwd (samples.conv3x3 miopenHalf)) = [2; 4; 8; 28; 28]
  /\ in_strides (make_CKArgsGFwd (samples.conv3x3 miopenHalf)) = [25088; 6272; 1; 224; 8].
Proof. split; reflexivity. Qed.

(** ** Heuristic initialization *)

(** From the default-constructed configuration, [Init] returns exactly when
    some instance supports the arguments: [valid_kernels] are then the type
    strings of the supporting instances, in the order of the library, and
    the first of them is selected.  When no instance does, or the library
    has none, [Init] stops at an [assert], or reads the first element of an
    empty list where assertions are compiled out. *)
Theorem Init_outcome (E : Installation) (T : DataType) (problem : ProblemDescription) :
  Init E T problem default_constructed =
  match List.filter (fun p => IsSupportedArgument p (make_CKArgsGFwd problem))
          (GetInstances E T) with
  | p :: ps =>
      Returns {| index := 0; kernel_id := GetTypeString p;
                 valid_kernels := map GetTypeString (p :: ps) |}
  | [] => if NDEBUG E then Undefined else AssertFails
  end.
Proof.
  unfold Init. cbn [valid_kernels default_constructed].
  rewrite Init_loop_filter. cbn [app].
  destruct (GetInstances E T) as [|q qs] eqn:Hptrs.
  - cbn [List.filter map empty negb]. unfold assert_.
    destruct (NDEBUG E); reflexivity.
  - cbn [empty negb]. rewrite assert_holds. run_bind.
    destruct (List.filter _ (q :: qs)) as [|p ps].
    + cbn [map empty negb]. unfold assert_. destruct (NDEBUG E); reflexivity.
    + cbn [map empty negb]. rewrite assert_holds. reflexivity.
Qed.

(** [Init] on a configuration that already holds kernels keeps them in
    front and appends the type strings of the supporting instances behind
    them; it rewinds the configuration to the first kernel it held. *)
Theorem Init_appends (E : Installation) (T : DataType) (problem : ProblemDescription)
    (this first : PerfConfig) (k : string) (vk : list string) :
  valid_kernels this = k :: vk ->
  Init E T problem this = Returns first ->
  index first = 0
  /\ kernel_id first = k
  /\ valid_kernels first
     = ((k :: vk)
        ++ map GetTypeString
             (List.filter (fun p => IsSupportedArgument p (make_CKArgsGFwd problem))
                (GetInstances E T)))%list.
Proof.
  intros Hheld Hinit.
  destruct (Init_returns E T problem this first Hinit) as (Hvk & Hindex & Hfirst).
  rewrite Init_loop_filter, Hheld in Hvk.
  rewrite Hvk in Hfirst. cbn in Hfirst. injection Hfirst as <-.
  repeat split; assumption.
Qed.

Lemma Init_appends_sample :
  index {| index := 0;
           kernel_id := "DeviceGroupedConvFwdMultipleD_Xdl_CShuffle<128, 128, 64, 32>";
           valid_kernels :=
             ["DeviceGroupedConvFwdMultipleD_Xdl_CShuffle<128, 128, 64, 32>";
              "DeviceGroupedConvFwdMultipleD_Xdl_CShuffle<64, 64, 32, 32>";
              "DeviceGroupedConvFwdMultipleD_Xdl_CShuffle<128, 128, 64, 32>";
              "DeviceGroupedConvFwdMultipleD_Xdl_CShuffle<64, 64, 32, 32>"] |} = 0
  /\ kernel_id {| index := 0;
           kernel_id := "DeviceGroupedConvFwdMultipleD_Xdl_CShuffle<128, 128, 64, 32>";
           valid_kernels :=
             ["DeviceGroupedConvFwdMultipleD_Xdl_CShuffle<128, 128, 64, 32>";
              "DeviceGroupedConvFwdMultipleD_Xdl_CShuffle<64, 64, 32, 32>";
              "DeviceGroupedConvFwdMultipleD_Xdl_CShuffle<128, 128, 64, 32>";
              "DeviceGroupedConvFwdMultipleD_Xdl_CShuffle<64, 64, 32, 32>"] |}
     = "DeviceGroupedConvFwdMultipleD_Xdl_CShuffle<128, 128, 64, 32>"
  /\ valid_kernels {| index := 0;
           kernel_id := "DeviceGroupedConvFwdMultipleD_Xdl_CShuffle<128, 128, 64, 32>";
           valid_kernels :=
             ["DeviceGroupedConvFwdMultipleD_Xdl_CShuffle<128, 128, 64, 32>";
              "DeviceGroupedConvFwdMultipleD_Xdl_CShuffle<64, 64, 32, 32>";
              "DeviceGroupedConvFwdMultipleD_Xdl_CShuffle<128, 128, 64, 32>";
              "DeviceGroupedConvFwdMultipleD_Xdl_CShuffle<64, 64, 32, 32>"] |}
     = (["DeviceGroupedConvFwdMultipleD_Xdl_CShuffle<128, 128, 64, 32>";
         "DeviceGroupedConvFwdMultipleD_Xdl_CShuffle<64, 64, 32, 32>"]
        ++ map GetTypeString
             (List.filter
                (fun p => IsSupportedArgument p (make_CKArgsGFwd (samples.conv3x3 miopenHalf)))
                (GetInstances (samples.installation false samples.three_instances)
                   ck_half_t)))%list.
Proof.
  apply (Init_appends (samples.installation false samples.three_instances) ck_half_t
           (samples.conv3x3 miopenHalf) more_samples.first_config); reflexivity.
Defined.

(** ** Stepping through the configurations *)

(** [SetNextValue] returns true on a configuration without kernels; on one
    that holds kernels it never changes [valid_kernels], moves [index]
    forward by exactly one when it returns true, and leaves the configuration
    untouched when it returns false; after it has returned false it returns
    false again. *)
Theorem SetNextValue_steps (E : Installation) (problem : ProblemDescription)
    (this this' : PerfConfig) (more : bool) :
  SetNextValue E problem this = Returns (more, this') ->
  (valid_kernels this = [] -> more = true)
  /\ (valid_kernels this <> [] -> valid_kernels this' = valid_kernels this)
  /\ (valid_kernels this <> [] -> more = true -> index this' = index this + 1)
  /\ (more = false ->
      this' = this /\ SetNextValue E problem this' = Returns (false, this')).
Proof.
  intros Hcall. pose proof Hcall as Hagain. unfold SetNextValue in Hcall.
  destruct (valid_kernels this) as [|k vk] eqn:Hvk; cbn [empty] in Hcall.
  - destruct (HeuristicInit E problem this) as [init | | |]; simpl in Hcall;
      try discriminate.
    destruct (assert_ E _) as [[] | | |]; simpl in Hcall; try discriminate.
    injection Hcall as <- <-. repeat split; try congruence.
  - destruct (int_lt_size (index this + 1) (length (k :: vk))).
    + destruct (subscript (k :: vk) (index this + 1)) as [id | | |];
        simpl in Hcall; try discriminate.
      injection Hcall as <- <-. repeat split; try congruence; try reflexivity.
    + injection Hcall as <- <-. repeat split; try congruence.
Qed.

Lemma SetNextValue_steps_sample :
  (valid_kernels more_samples.first_config = [] -> true = true)
  /\ (valid_kernels more_samples.first_config <> [] ->
      valid_kernels
        {| index := 1;
           kernel_id := "DeviceGroupedConvFwdMultipleD_Xdl_CShuffle<64, 64, 32, 32>";
           valid_kernels := valid_kernels more_samples.first_config |}
      = valid_kernels more_samples.first_config)
  /\ (valid_kernels more_samples.first_config <> [] -> true = true ->
      index
        {| index := 1;
           kernel_id := "DeviceGroupedConvFwdMultipleD_Xdl_CShuffle<64, 64, 32, 32>";
           valid_kernels := valid_kernels more_samples.first_config |}
      = index more_samples.first_config + 1)
  /\ (true = false ->
      {| index := 1;
         kernel_id := "DeviceGroupedConvFwdMultipleD_Xdl_CShuffle<64, 64, 32, 32>";
         valid_kernels := valid_kernels more_samples.first_config |}
      = more_samples.first_config
      /\ SetNextValue (samples.installation false samples.three_instances)
           (samples.conv3x3 miopenHalf)
           {| index := 1;
              kernel_id := "DeviceGroupedConvFwdMultipleD_Xdl_CShuffle<64, 64, 32, 32>";
              valid_kernels := valid_kernels more_samples.first_config |}
         = Returns (false,
                    {| index := 1;
                       kernel_id := "DeviceGroupedConvFwdMultipleD_Xdl_CShuffle<64, 64, 32, 32>";
                       valid_kernels := valid_kernels more_samples.first_config |})).
Proof.
  apply (SetNextValue_steps (samples.installation false samples.three_instances)
           (samples.conv3x3 miopenHalf) more_samples.first_config).
  reflexivity.
Defined.

(** ** Comparing configurations *)

(** [operator==] is an equivalence on configurations: reflexive, symmetric
    and transitive. *)
Theorem eq_is_equivalence (c1 c2 c3 : PerfConfig) :
  eq c1 c1 = true
  /\ eq c1 c2 = eq c2 c1
  /\ (if eq c1 c2 && eq c2 c3 then eq c1 c3 = true else True).
Proof.
  unfold eq. repeat split.
  - apply String.eqb_refl.
  - apply String.eqb_sym.
  - destruct (String.eqb_spec (kernel_id c1) (kernel_id c2)) as [H12 |];
      cbn [andb]; [|exact I].
    destruct (String.eqb_spec (kernel_id c2) (kernel_id c3)) as [H23 |]; [|exact I].
    apply String.eqb_eq. congruence.
Qed.

(** ** Looking a kernel up by its identifier *)

(** The search loop stops at the first instance of that name, and at the
    size of the list when there is none. *)
Lemma find_kernel_find (conv_ptrs : list DeviceOp) (id : string) :
  forall i0 : Z,
    match List.find (fun p => String.eqb (GetTypeString p) id) conv_ptrs with
    | Some p =>
        exists j : nat,
          find_kernel conv_ptrs id i0 = i0 + Z.of_nat j /\ conv_ptrs !! j = Some p
    | None => find_kernel conv_ptrs id i0 = i0 + Z.of_nat (length conv_ptrs)
    end.
Proof.
  induction conv_ptrs as [|q rest IH]; intros i0; simpl.
  - lia.
  - destruct (String.eqb (GetTypeString q) id).
    + exists 0%nat. split; [lia | reflexivity].
    + specialize (IH (i0 + 1)).
      destruct (List.find _ rest) as [p|].
      * destruct IH as (j & Hj & Hp). exists (S j). split; [lia | exact Hp].
      * lia.
Qed.

Lemma at_lookup {A : Type} (v : list A) (j : nat) :
  at_ v (Z.of_nat j) = match v !! j with
                       | Some x => Returns x
                       | None => Throws std_out_of_range
                       end.
Proof.
  unfold at_. rewrite size_t_of_int_nonneg by lia. now rewrite Nat2Z.id.
Qed.

(** [RunCKSolution] in terms of the first instance named [kernel_id]. *)
Lemma RunCKSolution_find (E : Installation) (T : DataType) (handle : Handle)
    (problem : ProblemDescription) (config : PerfConfig) :
  RunCKSolution E T handle problem config =
  match List.find (fun p => String.eqb (GetTypeString p) (kernel_id config))
          (GetInstances E T) with
  | Some conv_ptr =>
      Returns (if IsProfilingEnabled handle
               then {| GetDeviceName := GetDeviceName handle;
                       IsProfilingEnabled := true;
                       GetKernelTime := (0 + Run conv_ptr (make_CKArgsGFwd problem))%Q |}
               else handle)
  | None => if NDEBUG E then Throws std_out_of_range else AssertFails
  end.
Proof.
  unfold RunCKSolution.
  pose proof (find_kernel_find (GetInstances E T) (kernel_id config) 0) as Hfind.
  destruct (List.find _ (GetInstances E T)) as [p|].
  - destruct Hfind as (j & -> & Hp). rewrite Z.add_0_l.
    apply lookup_lt_Some in Hp as Hj.
    rewrite (proj2 (Z.eqb_neq _ _)) by lia. cbn [negb]. rewrite assert_holds.
    run_bind. rewrite at_lookup, Hp. run_bind.
    destruct (IsProfilingEnabled handle) eqn:Hprofiling; [|reflexivity].
    unfold AccumKernelTime, ResetKernelTime. simpl. now rewrite Hprofiling.
  - rewrite Hfind, Z.add_0_l, Z.eqb_refl. cbn [negb]. unfold assert_.
    destruct (NDEBUG E); [|reflexivity]. run_bind.
    rewrite at_lookup, lookup_ge_None_2 by lia. reflexivity.
Qed.

(** Where an instance of the library carries the kernel identifier of the
    configuration, [RunCKSolution] runs the first such instance and returns:
    with profiling enabled the kernel time of the handle becomes the elapsed
    time of that run, whatever it was before, and without profiling the
    handle is left as it is; the device name and the profiling switch never
    change.  Where no instance carries the identifier, nothing is run: the
    call stops at its [assert], or throws [std::out_of_range] where
    assertions are compiled out. *)
Theorem RunCKSolution_outcome (E : Installation) (T : DataType) (handle : Handle)
    (problem : ProblemDescription) (config : PerfConfig) :
  (forall conv_ptr : DeviceOp,
     List.find (fun p => String.eqb (GetTypeString p) (kernel_id config))
       (GetInstances E T) = Some conv_ptr ->
     exists handle' : Handle,
       RunCKSolution E T handle problem config = Returns handle'
       /\ GetDeviceName handle' = GetDeviceName handle
       /\ IsProfilingEnabled handle' = IsProfilingEnabled handle
       /\ GetKernelTime handle'
          = if IsProfilingEnabled handle
            then (0 + Run conv_ptr (make_CKArgsGFwd problem))%Q
            else GetKernelTime handle)
  /\ ((forall p : DeviceOp, In p (GetInstances E T) ->
         GetTypeString p <> kernel_id config) ->
      RunCKSolution E T handle problem config
      = if NDEBUG E then Throws std_out_of_range else AssertFails).
Proof.
  rewrite RunCKSolution_find. split.
  - intros conv_ptr ->. eexists. split; [reflexivity|].
    destruct (IsProfilingEnabled handle) eqn:Hprofiling; simpl; auto.
  - intros Hnone.
    destruct (List.find _ (GetInstances E T)) as [p|] eqn:Hfind; [|reflexivity].
    apply find_some in Hfind. destruct Hfind as [Hin Hname].
    apply String.eqb_eq in Hname. exfalso. exact (Hnone p Hin Hname).
Qed.

Lemma RunCKSolution_outcome_sample :
  (exists handle' : Handle,
     RunCKSolution (samples.installation false samples.three_instances) ck_half_t
       more_samples.profiling_handle (samples.conv3x3 miopenHalf)
       more_samples.first_config = Returns handle'
     /\ GetDeviceName handle' = "gfx90a"
     /\ IsProfilingEnabled handle' = true
     /\ GetKernelTime handle' = (0 + (2 # 10))%Q)
  /\ RunCKSolution (samples.installation true samples.three_instances) ck_half_t
       more_samples.profiling_handle (samples.conv3x3 miopenHalf)
       (more_samples.stored_config "DeviceGroupedConvFwd<unknown>")
     = Throws std_out_of_range.
Proof.
  split.
  - apply (proj1 (RunCKSolution_outcome
                    (samples.installation false samples.three_instances) ck_half_t
                    more_samples.profiling_handle (samples.conv3x3 miopenHalf)
                    more_samples.first_config)
             {| GetTypeString := "DeviceGroupedConvFwdMultipleD_Xdl_CShuffle<128, 128, 64, 32>";
                IsSupportedArgument := fun _ => true;
                Run := fun _ => (2 # 10)%Q |}).
    reflexivity.
  - apply (proj2 (RunCKSolution_outcome
                    (samples.installation true samples.three_instances) ck_half_t
                    more_samples.profiling_handle (samples.conv3x3 miopenHalf)
                    (more_samples.stored_config "DeviceGroupedConvFwd<unknown>"))).
    intros p Hin. simpl in Hin.
    destruct Hin as [<- | [<- | [<- | []]]]; discriminate.
Defined.

(** ** Validity of a configuration *)

(** [CheckIsSupportCKArgs] in terms of the first instance named
    [kernel_id] and of its position. *)
Lemma CheckIsSupportCKArgs_find (E : Installation) (T : DataType)
    (problem : ProblemDescription) (this : PerfConfig) :
  match List.find (fun p => String.eqb (GetTypeString p) (kernel_id this))
          (GetInstances E T) with
  | Some p =>
      exists j : nat,
        GetInstances E T !! j = Some p
        /\ CheckIsSupportCKArgs E T problem this
           = if (j =? length (valid_kernels this))%nat then Returns false
             else Returns (IsSupportedArgument p (make_CKArgsGFwd problem))
  | None =>
      CheckIsSupportCKArgs E T problem this
      = if (length (GetInstances E T) =? length (valid_kernels this))%nat
        then Returns false else Undefined
  end.
Proof.
  unfold CheckIsSupportCKArgs.
  pose proof (find_kernel_find (GetInstances E T) (kernel_id this) 0) as Hfind.
  destruct (List.find _ (GetInstances E T)) as [p|].
  - destruct Hfind as (j & -> & Hp). exists j. split; [exact Hp|].
    rewrite Z.add_0_l.
    destruct (Nat.eqb_spec j (length (valid_kernels this))) as [-> | Hne].
    + now rewrite Z.eqb_refl.
    + rewrite (proj2 (Z.eqb_neq _ _)) by lia.
      rewrite (proj2 (subscript_lookup _ j p) Hp). reflexivity.
  - rewrite Hfind, Z.add_0_l.
    destruct (Nat.eqb_spec (length (GetInstances E T)) (length (valid_kernels this)))
      as [-> | Hne].
    + now rewrite Z.eqb_refl.
    + rewrite (proj2 (Z.eqb_neq _ _)) by lia.
      unfold subscript. rewrite size_t_of_int_nonneg, Nat2Z.id by lia.
      now rewrite lookup_ge_None_2 by lia.
Qed.

(** Whenever [IsValid] returns true, the build has the backing library, the
    problem is of type half or float, and the library has, for that type, an
    instance that carries the kernel identifier of the configuration and
    supports the arguments of the problem. *)
Theorem IsValid_sound (E : Installation) (problem : ProblemDescription)
    (config : PerfConfig) :
  IsValid E problem config = Returns true ->
  MIOPEN_USE_COMPOSABLEKERNEL E = true
  /\ exists (T : DataType) (p : DeviceOp),
       ((GetInDataType problem = miopenHalf /\ T = ck_half_t)
        \/ (GetInDataType problem = miopenFloat /\ T = ck_float))
       /\ In p (GetInstances E T)
       /\ GetTypeString p = kernel_id config
       /\ IsSupportedArgument p (make_CKArgsGFwd problem) = true.
Proof.
  intros Hvalid.
  destruct (IsValid_true_data_type E problem config Hvalid) as [Hck Htype].
  split; [exact Hck|].
  unfold IsValid in Hvalid. rewrite Hck in Hvalid. cbn [negb] in Hvalid.
  assert (Hcheck : forall T : DataType,
            CheckIsSupportCKArgs E T problem config = Returns true ->
            exists p : DeviceOp,
              In p (GetInstances E T)
              /\ GetTypeString p = kernel_id config
              /\ IsSupportedArgument p (make_CKArgsGFwd problem) = true).
  { intros T Htrue.
    pose proof (CheckIsSupportCKArgs_find E T problem config) as Hfind.
    destruct (List.find _ (GetInstances E T)) as [p|] eqn:Hp.
    - destruct Hfind as (j & _ & Hcall). rewrite Hcall in Htrue.
      apply find_some in Hp. destruct Hp as [Hin Hname].
      exists p. repeat split; [exact Hin | now apply String.eqb_eq |].
      destruct (j =? _)%nat; [discriminate | now injection Htrue].
    - rewrite Hfind in Htrue. destruct (_ =? _)%nat; discriminate. }
  destruct Htype as [Hhalf | Hfloat].
  - rewrite Hhalf in Hvalid. destruct (Hcheck ck_half_t Hvalid) as (p & Hp).
    exists ck_half_t, p. split; [left; auto | exact Hp].
  - rewrite Hfloat in Hvalid. destruct (Hcheck ck_float Hvalid) as (p & Hp).
    exists ck_float, p. split; [right; auto | exact Hp].
Qed.

(** For a kernel identifier that no instance of the library carries,
    [CheckIsSupportCKArgs] returns false only where the library happens to
    have as many instances as [valid_kernels] has entries; otherwise it
    reads the instance list one past its end. *)
Theorem CheckIsSupportCKArgs_unknown_kernel (E : Installation) (T : DataType)
    (problem : ProblemDescription) (this : PerfConfig) :
  (forall p : DeviceOp, In p (GetInstances E T) -> GetTypeString p <> kernel_id this) ->
  CheckIsSupportCKArgs E T problem this
  = if (length (GetInstances E T) =? length (valid_kernels this))%nat
    then Returns false else Undefined.
Proof.
  intros Hnone.
  pose proof (CheckIsSupportCKArgs_find E T problem this) as Hfind.
  destruct (List.find _ (GetInstances E T)) as [p|] eqn:Hp; [|exact Hfind].
  apply find_some in Hp. destruct Hp as [Hin Hname].
  apply String.eqb_eq in Hname. exfalso. exact (Hnone p Hin Hname).
Qed.

(** A configuration that [IsValid] accepts can be run: the invoker of
    [GetSolution] returns on every handle and leaves its device name
    alone. *)
Theorem IsValid_config_runs (E : Installation) (ctx : ConvolutionContext)
    (problem : ProblemDescription) (config : PerfConfig) (handle : Handle) :
  IsValid E problem config = Returns true ->
  exists (invoker : Handle -> Outcome Handle) (handle' : Handle),
    ConvHipImplicitGemmGroupFwdXdlops.GetSolution E ctx problem config = Some invoker
    /\ invoker handle = Returns handle'
    /\ GetDeviceName handle' = GetDeviceName handle.
Proof.
  intros Hvalid.
  destruct (IsValid_true_data_type E problem config Hvalid) as [Hck Htype].
  unfold ConvHipImplicitGemmGroupFwdXdlops.GetSolution. rewrite Hck. cbn [negb].
  unfold IsValid in Hvalid. rewrite Hck in Hvalid. cbn [negb] in Hvalid.
  assert (Hrun : forall T : DataType,
            CheckIsSupportCKArgs E T problem config = Returns true ->
            exists handle' : Handle,
              RunCKSolution E T handle problem config = Returns handle'
              /\ GetDeviceName handle' = GetDeviceName handle).
  { intros T Htrue.
    pose proof (CheckIsSupportCKArgs_find E T problem config) as Hfind.
    rewrite RunCKSolution_find.
    destruct (List.find _ (GetInstances E T)) as [p|].
    - eexists. split; [reflexivity|]. destruct (IsProfilingEnabled handle); reflexivity.
    - rewrite Hfind in Htrue. destruct (_ =? _)%nat; discriminate. }
  destruct Htype as [Hhalf | Hfloat].
  - rewrite Hhalf in Hvalid |- *. destruct (Hrun ck_half_t Hvalid) as (handle' & Hh).
    eexists. exists handle'. split; [reflexivity | exact Hh].
  - rewrite Hfloat in Hvalid |- *. destruct (Hrun ck_float Hvalid) as (handle' & Hh).
    eexists. exists handle'. split; [reflexivity | exact Hh].
Qed.

Lemma IsValid_sound_sample :
  MIOPEN_USE_COMPOSABLEKERNEL (samples.installation false samples.three_instances) = true
  /\ exists (T : DataType) (p : DeviceOp),
       ((GetInDataType (samples.conv3x3 miopenHalf) = miopenHalf /\ T = ck_half_t)
        \/ (GetInDataType (samples.conv3x3 miopenHalf) = miopenFloat /\ T = ck_float))
       /\ In p (GetInstances (samples.installation false samples.three_instances) T)
       /\ GetTypeString p = kernel_id more_samples.first_config
       /\ IsSupportedArgument p (make_CKArgsGFwd (samples.conv3x3 miopenHalf)) = true.
Proof.
  apply IsValid_sound. reflexivity.
Defined.

Lemma CheckIsSupportCKArgs_unknown_kernel_sample :
  CheckIsSupportCKArgs (samples.installation false samples.three_instances) ck_half_t
    (samples.conv3x3 miopenHalf)
    (more_samples.stored_config "DeviceGroupedConvFwd<unknown>")
  = Undefined.
Proof.
  apply (CheckIsSupportCKArgs_unknown_kernel
           (samples.installation false samples.three_instances) ck_half_t
           (samples.conv3x3 miopenHalf)
           (more_samples.stored_config "DeviceGroupedConvFwd<unknown>")).
  intros p Hin. simpl in Hin.
  destruct Hin as [<- | [<- | [<- | []]]]; discriminate.
Defined.

Lemma IsValid_config_runs_sample :
  exists (invoker : Handle -> Outcome Handle) (handle' : Handle),
    ConvHipImplicitGemmGroupFwdXdlops.GetSolution
      (samples.installation false samples.three_instances) samples.gfx90a
      (samples.conv3x3 miopenHalf) more_samples.first_config = Some invoker
    /\ invoker more_samples.profiling_handle = Returns handle'
    /\ GetDeviceName handle' = GetDeviceName more_samples.profiling_handle.
Proof.
  apply IsValid_config_runs. reflexivity.
Defined.

(** ** The applicability check, in full *)

Lemma structural_checks_true (problem : ProblemDescription) :
  structural_checks problem = true <->
  GetInDataType problem = GetWeightsDataType problem
  /\ GetWeightsDataType problem = GetOutDataType problem
  /\ IsForward (direction problem) = true
  /\ Is2d problem = true
  /\ IsLayoutNHWC problem = true.
Proof.
  unfold structural_checks.
  destruct (IsForward (direction problem)), (Is2d problem), (IsLayoutNHWC problem);
    rewrite ?andb_true_r, ?andb_false_r;
    try (split; [discriminate | intros (_ & _ & ? & ? & ?); discriminate]).
  destruct (decide (GetInDataType problem = GetWeightsDataType problem)) as [H1 | H1];
    destruct (decide (GetWeightsDataType problem = GetOutDataType problem)) as [H2 | H2].
  - assert (H3 : GetInDataType problem = GetOutDataType problem) by congruence.
    rewrite !bool_decide_eq_false_2 by (intros Hne; contradiction).
    simpl. tauto.
  - rewrite (bool_decide_eq_true_2 (GetWeightsDataType problem ≠ _)) by assumption.
    rewrite orb_true_r. simpl. split; [discriminate | tauto].
  - rewrite (bool_decide_eq_true_2 (GetInDataType problem ≠ GetWeightsDataType _))
      by assumption.
    simpl. split; [discriminate | tauto].
  - rewrite (bool_decide_eq_true_2 (GetInDataType problem ≠ GetWeightsDataType _))
      by assumption.
    simpl. split; [discriminate | tauto].
Qed.

(** [IsApplicable] returns true exactly when the build has the backing
    library, neither debug variable switches the solver off, the data types
    of input, weights and output agree, the problem is a forward 2-d
    convolution in NHWC layout, the device is gfx908 or gfx90a, the data
    type is half or float, both adjusted strides are 1, and some instance of
    the library for that data type supports the arguments. *)
Theorem IsApplicable_true_iff (E : Installation) (ctx : ConvolutionContext)
    (problem : ProblemDescription) :
  outcome (IsApplicable E ctx problem) = Returns true <->
  MIOPEN_USE_COMPOSABLEKERNEL E = true
  /\ IsDisabled_MIOPEN_DEBUG_GROUP_CONV_IMPLICIT_GEMM_HIP_FWD_XDLOPS E = false
  /\ IsEnabled_MIOPEN_DEBUG_CONVOLUTION_DETERMINISTIC E = false
  /\ GetInDataType problem = GetWeightsDataType problem
  /\ GetWeightsDataType problem = GetOutDataType problem
  /\ IsForward (direction problem) = true
  /\ Is2d problem = true
  /\ IsLayoutNHWC problem = true
  /\ (GetDeviceName (GetStream ctx) = "gfx908" \/ GetDeviceName (GetStream ctx) = "gfx90a")
  /\ exists T : DataType,
       ((GetInDataType problem = miopenHalf /\ T = ck_half_t)
        \/ (GetInDataType problem = miopenFloat /\ T = ck_float))
       /\ GetAdjustedConvolutionStrideH problem = 1
       /\ GetAdjustedConvolutionStrideW problem = 1
       /\ existsb (fun p => IsSupportedArgument p (make_CKArgsGFwd problem))
            (GetInstances E T) = true.
Proof.
  rewrite IsApplicable_unfold. split.
  - destruct (MIOPEN_USE_COMPOSABLEKERNEL E); cbn [orb negb]; [|discriminate].
    destruct (IsDisabled_MIOPEN_DEBUG_GROUP_CONV_IMPLICIT_GEMM_HIP_FWD_XDLOPS E);
      cbn [orb negb]; [discriminate|].
    destruct (IsEnabled_MIOPEN_DEBUG_CONVOLUTION_DETERMINISTIC E);
      cbn [orb negb]; [discriminate|].
    destruct (structural_checks problem) eqn:Hchecks; cbn [orb negb]; [|discriminate].
    apply structural_checks_true in Hchecks.
    rewrite outcome_bind. cbn [query outcome snd mbind Outcome_mbind Outcome_bind].
    destruct (String.eqb (GetDeviceName (GetStream ctx)) "gfx908"
              || String.eqb (GetDeviceName (GetStream ctx)) "gfx90a") eqn:Harch;
      cbn [orb negb]; [|discriminate].
    assert (Hdev : GetDeviceName (GetStream ctx) = "gfx908"
                   \/ GetDeviceName (GetStream ctx) = "gfx90a").
    { apply orb_prop in Harch. destruct Harch as [H | H];
        apply String.eqb_eq in H; auto. }
    intros Htrue.
    assert (Hlib : exists T : DataType,
              ((GetInDataType problem = miopenHalf /\ T = ck_half_t)
               \/ (GetInDataType problem = miopenFloat /\ T = ck_float))
              /\ outcome (CheckCKApplicability E T problem) = Returns true).
    { destruct (GetInDataType problem); try discriminate;
        [exists ck_half_t | exists ck_float]; auto. }
    destruct Hlib as (T & HT & Hcheck).
    apply CheckCKApplicability_true in Hcheck.
    repeat split; try tauto. exists T. tauto.
  - intros (Hck & Hdis & Hdet & Hiw & Hwo & Hfwd & H2d & Hnhwc & Hdev & T & HT
            & Hh & Hw & Hsupported).
    rewrite Hck, Hdis, Hdet. cbn [orb negb].
    rewrite (proj2 (structural_checks_true problem)) by tauto. cbn [orb negb].
    rewrite outcome_bind. cbn [query outcome snd mbind Outcome_mbind Outcome_bind].
    assert (Harch : String.eqb (GetDeviceName (GetStream ctx)) "gfx908"
                    || String.eqb (GetDeviceName (GetStream ctx)) "gfx90a" = true).
    { destruct Hdev as [-> | ->]; reflexivity. }
    rewrite Harch. cbn [negb].
    assert (Hcheck : outcome (CheckCKApplicability E T problem) = Returns true).
    { rewrite CheckCKApplicability_outcome, Hh, Hw. simpl.
      destruct (GetInstances E T); [discriminate|].
      cbn [empty negb]. rewrite assert_holds. run_bind. now rewrite Hsupported. }
    destruct HT as [[-> ->] | [-> ->]]; exact Hcheck.
Qed.

(** [CheckCKApplicability] stops at its assertion when assertions are
    checked and the library has no instance for the data type, and returns
    otherwise. *)
Lemma CheckCKApplicability_cases (E : Installation) (T : DataType)
    (problem : ProblemDescription) :
  (NDEBUG E = false /\ GetInstances E T = []
   /\ outcome (CheckCKApplicability E T problem) = AssertFails)
  \/ ((NDEBUG E = true \/ GetInstances E T <> [])
      /\ exists b : bool, outcome (CheckCKApplicability E T problem) = Returns b).
Proof.
  rewrite CheckCKApplicability_outcome. unfold assert_.
  destruct (NDEBUG E) eqn:Hndebug.
  - right. split; [now left|]. run_bind.
    destruct (_ =? 1); [destruct (_ =? 1)|]; eexists; reflexivity.
  - destruct (GetInstances E T) eqn:Hptrs; cbn [empty negb].
    + left. repeat split.
    + right. split; [now right|]. run_bind.
      destruct (_ =? 1); [destruct (_ =? 1)|]; eexists; reflexivity.
Qed.

(** [IsApplicable] never leaves by an exception, and the one assertion on
    its way, [assert(!conv_ptrs.empty())] in [CheckCKApplicability], stops
    it exactly when assertions are checked, the build, the environment, the
    structural checks and the device let the problem through to the
    library, and the library has no instance at all for the data type of
    the problem. *)
Theorem IsApplicable_never_throws (E : Installation) (ctx : ConvolutionContext)
    (problem : ProblemDescription) :
  (forall e : Exception, outcome (IsApplicable E ctx problem) <> Throws e)
  /\ (outcome (IsApplicable E ctx problem) = AssertFails <->
      NDEBUG E = false
      /\ MIOPEN_USE_COMPOSABLEKERNEL E = true
      /\ IsDisabled_MIOPEN_DEBUG_GROUP_CONV_IMPLICIT_GEMM_HIP_FWD_XDLOPS E = false
      /\ IsEnabled_MIOPEN_DEBUG_CONVOLUTION_DETERMINISTIC E = false
      /\ structural_checks problem = true
      /\ (GetDeviceName (GetStream ctx) = "gfx908"
          \/ GetDeviceName (GetStream ctx) = "gfx90a")
      /\ exists T : DataType,
           ((GetInDataType problem = miopenHalf /\ T = ck_half_t)
            \/ (GetInDataType problem = miopenFloat /\ T = ck_float))
           /\ GetInstances E T = []).
Proof.
  rewrite IsApplicable_unfold.
  destruct (MIOPEN_USE_COMPOSABLEKERNEL E); cbn [orb negb];
    [|split; [discriminate | split; [discriminate | intros (_ & ? & _); discriminate]]].
  destruct (IsDisabled_MIOPEN_DEBUG_GROUP_CONV_IMPLICIT_GEMM_HIP_FWD_XDLOPS E);
    cbn [orb negb];
    [split; [discriminate | split; [discriminate | intros (_ & _ & ? & _); discriminate]]|].
  destruct (IsEnabled_MIOPEN_DEBUG_CONVOLUTION_DETERMINISTIC E); cbn [orb negb];
    [split; [discriminate
            | split; [discriminate | intros (_ & _ & _ & ? & _); discriminate]]|].
  destruct (structural_checks problem); cbn [orb negb];
    [|split; [discriminate
             | split; [discriminate | intros (_ & _ & _ & _ & ? & _); discriminate]]].
  rewrite outcome_bind. cbn [query outcome snd mbind Outcome_mbind Outcome_bind].
  destruct (String.eqb (GetDeviceName (GetStream ctx)) "gfx908"
            || String.eqb (GetDeviceName (GetStream ctx)) "gfx90a") eqn:Harch;
    cbn [negb].
  - assert (Hdev : GetDeviceName (GetStream ctx) = "gfx908"
                   \/ GetDeviceName (GetStream ctx) = "gfx90a").
    { apply orb_prop in Harch. destruct Harch as [H | H];
        apply String.eqb_eq in H; auto. }
    assert (Hcheck : forall T : DataType,
      (forall e : Exception, outcome (CheckCKApplicability E T problem) <> Throws e)
      /\ (outcome (CheckCKApplicability E T problem) = AssertFails <->
          NDEBUG E = false /\ GetInstances E T = [])).
    { intros T.
      destruct (CheckCKApplicability_cases E T problem)
        as [(Hndebug & Hptrs & ->) | (Hsome & b & ->)].
      - split; [discriminate | tauto].
      - split; [discriminate|]. split; [discriminate|].
        intros [Hndebug Hptrs]. exfalso. destruct Hsome; congruence. }
    destruct (GetInDataType problem) eqn:Htype;
      try (split; [discriminate|]; split; [discriminate|];
           intros (_ & _ & _ & _ & _ & _ & T & [[? _] | [? _]] & _); discriminate).
    + destruct (Hcheck ck_half_t) as [Hthrow Hassert]. split; [exact Hthrow|].
      rewrite Hassert. split.
      * intros [Hndebug Hptrs]. repeat split; try assumption.
        exists ck_half_t. split; [left; auto | exact Hptrs].
      * intros (Hndebug & _ & _ & _ & _ & _ & T & [[_ ->] | [? _]] & Hptrs);
          [tauto | discriminate].
    + destruct (Hcheck ck_float) as [Hthrow Hassert]. split; [exact Hthrow|].
      rewrite Hassert. split.
      * intros [Hndebug Hptrs]. repeat split; try assumption.
        exists ck_float. split; [right; auto | exact Hptrs].
      * intros (Hndebug & _ & _ & _ & _ & _ & T & [[? _] | [_ ->]] & Hptrs);
          [discriminate | tauto].
  - split; [discriminate|]. split; [discriminate|].
    intros (_ & _ & _ & _ & _ & Hdev & _). exfalso.
    destruct Hdev as [Hdev | Hdev]; rewrite Hdev in Harch; discriminate.
Qed.

(** ** The order of the queries *)

(** On a device other than gfx908 and gfx90a, [IsApplicable] returns false
    and the backing library is not asked anything: the only query, if any,
    is for the name of the device. *)
Theorem IsApplicable_device_before_library (E : Installation) (ctx : ConvolutionContext)
    (problem : ProblemDescription) :
  GetDeviceName (GetStream ctx) <> "gfx908" ->
  GetDeviceName (GetStream ctx) <> "gfx90a" ->
  outcome (IsApplicable E ctx problem) = Returns false
  /\ (queries (IsApplicable E ctx problem) = []
      \/ queries (IsApplicable E ctx problem) = [QueryDeviceName]).
Proof.
  intros H908 H90a. rewrite IsApplicable_unfold.
  destruct (negb (MIOPEN_USE_COMPOSABLEKERNEL E)
            || IsDisabled_MIOPEN_DEBUG_GROUP_CONV_IMPLICIT_GEMM_HIP_FWD_XDLOPS E
            || IsEnabled_MIOPEN_DEBUG_CONVOLUTION_DETERMINISTIC E
            || negb (structural_checks problem)); [split; [reflexivity | now left]|].
  rewrite outcome_bind, queries_bind.
  cbn [query outcome queries fst snd mbind Outcome_mbind Outcome_bind].
  rewrite (proj2 (String.eqb_neq _ _) H908), (proj2 (String.eqb_neq _ _) H90a).
  split; [reflexivity | now right].
Qed.

Lemma IsApplicable_device_before_library_sample :
  outcome (IsApplicable (samples.installation false samples.three_instances)
             more_samples.gfx1030 (samples.conv3x3 miopenHalf)) = Returns false
  /\ (queries (IsApplicable (samples.installation false samples.three_instances)
                 more_samples.gfx1030 (samples.conv3x3 miopenHalf)) = []
      \/ queries (IsApplicable (samples.installation false samples.three_instances)
                    more_samples.gfx1030 (samples.conv3x3 miopenHalf))
         = [QueryDeviceName]).
Proof.
  apply IsApplicable_device_before_library; simpl; discriminate.
Defined.

(** For a problem with a stride other than 1, [CheckCKApplicability] asks
    the library for its instances and for nothing else. *)
Lemma CheckCKApplicability_queries_strided (E : Installation) (T : DataType)
    (problem : ProblemDescription) :
  GetAdjustedConvolutionStrideH problem <> 1
  \/ GetAdjustedConvolutionStrideW problem <> 1 ->
  queries (CheckCKApplicability E T problem) = [QueryInstances T].
Proof.
  intros Hstride. unfold CheckCKApplicability.
  rewrite queries_bind. cbn [query outcome queries fst snd].
  rewrite queries_bind. unfold quiet at 1 2. cbn [outcome queries fst snd].
  destruct (assert_ E _) as [[] | | |]; try reflexivity.
  assert (Hall : forallb (fun x => x =? 1) (strides (make_CKArgsGFwd problem)) = false).
  { cbn [make_CKArgsGFwd strides forallb].
    destruct (Z.eqb_spec (GetAdjustedConvolutionStrideH problem) 1) as [Hh|];
      [|reflexivity].
    destruct (Z.eqb_spec (GetAdjustedConvolutionStrideW problem) 1) as [Hw|];
      [|reflexivity].
    exfalso. destruct Hstride; contradiction. }
  rewrite Hall. reflexivity.
Qed.

(** For a problem with a stride other than 1, [IsApplicable] does not ask
    any instance of the library whether it supports the arguments. *)
Theorem IsApplicable_strides_before_support (E : Installation) (ctx : ConvolutionContext)
    (problem : ProblemDescription) (type_string : string) :
  GetAdjustedConvolutionStrideH problem <> 1
  \/ GetAdjustedConvolutionStrideW problem <> 1 ->
  ~ In (QueryIsSupportedArgument type_string) (queries (IsApplicable E ctx problem)).
Proof.
  intros Hstride. rewrite IsApplicable_unfold.
  destruct (negb (MIOPEN_USE_COMPOSABLEKERNEL E)
            || IsDisabled_MIOPEN_DEBUG_GROUP_CONV_IMPLICIT_GEMM_HIP_FWD_XDLOPS E
            || IsEnabled_MIOPEN_DEBUG_CONVOLUTION_DETERMINISTIC E
            || negb (structural_checks problem)); [intros []|].
  rewrite queries_bind.
  cbn [query outcome queries fst snd].
  destruct (negb _); [simpl; intros [H | []]; discriminate|].
  destruct (GetInDataType problem);
    rewrite ?CheckCKApplicability_queries_strided by assumption;
    simpl; intros H; repeat (destruct H as [H | H]; [discriminate|]); exact H.
Qed.

Lemma IsApplicable_strides_before_support_sample :
  ~ In (QueryIsSupportedArgument
          "DeviceGroupedConvFwdMultipleD_Xdl_CShuffle<128, 128, 64, 32>")
       (queries (IsApplicable (samples.installation false samples.three_instances)
                   samples.gfx90a more_samples.strided)).
Proof.
  apply IsApplicable_strides_before_support. left. simpl. discriminate.
Defined.

(** * Further properties: sizes and enumerability *)

Lemma fold_left_mul_mod (M : Z) (l : list Z) :
  0 < M ->
  forall a : Z, 0 <= a < M ->
    fold_left (fun acc len => (acc * len) mod M) l a = (a * product l) mod M.
Proof.
  intros HM. induction l as [|x l IH]; intros a Ha; simpl.
  - rewrite Z.mul_1_r. now rewrite Z.mod_small.
  - fold (product l). rewrite IH by (apply Z.mod_pos_bound; lia).
    rewrite Z.mul_mod_idemp_l by lia. f_equal. ring.
Qed.

(** The outer size [GetSolution] accumulates is the product of the output
    lengths in front of the concatenated dimension, wrapped to a [size_t];
    it is 1 for dimension 0, and the accumulation leaves the vector, and
    defined behaviour, for a dimension that is negative or beyond the
    rank. *)
Theorem outer_size_is_leading_product (ydims : list Z) (dim : Z) :
  CatForward.outer_size_of ydims dim =
  if (dim <? 0) || (Z.of_nat (length ydims) <? dim) then Undefined
  else Returns (product (take (Z.to_nat dim) ydims) mod 2 ^ 64).
Proof.
  unfold CatForward.outer_size_of.
  destruct ((dim <? 0) || (Z.of_nat (length ydims) <? dim)); [reflexivity|].
  rewrite (fold_left_mul_mod (2 ^ 64)) by lia. now rewrite Z.mul_1_l.
Qed.

Lemma existsb_filter (A : Type) (f : A -> bool) (l : list A) :
  existsb f l = negb (empty (List.filter f l)).
Proof.
  induction l as [|a l IH]; [reflexivity|]. simpl.
  destruct (f a); [reflexivity | exact IH].
Qed.

(** For a problem with unit strides, [CheckCKApplicability] returns true
    exactly when [Init], for the same data type, returns from the
    default-constructed configuration: what the applicability check lets
    through is what heuristic initialization can enumerate. *)
Theorem CheckCKApplicability_iff_Init_returns (E : Installation) (T : DataType)
    (problem : ProblemDescription) :
  GetAdjustedConvolutionStrideH problem = 1 ->
  GetAdjustedConvolutionStrideW problem = 1 ->
  outcome (CheckCKApplicability E T problem) = Returns true
  <-> exists first : PerfConfig, Init E T problem default_constructed = Returns first.
Proof.
  intros Hh Hw. split.
  - intros Htrue. apply CheckCKApplicability_true in Htrue.
    destruct Htrue as (_ & _ & Hsupported).
    destruct (Init_of_supported E T problem Hsupported) as (first & Hinit & _).
    now exists first.
  - intros (first & Hinit).
    destruct (Init_returns E T problem default_constructed first Hinit)
      as (Hvk & _ & Hfirst).
    rewrite Init_loop_filter in Hvk. cbn [valid_kernels default_constructed app] in Hvk.
    assert (Hsupported :
      existsb (fun p => IsSupportedArgument p (make_CKArgsGFwd problem))
        (GetInstances E T) = true).
    { rewrite existsb_filter.
      destruct (List.filter _ (GetInstances E T)); [|reflexivity].
      rewrite Hvk in Hfirst. discriminate. }
    rewrite CheckCKApplicability_outcome, Hh, Hw. simpl.
    destruct (GetInstances E T); [discriminate|].
    cbn [empty negb]. rewrite assert_holds. run_bind. now rewrite Hsupported.
Qed.

Lemma CheckCKApplicability_iff_Init_returns_sample :
  outcome (CheckCKApplicability (samples.installation false samples.three_instances)
             ck_half_t (samples.conv3x3 miopenHalf)) = Returns true
  <-> exists first : PerfConfig,
        Init (samples.installation false samples.three_instances) ck_half_t
          (samples.conv3x3 miopenHalf) default_constructed = Returns first.
Proof.
  apply CheckCKApplicability_iff_Init_returns; reflexivity.
Defined.

Lemma IsApplicable_true_iff_sample :
  MIOPEN_USE_COMPOSABLEKERNEL (samples.installation false samples.three_instances) = true
  /\ IsDisabled_MIOPEN_DEBUG_GROUP_CONV_IMPLICIT_GEMM_HIP_FWD_XDLOPS
       (samples.installation false samples.three_instances) = false
  /\ IsEnabled_MIOPEN_DEBUG_CONVOLUTION_DETERMINISTIC
       (samples.installation false samples.three_instances) = false
  /\ GetInDataType (samples.conv3x3 miopenHalf)
     = GetWeightsDataType (samples.conv3x3 miopenHalf)
  /\ GetWeightsDataType (samples.conv3x3 miopenHalf)
     = GetOutDataType (samples.conv3x3 miopenHalf)
  /\ IsForward (direction (samples.conv3x3 miopenHalf)) = true
  /\ Is2d (samples.conv3x3 miopenHalf) = true
  /\ IsLayoutNHWC (samples.conv3x3 miopenHalf) = true
  /\ (GetDeviceName (GetStream samples.gfx90a) = "gfx908"
      \/ GetDeviceName (GetStream samples.gfx90a) = "gfx90a")
  /\ exists T : DataType,
       ((GetInDataType (samples.conv3x3 miopenHalf) = miopenHalf /\ T = ck_half_t)
        \/ (GetInDataType (samples.conv3x3 miopenHalf) = miopenFloat /\ T = ck_float))
       /\ GetAdjustedConvolutionStrideH (samples.conv3x3 miopenHalf) = 1
       /\ GetAdjustedConvolutionStrideW (samples.conv3x3 miopenHalf) = 1
       /\ existsb
            (fun p => IsSupportedArgument p (make_CKArgsGFwd (samples.conv3x3 miopenHalf)))
            (GetInstances (samples.installation false samples.three_instances) T) = true.
Proof.
  apply (proj1 (IsApplicable_true_iff
                  (samples.installation false samples.three_instances)
                  samples.gfx90a (samples.conv3x3 miopenHalf))).
  reflexivity.
Defined.

(** * Further properties: enumerated kernels *)

Lemma find_named (conv_ptrs : list DeviceOp) (p : DeviceOp) :
  In p conv_ptrs ->
  exists q : DeviceOp,
    List.find (fun q => String.eqb (GetTypeString q) (GetTypeString p)) conv_ptrs = Some q.
Proof.
  intros Hin.
  destruct (List.find _ conv_ptrs) as [q|] eqn:Hfind; [now exists q|].
  exfalso. pose proof (find_none _ _ Hfind p Hin) as Hne.
  simpl in Hne. now rewrite String.eqb_refl in Hne.
Qed.

(** Every kernel [Init] enumerates from the default-constructed
    configuration can be launched: for a configuration that carries any
    entry of [valid_kernels] as its identifier, [RunCKSolution] finds an
    instance and returns, on every handle. *)
Theorem enumerated_kernels_run (E : Installation) (T : DataType)
    (problem : ProblemDescription) (first config : PerfConfig) (handle : Handle) :
  Init E T problem default_constructed = Returns first ->
  In (kernel_id config) (valid_kernels first) ->
  exists handle' : Handle,
    RunCKSolution E T handle problem config = Returns handle'.
Proof.
  intros Hinit Hin.
  destruct (Init_returns E T problem default_constructed first Hinit) as (Hvk & _ & _).
  rewrite Init_loop_filter in Hvk. cbn [valid_kernels default_constructed app] in Hvk.
  rewrite Hvk in Hin. apply in_map_iff in Hin. destruct Hin as (p & Hname & Hp).
  apply filter_In in Hp. destruct Hp as [Hp _].
  destruct (find_named (GetInstances E T) p Hp) as (q & Hfind).
  rewrite RunCKSolution_find, <- Hname, Hfind. eexists. reflexivity.
Qed.

Lemma enumerated_kernels_run_sample :
  exists handle' : Handle,
    RunCKSolution (samples.installation false samples.three_instances) ck_half_t
      more_samples.profiling_handle (samples.conv3x3 miopenHalf)
      (more_samples.stored_config
         "DeviceGroupedConvFwdMultipleD_Xdl_CShuffle<64, 64, 32, 32>")
    = Returns handle'.
Proof.
  apply (enumerated_kernels_run (samples.installation false samples.three_instances)
           ck_half_t (samples.conv3x3 miopenHalf) more_samples.first_config).
  - reflexivity.
  - simpl. auto.
Defined.

(** In a library whose instances carry pairwise different type strings, a
    configuration that names the instance at position [j], which supports
    the arguments, is reported supported by [CheckIsSupportCKArgs] unless
    [j] happens to be the number of entries of [valid_kernels]: the position
    is compared with [valid_kernels.size()], and the configuration is
    rejected then. *)
Theorem CheckIsSupportCKArgs_of_supported (E : Installation) (T : DataType)
    (problem : ProblemDescription) (this : PerfConfig) (j : nat) (p : DeviceOp) :
  NoDup (map GetTypeString (GetInstances E T)) ->
  GetInstances E T !! j = Some p ->
  GetTypeString p = kernel_id this ->
  IsSupportedArgument p (make_CKArgsGFwd problem) = true ->
  CheckIsSupportCKArgs E T problem this
  = Returns (negb (j =? length (valid_kernels this))%nat).
Proof.
  intros Hdistinct Hp Hname Hsupported.
  pose proof (CheckIsSupportCKArgs_find E T problem this) as Hfind.
  destruct (List.find _ (GetInstances E T)) as [q|] eqn:Hq.
  - destruct Hfind as (j' & Hq' & Hcall).
    apply find_some in Hq. destruct Hq as [_ Hqname]. apply String.eqb_eq in Hqname.
    assert (j' = j).
    { apply (NoDup_lookup _ j' j (kernel_id this) Hdistinct);
        rewrite list_lookup_fmap; [rewrite Hq' | rewrite Hp]; simpl; congruence. }
    subst j'. assert (q = p) by congruence. subst q.
    rewrite Hcall, Hsupported. now destruct (j =? _)%nat.
  - exfalso.
    assert (Hin : In p (GetInstances E T))
      by (apply list_elem_of_In; now apply (list_elem_of_lookup_2 _ j)).
    pose proof (find_none _ _ Hq p Hin) as Hne. simpl in Hne.
    rewrite Hname, String.eqb_refl in Hne. discriminate.
Qed.

Lemma CheckIsSupportCKArgs_of_supported_sample :
  CheckIsSupportCKArgs (samples.installation false samples.three_instances) ck_half_t
    (samples.conv3x3 miopenHalf) more_samples.second_config
  = Returns (negb (2 =? length (valid_kernels more_samples.second_config))%nat).
Proof.
  apply (CheckIsSupportCKArgs_of_supported
           (samples.installation false samples.three_instances) ck_half_t
           (samples.conv3x3 miopenHalf) more_samples.second_config 2
           {| GetTypeString := "DeviceGroupedConvFwdMultipleD_Xdl_CShuffle<64, 64, 32, 32>";
              IsSupportedArgument := fun _ => true;
              Run := fun _ => (2 # 10)%Q |}).
  - apply (bool_decide_unpack _). vm_compute. exact I.
  - reflexivity.
  - reflexivity.
  - reflexivity.
Defined.

(** * Two searches in a row *)

(** ** What a search does with its candidates *)

Lemma elapsed_lt_true (t best_time : Q) :
  elapsed_lt t best_time = true <-> (t < best_time)%Q.
Proof.
  unfold elapsed_lt. rewrite Qlt_alt.
  destruct (t ?= best_time)%Q; split; congruence.
Qed.

(** Once exhausted, the walk stands. *)
Lemma iterate_exhausted (E : Installation) (ctx : ConvolutionContext)
    (problem : ProblemDescription) (visits : nat) (st : SearchState) (handle : Handle) :
  exhausted st = true ->
  iterate E visits ctx problem st handle = Returns (Some (st, handle)).
Proof. intros Hexhausted. destruct visits; simpl; now rewrite Hexhausted. Qed.

(** The configuration heuristic initialization leaves is the candidate at
    position 0. *)
Lemma first_is_candidate (E : Installation) (problem : ProblemDescription)
    (first : PerfConfig) :
  GetDefaultPerformanceConfig E problem = Returns first ->
  valid_kernels first <> [] ->
  valid_kernels first !! 0%nat = Some (kernel_id first)
  /\ first = candidate first 0 (kernel_id first).
Proof.
  intros Hfirst Hne.
  destruct (HeuristicInit_selects_first E problem default_constructed first
              eq_refl Hfirst Hne) as [Hindex Hid].
  split; [exact Hid|]. destruct first as [i id vk]. simpl in Hindex. now subst i.
Qed.

(** From the candidate at position [i], [SetNextValue] goes on to the
    candidate at position [i + 1], and returns false where there is
    none. *)
Lemma SetNextValue_candidate (E : Installation) (problem : ProblemDescription)
    (first : PerfConfig) (i : nat) (id : string) :
  valid_kernels first <> [] ->
  SetNextValue E problem (candidate first i id)
  = match valid_kernels first !! S i with
    | Some id' => Returns (true, candidate first (S i) id')
    | None => Returns (false, candidate first i id)
    end.
Proof.
  intros Hne. unfold SetNextValue, candidate.
  cbn [PerformanceConfigHipImplicitGemmGroupFwdXdlops.valid_kernels
       PerformanceConfigHipImplicitGemmGroupFwdXdlops.index].
  destruct (valid_kernels first) as [|k vk] eqn:Hvk; [contradiction|].
  cbn [empty]. unfold int_lt_size. rewrite size_t_of_int_nonneg by lia.
  replace (Z.of_nat i + 1) with (Z.of_nat (S i)) by lia.
  destruct ((k :: vk) !! S i) as [id'|] eqn:Hnext.
  - apply lookup_lt_Some in Hnext as Hlt.
    rewrite (proj2 (Z.ltb_lt _ _)) by lia.
    rewrite (proj2 (subscript_lookup _ _ _) Hnext). reflexivity.
  - apply lookup_ge_None in Hnext as Hge.
    now rewrite (proj2 (Z.ltb_ge _ _)) by lia.
Qed.

(** The trial of a valid candidate returns with a measurement: the elapsed
    time of the first instance that carries its kernel identifier. *)
Lemma trial_of_valid (E : Installation) (ctx : ConvolutionContext)
    (problem : ProblemDescription) (config : PerfConfig) (handle : Handle) :
  IsValid E problem config = Returns true ->
  exists (t : Q) (handle' : Handle),
    trial E ctx problem config handle = Returns (Some t, handle').
Proof.
  intros Hvalid.
  destruct (IsValid_true_data_type E problem config Hvalid) as [Hck Htype].
  unfold trial, ConvHipImplicitGemmGroupFwdXdlops.GetSolution. rewrite Hck. cbn [negb].
  unfold IsValid in Hvalid. rewrite Hck in Hvalid. cbn [negb] in Hvalid.
  assert (Hrun : forall T : DataType,
            CheckIsSupportCKArgs E T problem config = Returns true ->
            exists handle' : Handle,
              RunCKSolution E T (EnableProfiling true handle) problem config
              = Returns handle').
  { intros T Htrue.
    pose proof (CheckIsSupportCKArgs_find E T problem config) as Hfind.
    rewrite RunCKSolution_find.
    destruct (List.find _ (GetInstances E T)) as [p|].
    - eexists. reflexivity.
    - rewrite Hfind in Htrue. destruct (_ =? _)%nat; discriminate. }
  destruct Htype as [Hhalf | Hfloat].
  - rewrite Hhalf in Hvalid |- *. destruct (Hrun ck_half_t Hvalid) as (handle' & ->).
    run_bind. eexists. eexists. reflexivity.
  - rewrite Hfloat in Hvalid |- *. destruct (Hrun ck_float Hvalid) as (handle' & ->).
    run_bind. eexists. eexists. reflexivity.
Qed.

(** What the trial of a valid candidate measured on one handle, it measures
    on every handle. *)
Lemma trial_measures (E : Installation) (ctx : ConvolutionContext)
    (problem : ProblemDescription) (config : PerfConfig) (handle handle' : Handle)
    (measured : option Q) :
  IsValid E problem config = Returns true ->
  trial E ctx problem config handle = Returns (measured, handle') ->
  exists t : Q, measured = Some t /\ measures E ctx problem config t.
Proof.
  intros Hvalid Htrial.
  destruct (trial_of_valid E ctx problem config handle Hvalid) as (t & h & Hreturns).
  rewrite Hreturns in Htrial. injection Htrial as <- <-.
  exists t. split; [reflexivity|]. split; [exact Hvalid|].
  intros handle0.
  rewrite (trial_measurement E ctx problem config handle0 handle Hvalid), Hreturns.
  reflexivity.
Qed.

Lemma measures_unique (E : Installation) (ctx : ConvolutionContext)
    (problem : ProblemDescription) (config : PerfConfig) (t t' : Q) :
  measures E ctx problem config t -> measures E ctx problem config t' -> t = t'.
Proof.
  intros [_ Ht] [_ Ht'].
  specialize (Ht (GetStream ctx)). specialize (Ht' (GetStream ctx)).
  rewrite Ht in Ht'. now injection Ht'.
Qed.

(** A visit advances with [SetNextValue], and leaves the best-so-far as it
    was for a candidate that is not valid, and improved by the measurement
    for one that is. *)
Lemma visit_outcome (E : Installation) (ctx : ConvolutionContext)
    (problem : ProblemDescription) (st st' : SearchState) (handle handle' : Handle) :
  visit E ctx problem st handle = Returns (st', handle') ->
  (exists more : bool,
     SetNextValue E problem (current st) = Returns (more, current st')
     /\ exhausted st' = negb more)
  /\ ((IsValid E problem (current st) = Returns false /\ best st' = best st)
      \/ exists t : Q,
           measures E ctx problem (current st) t
           /\ best st' = improve (best st) (current st) t).
Proof.
  unfold visit, IsValidPerformanceConfig.
  destruct (IsValid E problem (current st)) as [[|] | | |] eqn:Hvalid;
    run_bind; try discriminate.
  - destruct (trial E ctx problem (current st) handle) as [[measured h1] | | |]
      eqn:Htrial; run_bind; try discriminate.
    destruct (trial_measures E ctx problem (current st) handle h1 measured
                Hvalid Htrial) as (t & -> & Hmeasures).
    run_bind.
    destruct (SetNextValue E problem (current st)) as [[more next] | | |];
      run_bind; try discriminate.
    intros [= <- _]. split; [exists more; split; reflexivity|].
    right. exists t. split; [exact Hmeasures | reflexivity].
  - destruct (SetNextValue E problem (current st)) as [[more next] | | |];
      run_bind; try discriminate.
    intros [= <- _]. split; [exists more; split; reflexivity|].
    left. split; reflexivity.
Qed.

(** A visit returns when the validity check of its candidate and
    [SetNextValue] do. *)
Lemma visit_returns (E : Installation) (ctx : ConvolutionContext)
    (problem : ProblemDescription) (st : SearchState) (handle : Handle) :
  (exists b : bool, IsValid E problem (current st) = Returns b) ->
  (exists r : bool * PerfConfig, SetNextValue E problem (current st) = Returns r) ->
  exists (st' : SearchState) (handle' : Handle),
    visit E ctx problem st handle = Returns (st', handle').
Proof.
  intros [b Hvalid] [[more next] Hnext].
  unfold visit, IsValidPerformanceConfig. rewrite Hvalid, Hnext. run_bind.
  destruct b.
  - destruct (trial_of_valid E ctx problem (current st) handle Hvalid)
      as (t & h1 & ->).
    run_bind. eexists. eexists. reflexivity.
  - run_bind. eexists. eexists. reflexivity.
Qed.

(** One more candidate: the best-so-far of the first [i] candidates,
    carried over the candidate at position [i]. *)
Lemma first_fastest_step (E : Installation) (ctx : ConvolutionContext)
    (problem : ProblemDescription) (first : PerfConfig) (i : nat) (id : string)
    (best : option (PerfConfig * Q)) :
  valid_kernels first !! i = Some id ->
  first_fastest E ctx problem first i best ->
  (IsValid E problem (candidate first i id) = Returns false ->
   first_fastest E ctx problem first (S i) best)
  /\ (forall t : Q,
        measures E ctx problem (candidate first i id) t ->
        first_fastest E ctx problem first (S i)
          (improve best (candidate first i id) t)).
Proof.
  intros Hid Hbest.
  assert (Hsame : forall id' : string, valid_kernels first !! i = Some id' -> id' = id)
    by (intros id' Hid'; congruence).
  split.
  - intros Hinvalid. destruct best as [[winner t]|]; cbn [first_fastest] in *.
    + destruct Hbest as (j & idj & Hj & Hidj & Hwinner & Hmw & Hleast).
      exists j, idj.
      split; [lia|]. split; [exact Hidj|]. split; [exact Hwinner|]. split; [exact Hmw|].
      intros i' id' t' Hi' Hid' Hm'.
      destruct (Nat.eq_dec i' i) as [-> | Hne].
      * exfalso. rewrite (Hsame id' Hid') in Hm'. destruct Hm' as [Hvalid _]. congruence.
      * apply (Hleast i' id' t'); [lia | exact Hid' | exact Hm'].
    + intros i' id' Hi' Hid'.
      destruct (Nat.eq_dec i' i) as [-> | Hne].
      * now rewrite (Hsame id' Hid').
      * apply Hbest; [lia | exact Hid'].
  - intros t Hmeasures. destruct best as [[winner tw]|]; cbn [first_fastest improve] in *.
    + destruct Hbest as (j & idj & Hj & Hidj & Hwinner & Hmw & Hleast).
      destruct (elapsed_lt t tw) eqn:Hlt.
      * apply elapsed_lt_true in Hlt.
        exists i, id.
        split; [lia|]. split; [exact Hid|]. split; [reflexivity|].
        split; [exact Hmeasures|].
        intros i' id' t' Hi' Hid' Hm'.
        destruct (Nat.eq_dec i' i) as [-> | Hne].
        -- rewrite (Hsame id' Hid') in Hm'.
           rewrite (measures_unique E ctx problem _ t' t Hm' Hmeasures).
           split; [apply Qle_refl | lia].
        -- destruct (Hleast i' id' t') as [Hle _]; [lia | exact Hid' | exact Hm' |].
           assert (Hless : (t < t')%Q) by now apply (Qlt_le_trans _ tw).
           split; [now apply Qlt_le_weak | intros _; exact Hless].
      * assert (Hge : (tw <= t)%Q).
        { apply Qnot_lt_le. intros Hless. apply elapsed_lt_true in Hless. congruence. }
        exists j, idj.
        split; [lia|]. split; [exact Hidj|]. split; [exact Hwinner|]. split; [exact Hmw|].
        intros i' id' t' Hi' Hid' Hm'.
        destruct (Nat.eq_dec i' i) as [-> | Hne].
        -- rewrite (Hsame id' Hid') in Hm'.
           rewrite (measures_unique E ctx problem _ t' t Hm' Hmeasures).
           split; [exact Hge | lia].
        -- apply (Hleast i' id' t'); [lia | exact Hid' | exact Hm'].
    + exists i, id.
      split; [lia|]. split; [exact Hid|]. split; [reflexivity|].
      split; [exact Hmeasures|].
      intros i' id' t' Hi' Hid' Hm'.
      destruct (Nat.eq_dec i' i) as [-> | Hne].
      * rewrite (Hsame id' Hid') in Hm'.
        rewrite (measures_unique E ctx problem _ t' t Hm' Hmeasures).
        split; [apply Qle_refl | lia].
      * exfalso. destruct Hm' as [Hvalid _].
        rewrite (Hbest i' id') in Hvalid; [discriminate | lia | exact Hid'].
Qed.

(** The walk from the candidate at position [i], with the best-so-far of
    the first [i] candidates, ends with the best-so-far of all of them. *)
Lemma iterate_first_fastest (E : Installation) (ctx : ConvolutionContext)
    (problem : ProblemDescription) (first : PerfConfig) (visits : nat) :
  valid_kernels first <> [] ->
  forall (i : nat) (id : string) (st st' : SearchState) (handle handle' : Handle),
    exhausted st = false ->
    current st = candidate first i id ->
    valid_kernels first !! i = Some id ->
    first_fastest E ctx problem first i (best st) ->
    iterate E visits ctx problem st handle = Returns (Some (st', handle')) ->
    first_fastest E ctx problem first (length (valid_kernels first)) (best st').
Proof.
  intros Hne.
  induction visits as [|visits IH];
    intros i id st st' handle handle' Hgoing Hcurrent Hid Hbest Hwalk;
    cbn [iterate] in Hwalk; rewrite Hgoing in Hwalk; [discriminate|].
  destruct (visit E ctx problem st handle) as [[st1 h1] | | |] eqn:Hvisit;
    cbn [mbind Outcome_mbind Outcome_bind] in Hwalk; try discriminate.
  destruct (visit_outcome E ctx problem st st1 handle h1 Hvisit)
    as [(more & Hnext & Hexhausted) Hmeasured].
  rewrite Hcurrent in Hnext, Hmeasured.
  destruct (first_fastest_step E ctx problem first i id (best st) Hid Hbest)
    as [Hskip Himprove].
  assert (Hbest1 : first_fastest E ctx problem first (S i) (best st1)).
  { destruct Hmeasured as [[Hinvalid ->] | (t & Hmeasures & ->)]; auto. }
  rewrite SetNextValue_candidate in Hnext by exact Hne.
  destruct (valid_kernels first !! S i) as [id'|] eqn:Hid'.
  - injection Hnext as <- Hcurrent1. simpl in Hexhausted.
    apply (IH (S i) id' st1 st' h1 handle'); auto.
  - injection Hnext as <- _. simpl in Hexhausted.
    rewrite iterate_exhausted in Hwalk by exact Hexhausted.
    injection Hwalk as <- _.
    apply lookup_ge_None in Hid'. apply lookup_lt_Some in Hid.
    now replace (length (valid_kernels first)) with (S i) by lia.
Qed.

(** The walk returns when the validity check returns for every
    candidate. *)
Lemma iterate_returns (E : Installation) (ctx : ConvolutionContext)
    (problem : ProblemDescription) (first : PerfConfig) (visits : nat) :
  valid_kernels first <> [] ->
  (forall (i : nat) (id : string),
     valid_kernels first !! i = Some id ->
     exists b : bool, IsValid E problem (candidate first i id) = Returns b) ->
  forall (i : nat) (id : string) (st : SearchState) (handle : Handle),
    exhausted st = false ->
    current st = candidate first i id ->
    valid_kernels first !! i = Some id ->
    (i + visits = length (valid_kernels first))%nat ->
    exists (st' : SearchState) (handle' : Handle),
      iterate E visits ctx problem st handle = Returns (Some (st', handle')).
Proof.
  intros Hne Hchecked.
  induction visits as [|visits IH]; intros i id st handle Hgoing Hcurrent Hid Hleft.
  - apply lookup_lt_Some in Hid. lia.
  - cbn [iterate]. rewrite Hgoing.
    destruct (visit_returns E ctx problem st handle) as (st1 & h1 & Hvisit).
    { rewrite Hcurrent. now apply Hchecked. }
    { rewrite Hcurrent, SetNextValue_candidate by exact Hne.
      destruct (valid_kernels first !! S i); eexists; reflexivity. }
    rewrite Hvisit. run_bind.
    destruct (visit_outcome E ctx problem st st1 handle h1 Hvisit)
      as [(more & Hnext & Hexhausted) _].
    rewrite Hcurrent, SetNextValue_candidate in Hnext by exact Hne.
    destruct (valid_kernels first !! S i) as [id'|] eqn:Hid'.
    + injection Hnext as <- Hcurrent1. simpl in Hexhausted.
      apply (IH (S i) id' st1 h1); auto. lia.
    + injection Hnext as <- _. simpl in Hexhausted.
      rewrite iterate_exhausted by exact Hexhausted. eexists. eexists. reflexivity.
Qed.

(** For every kernel [Init] enumerated from the default-constructed
    configuration, the validity check finds an instance and returns. *)
Lemma CheckIsSupportCKArgs_of_enumerated (E : Installation) (T : DataType)
    (problem : ProblemDescription) (first config : PerfConfig) :
  Init E T problem default_constructed = Returns first ->
  In (kernel_id config) (valid_kernels first) ->
  exists b : bool, CheckIsSupportCKArgs E T problem config = Returns b.
Proof.
  intros Hinit Hin.
  destruct (Init_returns E T problem default_constructed first Hinit) as (Hvk & _ & _).
  rewrite Init_loop_filter in Hvk. cbn [valid_kernels default_constructed app] in Hvk.
  rewrite Hvk in Hin. apply in_map_iff in Hin. destruct Hin as (p & Hname & Hp).
  apply filter_In in Hp. destruct Hp as [Hp _].
  destruct (find_named (GetInstances E T) p Hp) as (q & Hfind).
  pose proof (CheckIsSupportCKArgs_find E T problem config) as Hcheck.
  rewrite <- Hname, Hfind in Hcheck. destruct Hcheck as (j & _ & ->).
  destruct (j =? _)%nat; eexists; reflexivity.
Qed.

Lemma IsValid_of_enumerated (E : Installation) (problem : ProblemDescription)
    (first : PerfConfig) (i : nat) (id : string) :
  GetDefaultPerformanceConfig E problem = Returns first ->
  valid_kernels first !! i = Some id ->
  exists b : bool, IsValid E problem (candidate first i id) = Returns b.
Proof.
  intros Hfirst Hid.
  assert (Hin : In (kernel_id (candidate first i id)) (valid_kernels first)).
  { apply list_elem_of_In. now apply (list_elem_of_lookup_2 _ i). }
  unfold GetDefaultPerformanceConfig, HeuristicInit in Hfirst. unfold IsValid.
  destruct (MIOPEN_USE_COMPOSABLEKERNEL E); cbn [negb] in *; [|eexists; reflexivity].
  destruct (GetInDataType problem); try (eexists; reflexivity);
    now apply (CheckIsSupportCKArgs_of_enumerated E _ problem first).
Qed.

(** The search over the candidates enumerated from [first]: the walk
    returns, and what the search returns is the best-so-far of all
    candidates. *)
Lemma Search_outcome (E : Installation) (ctx : ConvolutionContext)
    (problem : ProblemDescription) (first : PerfConfig) :
  GetDefaultPerformanceConfig E problem = Returns first ->
  valid_kernels first <> [] ->
  exists (best : option (PerfConfig * Q)) (handle : Handle),
    first_fastest E ctx problem first (length (valid_kernels first)) best
    /\ Search E ctx problem
       = match best with
         | Some (winner, _) => Returns (winner, handle)
         | None => Throws NoValidConfiguration
         end.
Proof.
  intros Hfirst Hne.
  destruct (first_is_candidate E problem first Hfirst Hne) as [Hid Hcandidate].
  set (st0 := {| current := first; exhausted := false; best := None |}).
  destruct (iterate_returns E ctx problem first (length (valid_kernels first)) Hne
              (fun i id => IsValid_of_enumerated E problem first i id Hfirst)
              0 (kernel_id first) st0 (GetStream ctx) eq_refl Hcandidate Hid eq_refl)
    as (st & handle & Hwalk).
  exists (best st), handle. split.
  - apply (iterate_first_fastest E ctx problem first (length (valid_kernels first)) Hne
             0 (kernel_id first) st0 st (GetStream ctx) handle eq_refl Hcandidate Hid);
      [|exact Hwalk].
    intros i id Hi. lia.
  - unfold Search. rewrite Hfirst. run_bind.
    rewrite (proj2 (empty_false _) Hne). fold st0. rewrite Hwalk. run_bind.
    destruct (best st) as [[winner t]|]; reflexivity.
Qed.

(** For a problem the applicability check accepts, heuristic
    initialization returns a first candidate. *)
Lemma GetDefaultPerformanceConfig_of_applicable (E : Installation)
    (ctx : ConvolutionContext) (problem : ProblemDescription) :
  outcome (IsApplicable E ctx problem) = Returns true ->
  exists first : PerfConfig,
    GetDefaultPerformanceConfig E problem = Returns first
    /\ valid_kernels first <> [].
Proof.
  rewrite IsApplicable_unfold.
  unfold GetDefaultPerformanceConfig, HeuristicInit.
  destruct (MIOPEN_USE_COMPOSABLEKERNEL E); cbn [orb negb]; [|discriminate].
  destruct (IsDisabled_MIOPEN_DEBUG_GROUP_CONV_IMPLICIT_GEMM_HIP_FWD_XDLOPS E
            || IsEnabled_MIOPEN_DEBUG_CONVOLUTION_DETERMINISTIC E
            || negb (structural_checks problem)); [discriminate|].
  rewrite outcome_bind. cbn [query outcome snd mbind Outcome_mbind Outcome_bind].
  destruct (negb _); [discriminate|].
  destruct (GetInDataType problem); try discriminate;
    intros Htrue; apply CheckCKApplicability_true in Htrue;
    destruct Htrue as (_ & _ & Hsupported);
    destruct (Init_of_supported E _ problem Hsupported) as (first & Hinit & Hne & _);
    now exists first.
Qed.

(** ** Installations in which a search measures the same *)

Section SameMeasurements.

Variables E E' : Installation.
Variable problem : ProblemDescription.
Hypothesis Hcandidates : same_candidates E E' problem.
Hypothesis Htimes : same_elapsed_times E E' problem.

(** Instance by instance, the two libraries agree in what a search reads. *)
Lemma instances_agree (T : DataType) :
  Forall2 (agree_on problem) (GetInstances E T) (GetInstances E' T).
Proof.
  destruct Hcandidates as (_ & _ & Hsame).
  specialize (Hsame T). pose proof (Htimes T) as Helapsed. revert Helapsed.
  induction Hsame as [|p p' ps ps' [Hname Hsupport] Hrest IH]; intros Helapsed;
    [constructor|].
  inversion Helapsed; subst. constructor; [repeat split; assumption | auto].
Qed.

Lemma empty_agree (T : DataType) :
  empty (GetInstances E T) = empty (GetInstances E' T).
Proof. destruct (instances_agree T); reflexivity. Qed.

Lemma assert_agree (cond : bool) : assert_ E cond = assert_ E' cond.
Proof. unfold assert_. destruct Hcandidates as (_ & -> & _). reflexivity. Qed.

Lemma Init_loop_agree (conv_ptrs conv_ptrs' : list DeviceOp) :
  Forall2 (agree_on problem) conv_ptrs conv_ptrs' ->
  forall valid_kernels : list string,
    Init_loop conv_ptrs (make_CKArgsGFwd problem) valid_kernels
    = Init_loop conv_ptrs' (make_CKArgsGFwd problem) valid_kernels.
Proof.
  induction 1 as [|p p' ps ps' (Hname & Hsupport & _) _ IH]; intros valid_kernels;
    [reflexivity|].
  cbn [Init_loop]. now rewrite Hname, Hsupport, IH.
Qed.

Lemma find_kernel_agree (conv_ptrs conv_ptrs' : list DeviceOp) (id : string) :
  Forall2 (agree_on problem) conv_ptrs conv_ptrs' ->
  forall i : Z, find_kernel conv_ptrs id i = find_kernel conv_ptrs' id i.
Proof.
  induction 1 as [|p p' ps ps' (Hname & _) _ IH]; intros i; [reflexivity|].
  cbn [find_kernel]. now rewrite Hname, IH.
Qed.

Lemma find_agree (conv_ptrs conv_ptrs' : list DeviceOp) (id : string) :
  Forall2 (agree_on problem) conv_ptrs conv_ptrs' ->
  match List.find (fun p => String.eqb (GetTypeString p) id) conv_ptrs,
        List.find (fun p => String.eqb (GetTypeString p) id) conv_ptrs' with
  | Some p, Some p' => agree_on problem p p'
  | None, None => True
  | _, _ => False
  end.
Proof.
  induction 1 as [|p p' ps ps' Hagree _ IH]; [exact I|].
  cbn [List.find]. destruct Hagree as (Hname & Hrest). rewrite <- Hname.
  destruct (String.eqb (GetTypeString p) id); [|exact IH].
  split; [exact Hname | exact Hrest].
Qed.

Lemma Init_agree (T : DataType) (this : PerfConfig) :
  Init E T problem this = Init E' T problem this.
Proof.
  unfold Init.
  now rewrite (empty_agree T), !assert_agree,
    (Init_loop_agree _ _ (instances_agree T)).
Qed.

Lemma HeuristicInit_agree (this : PerfConfig) :
  HeuristicInit E problem this = HeuristicInit E' problem this.
Proof.
  unfold HeuristicInit. destruct Hcandidates as (-> & _).
  destruct (negb _); [reflexivity|].
  destruct (GetInDataType problem); try reflexivity; apply Init_agree.
Qed.

Lemma SetNextValue_agree (this : PerfConfig) :
  SetNextValue E problem this = SetNextValue E' problem this.
Proof.
  unfold SetNextValue. rewrite HeuristicInit_agree.
  destruct (empty (valid_kernels this)); [|reflexivity].
  destruct (HeuristicInit E' problem this) as [this'| | |]; try reflexivity.
  run_bind. now rewrite assert_agree.
Qed.

Lemma CheckIsSupportCKArgs_agree (T : DataType) (this : PerfConfig) :
  CheckIsSupportCKArgs E T problem this = CheckIsSupportCKArgs E' T problem this.
Proof.
  unfold CheckIsSupportCKArgs.
  rewrite (find_kernel_agree _ _ (kernel_id this) (instances_agree T)).
  destruct (_ =? _); [reflexivity|].
  unfold subscript.
  destruct (GetInstances E T !! _) as [p|] eqn:Hp.
  - destruct (Forall2_lookup_l _ _ _ _ _ (instances_agree T) Hp)
      as (p' & -> & _ & Hsupport & _).
    run_bind. now rewrite Hsupport.
  - apply lookup_ge_None in Hp.
    rewrite (Forall2_length _ _ _ (instances_agree T)) in Hp.
    now rewrite (lookup_ge_None_2 _ _ Hp).
Qed.

Lemma IsValid_agree (this : PerfConfig) :
  IsValid E problem this = IsValid E' problem this.
Proof.
  unfold IsValid. destruct Hcandidates as (-> & _).
  destruct (negb _); [reflexivity|].
  destruct (GetInDataType problem); try reflexivity; apply CheckIsSupportCKArgs_agree.
Qed.

Lemma RunCKSolution_agree (T : DataType) (handle : Handle) (config : PerfConfig) :
  RunCKSolution E T handle problem config = RunCKSolution E' T handle problem config.
Proof.
  rewrite !RunCKSolution_find.
  pose proof (find_agree _ _ (kernel_id config) (instances_agree T)) as Hfound.
  destruct (List.find _ (GetInstances E T)) as [p|],
    (List.find _ (GetInstances E' T)) as [p'|]; try contradiction.
  - destruct Hfound as (_ & _ & ->). reflexivity.
  - destruct Hcandidates as (_ & -> & _). reflexivity.
Qed.

Lemma trial_agree (ctx ctx' : ConvolutionContext) (config : PerfConfig) (handle : Handle) :
  trial E ctx problem config handle = trial E' ctx' problem config handle.
Proof.
  unfold trial, ConvHipImplicitGemmGroupFwdXdlops.GetSolution.
  destruct Hcandidates as (-> & _).
  destruct (negb _); [reflexivity|].
  destruct (GetInDataType problem); try reflexivity; now rewrite RunCKSolution_agree.
Qed.

Lemma visit_agree (ctx ctx' : ConvolutionContext) (st : SearchState) (handle : Handle) :
  visit E ctx problem st handle = visit E' ctx' problem st handle.
Proof.
  unfold visit, IsValidPerformanceConfig.
  now rewrite IsValid_agree, SetNextValue_agree, (trial_agree ctx ctx').
Qed.

Lemma iterate_agree (ctx ctx' : ConvolutionContext) (visits : nat) :
  forall (st : SearchState) (handle : Handle),
    iterate E visits ctx problem st handle = iterate E' visits ctx' problem st handle.
Proof.
  induction visits as [|visits IH]; intros st handle; [reflexivity|].
  cbn [iterate]. destruct (exhausted st); [reflexivity|].
  rewrite (visit_agree ctx ctx').
  destruct (visit E' ctx' problem st handle) as [[st1 h1] | | |]; run_bind;
    try reflexivity.
  apply IH.
Qed.

(** The two searches have the same outcome, winner or failure, on whatever
    handles they are started. *)
Lemma Search_agree (ctx ctx' : ConvolutionContext) :
  Outcome_map fst (Search E ctx problem) = Outcome_map fst (Search E' ctx' problem).
Proof.
  rewrite (Search_handle_independent E ctx ctx' problem). f_equal.
  unfold Search, GetDefaultPerformanceConfig. rewrite HeuristicInit_agree.
  destruct (HeuristicInit E' problem default_constructed) as [first| | |];
    run_bind; try reflexivity.
  destruct (empty (valid_kernels first)); [reflexivity|].
  now rewrite (iterate_agree ctx' ctx').
Qed.

End SameMeasurements.

(** ** The winner *)

(** A search that returns has walked through the candidates enumerated
    from the first one, and returns the best-so-far of the walk. *)
Lemma Search_returns (E : Installation) (ctx : ConvolutionContext)
    (problem : ProblemDescription) (winner : PerfConfig) (handle : Handle) :
  Search E ctx problem = Returns (winner, handle) ->
  exists (first : PerfConfig) (t : Q),
    GetDefaultPerformanceConfig E problem = Returns first
    /\ first_fastest E ctx problem first (length (valid_kernels first))
         (Some (winner, t)).
Proof.
  unfold Search.
  destruct (GetDefaultPerformanceConfig E problem) as [first | | |] eqn:Hfirst;
    run_bind; try discriminate.
  destruct (empty (valid_kernels first)) eqn:Hempty; [discriminate|].
  apply empty_false in Hempty.
  destruct (first_is_candidate E problem first Hfirst Hempty) as [Hid Hcandidate].
  set (st0 := {| current := first; exhausted := false; best := None |}).
  destruct (iterate E _ ctx problem st0 (GetStream ctx)) as [[[st h] |] | | |] eqn:Hwalk;
    run_bind; try discriminate.
  destruct (best st) as [[winner' t]|] eqn:Hbest; [|discriminate].
  intros [= <- <-]. exists first, t. split; [reflexivity|].
  rewrite <- Hbest.
  apply (iterate_first_fastest E ctx problem first (length (valid_kernels first)) Hempty
           0 (kernel_id first) st0 st (GetStream ctx) h eq_refl Hcandidate Hid);
    [|exact Hwalk].
  intros i id Hi. lia.
Qed.

(** C7, as amended: for every problem, two searches in which the solver
    meets the same candidates in the same order, and in which every instance
    reports the same elapsed time, have the same outcome, whatever state of
    the stream handle each starts on: they return the same winning
    configuration or fail alike.  The winner is the candidate for which the
    least time was measured, and among several of that time the one met
    first.  For a problem the applicability check accepts, the search
    returns a winner, unless the validity check rejects every candidate:
    then it fails with [NoValidConfiguration]. *)
Theorem Search_twice_same_winner (E E' : Installation) (ctx ctx' : ConvolutionContext)
    (problem : ProblemDescription) :
  same_candidates E E' problem ->
  same_elapsed_times E E' problem ->
  Outcome_map fst (Search E ctx problem) = Outcome_map fst (Search E' ctx' problem)
  /\ (forall (winner : PerfConfig) (handle : Handle),
        Search E ctx problem = Returns (winner, handle) ->
        (exists handle' : Handle, Search E' ctx' problem = Returns (winner, handle'))
        /\ exists (first : PerfConfig) (j : nat) (id : string) (t : Q),
             GetDefaultPerformanceConfig E problem = Returns first
             /\ valid_kernels first !! j = Some id
             /\ winner = candidate first j id
             /\ measures E ctx problem winner t
             /\ forall (i : nat) (id' : string) (t' : Q),
                  valid_kernels first !! i = Some id' ->
                  measures E ctx problem (candidate first i id') t' ->
                  (t <= t')%Q /\ ((i < j)%nat -> (t < t')%Q))
  /\ (outcome (IsApplicable E ctx problem) = Returns true ->
      (exists (winner : PerfConfig) (handle : Handle),
         Search E ctx problem = Returns (winner, handle))
      \/ (Search E ctx problem = Throws NoValidConfiguration
          /\ exists first : PerfConfig,
               GetDefaultPerformanceConfig E problem = Returns first
               /\ forall (i : nat) (id : string),
                    valid_kernels first !! i = Some id ->
                    IsValid E problem (candidate first i id) = Returns false)).
Proof.
  intros Hcandidates Htimes.
  pose proof (Search_agree E E' problem Hcandidates Htimes ctx ctx') as Hagain.
  split; [exact Hagain|]. split.
  - intros winner handle Hsearch. split.
    + rewrite Hsearch in Hagain.
      destruct (Search E' ctx' problem) as [[winner' handle'] | | |];
        simpl in Hagain; try discriminate.
      injection Hagain as <-. now exists handle'.
    + destruct (Search_returns E ctx problem winner handle Hsearch)
        as (first & t & Hfirst & Hbest).
      cbn [first_fastest] in Hbest.
      destruct Hbest as (j & id & _ & Hid & Hwinner & Hmeasures & Hleast).
      exists first, j, id, t.
      split; [exact Hfirst|]. split; [exact Hid|]. split; [exact Hwinner|].
      split; [exact Hmeasures|].
      intros i id' t' Hid' Hmeasures'.
      apply (Hleast i id' t'); [|exact Hid' | exact Hmeasures'].
      now apply lookup_lt_Some in Hid'.
  - intros Happlicable.
    destruct (GetDefaultPerformanceConfig_of_applicable E ctx problem Happlicable)
      as (first & Hfirst & Hne).
    destruct (Search_outcome E ctx problem first Hfirst Hne)
      as (best & handle & Hbest & Hsearch).
    destruct best as [[winner t]|]; cbn [first_fastest] in Hbest.
    + left. now exists winner, handle.
    + right. split; [exact Hsearch|]. exists first. split; [exact Hfirst|].
      intros i id Hid. apply Hbest; [|exact Hid]. now apply lookup_lt_Some in Hid.
Qed.

Lemma Search_twice_same_winner_sample :
  Outcome_map fst
    (Search (samples.installation false (more_samples.timed_instances (2 # 10) (2 # 10)))
       samples.gfx90a (samples.conv3x3 miopenHalf))
  = Outcome_map fst
      (Search (samples.installation false (more_samples.timed_instances (2 # 10) (2 # 10)))
         {| GetStream := more_samples.profiling_handle |} (samples.conv3x3 miopenHalf))
  /\ (forall (winner : PerfConfig) (handle : Handle),
        Search (samples.installation false (more_samples.timed_instances (2 # 10) (2 # 10)))
          samples.gfx90a (samples.conv3x3 miopenHalf) = Returns (winner, handle) ->
        (exists handle' : Handle,
           Search
             (samples.installation false (more_samples.timed_instances (2 # 10) (2 # 10)))
             {| GetStream := more_samples.profiling_handle |} (samples.conv3x3 miopenHalf)
           = Returns (winner, handle'))
        /\ exists (first : PerfConfig) (j : nat) (id : string) (t : Q),
             GetDefaultPerformanceConfig
               (samples.installation false (more_samples.timed_instances (2 # 10) (2 # 10)))
               (samples.conv3x3 miopenHalf) = Returns first
             /\ valid_kernels first !! j = Some id
             /\ winner = candidate first j id
             /\ measures
                  (samples.installation false
                     (more_samples.timed_instances (2 # 10) (2 # 10)))
                  samples.gfx90a (samples.conv3x3 miopenHalf) winner t
             /\ forall (i : nat) (id' : string) (t' : Q),
                  valid_kernels first !! i = Some id' ->
                  measures
                    (samples.installation false
                       (more_samples.timed_instances (2 # 10) (2 # 10)))
                    samples.gfx90a (samples.conv3x3 miopenHalf) (candidate first i id') t' ->
                  (t <= t')%Q /\ ((i < j)%nat -> (t < t')%Q))
  /\ (outcome
        (IsApplicable
           (samples.installation false (more_samples.timed_instances (2 # 10) (2 # 10)))
           samples.gfx90a (samples.conv3x3 miopenHalf)) = Returns true ->
      (exists (winner : PerfConfig) (handle : Handle),
         Search (samples.installation false (more_samples.timed_instances (2 # 10) (2 # 10)))
           samples.gfx90a (samples.conv3x3 miopenHalf) = Returns (winner, handle))
      \/ (Search
            (samples.installation false (more_samples.timed_instances (2 # 10) (2 # 10)))
            samples.gfx90a (samples.conv3x3 miopenHalf)
          = Throws NoValidConfiguration
          /\ exists first : PerfConfig,
               GetDefaultPerformanceConfig
                 (samples.installation false
                    (more_samples.timed_instances (2 # 10) (2 # 10)))
                 (samples.conv3x3 miopenHalf) = Returns first
               /\ forall (i : nat) (id : string),
                    valid_kernels first !! i = Some id ->
                    IsValid
                      (samples.installation false
                         (more_samples.timed_instances (2 # 10) (2 # 10)))
                      (samples.conv3x3 miopenHalf) (candidate first i id)
                    = Returns false)).
Proof.
  apply (Search_twice_same_winner
           (samples.installation false (more_samples.timed_instances (2 # 10) (2 # 10)))
           (samples.installation false (more_samples.timed_instances (2 # 10) (2 # 10)))
           samples.gfx90a {| GetStream := more_samples.profiling_handle |}
           (samples.conv3x3 miopenHalf)).
  - split; [reflexivity|]. split; [reflexivity|].
    intros T. simpl. repeat constructor.
  - intros T. simpl. repeat constructor.
Defined.

(** C7, as stated, fails where the second search measures other elapsed
    times than the first: with the same problem, the same solver and the
    same candidates in the same order, the first search returns the second
    candidate, for which it measured the least time, and the second search,
    started on the handle the first one left, returns the first
    candidate. *)
Lemma Search_winner_follows_elapsed_times :
  same_candidates
    (samples.installation false (more_samples.timed_instances (3 # 10) (2 # 10)))
    (samples.installation false (more_samples.timed_instances (2 # 10) (3 # 10)))
    (samples.conv3x3 miopenHalf)
  /\ exists handle handle' : Handle,
       Search (samples.installation false (more_samples.timed_instances (3 # 10) (2 # 10)))
         samples.gfx90a (samples.conv3x3 miopenHalf)
       = Returns
           (more_samples.timed_config 1
              "DeviceGroupedConvFwdMultipleD_Xdl_CShuffle<64, 64, 32, 32>", handle)
       /\ Search (samples.installation false (more_samples.timed_instances (2 # 10) (3 # 10)))
            {| GetStream := handle |} (samples.conv3x3 miopenHalf)
          = Returns
              (more_samples.timed_config 0
                 "DeviceGroupedConvFwdMultipleD_Xdl_CShuffle<128, 128, 64, 32>", handle')
       /\ more_samples.timed_config 1
            "DeviceGroupedConvFwdMultipleD_Xdl_CShuffle<64, 64, 32, 32>"
          <> more_samples.timed_config 0
               "DeviceGroupedConvFwdMultipleD_Xdl_CShuffle<128, 128, 64, 32>".
Proof.
  split.
  - split; [reflexivity|]. split; [reflexivity|].
    intros T. simpl. repeat constructor.
  - eexists. eexists. split; [reflexivity|]. split; [reflexivity | discriminate].
Qed.
